(** * mcp-server-proxy: a shallow embedding of [src/server.ts]

    The proxy keeps two insertion-ordered [Map]s (backend clients and the
    prefixed tool registry), the name of the current profile and a plain
    object of SSE sessions.  Every method of [MCPServerProxy] is embedded as
    a computation over that state which may complete normally or throw and
    which records the calls it makes on its collaborators (the MCP SDK, the
    file system, the logger).  The collaborators themselves are parameters,
    gathered in the record [Env]. *)

From Stdlib Require Import String Ascii List Bool Arith Lia ZArith.
Import ListNotations.
Local Open Scope list_scope.
Local Open Scope string_scope.

Set Implicit Arguments.

(* ------------------------------------------------------------------ *)
(** ** JavaScript values used by the proxy *)

(** Opaque JSON payloads (tool schemas, call arguments, request bodies). *)
Unset Elimination Schemes.
Inductive JSON : Type :=
| JNull
| JBool (b : bool)
| JNumber (z : Z)
| JString (s : string)
| JArray (items : list JSON)
| JObject (members : list (string * JSON)).
Set Elimination Schemes.

(** [Record<string, unknown>] *)
Definition JSONRecord := list (string * JSON).

(** Thrown values.  Every [throw] of the source throws an [Error]; the
    collaborators throw [Error]s or subclasses of it. *)
Record JSError := mkError { ename : string; message : string }.

Definition new_Error (m : string) : JSError := mkError "Error" m.
Definition new_TypeError (m : string) : JSError := mkError "TypeError" m.

(** [`${error}`] : [Error.prototype.toString]. *)
Definition error_toString (e : JSError) : string :=
  if String.eqb (ename e) "" then message e
  else if String.eqb (message e) "" then ename e
  else ename e ++ ": " ++ message e.

(** How a call ends: it returns, or (for an [async] function: its promise
    rejects) it throws. *)
Inductive Completion (A : Type) : Type :=
| Normal (a : A)
| Throw (e : JSError).
Arguments Normal {A} a.
Arguments Throw {A} e.

(** [String.prototype.includes] *)
Fixpoint includes (s sub : string) : bool :=
  if String.prefix sub s then true
  else match s with
       | EmptyString => false
       | String _ rest => includes rest sub
       end.

(* ------------------------------------------------------------------ *)
(** ** [Map<string, V>]: insertion-ordered, keys compared by value *)

Module JSMap.
Section Ops.
Variable V : Type.

Definition t := list (string * V).

Definition empty : t := [].

Fixpoint get (m : t) (k : string) : option V :=
  match m with
  | [] => None
  | (k', v) :: rest => if String.eqb k' k then Some v else get rest k
  end.

Definition has (m : t) (k : string) : bool :=
  match get m k with Some _ => true | None => false end.

(** [set] on a present key keeps its position; a new key goes last. *)
Fixpoint set (m : t) (k : string) (v : V) : t :=
  match m with
  | [] => [(k, v)]
  | (k', v') :: rest =>
      if String.eqb k' k then (k', v) :: rest
      else (k', v') :: set rest k v
  end.

Definition clear (_ : t) : t := [].

Definition keys (m : t) : list string := map fst m.
Definition values (m : t) : list V := map snd m.
End Ops.
End JSMap.

(* ------------------------------------------------------------------ *)
(** ** Plain objects used as dictionaries

    [transports] is created by the literal [{}], so a property read that
    finds no own property continues on [Object.prototype]. *)

Definition Object_prototype_keys : list string :=
  [ "constructor"; "hasOwnProperty"; "isPrototypeOf";
    "propertyIsEnumerable"; "toLocaleString"; "toString"; "valueOf";
    "__proto__"; "__defineGetter__"; "__defineSetter__";
    "__lookupGetter__"; "__lookupSetter__" ].

Inductive PropertyValue (V : Type) : Type :=
| Own (v : V)                 (* an own property, stored by the proxy *)
| Inherited (key : string)    (* a member of [Object.prototype] *)
| Undefined.
Arguments Own {V} v.
Arguments Inherited {V} key.
Arguments Undefined {V}.

Module JSObject.
Section Ops.
Variable V : Type.

Definition t := list (string * V).

Definition empty : t := [].

Fixpoint own (o : t) (k : string) : option V :=
  match o with
  | [] => None
  | (k', v) :: rest => if String.eqb k' k then Some v else own rest k
  end.

(** [o[k]] *)
Definition get (o : t) (k : string) : PropertyValue V :=
  match own o k with
  | Some v => Own v
  | None =>
      if existsb (String.eqb k) Object_prototype_keys
      then Inherited k else Undefined
  end.

(** [!o[k]]: functions and objects are truthy. *)
Definition falsy (p : PropertyValue V) : bool :=
  match p with Undefined => true | _ => false end.

(** [o[k] = v] for a key other than [__proto__]: an own property keeps
    its place, a new one is added. *)
Fixpoint set (o : t) (k : string) (v : V) : t :=
  match o with
  | [] => [(k, v)]
  | (k', v') :: rest =>
      if String.eqb k' k then (k', v) :: rest
      else (k', v') :: set rest k v
  end.

(** [delete o[k]] *)
Fixpoint delete (o : t) (k : string) : t :=
  match o with
  | [] => []
  | (k', v) :: rest =>
      if String.eqb k' k then delete rest k else (k', v) :: delete rest k
  end.

Definition values (o : t) : list V := map snd o.
End Ops.
End JSObject.

(* ------------------------------------------------------------------ *)
(** ** Data of the proxy *)

(** [Tool] of the SDK: the fields the proxy reads or rewrites. *)
Module Tool.
Record t := mk {
  name : string;
  description : option string;
  inputSchema : JSON
}.
End Tool.

(** One entry of [ServerConfig.mcpServers], with the shape it has at run
    time: [connectToServer] tests which keys are present. *)
Record BackendConfig := {
  command : option string;
  args : option (list string);
  url : option string
}.

(** [mcpServers] is kept in the order [Object.entries] enumerates it. *)
Record ServerConfig := {
  mcpServers : list (string * BackendConfig)
}.

Record ToolInfo := {
  serverId : string;
  tool : Tool.t
}.

Inductive Transport : Type :=
| StdioClientTransport (command : string) (args : option (list string))
| SSEClientTransport (url : string).

(** [Client] of the SDK: its identity and the transport it is connected
    through ([client.transport] is [undefined] when there is none). *)
Module Client.
Record t := mk {
  name : string;
  version : string;
  transport : option Transport
}.
End Client.

(** [SSEServerTransport] of [./sse]: one caller session. *)
Record SSEServerTransport := {
  endpoint : string;
  sessionId : string
}.

Record ProgressMeta := {
  progressToken : option (string + Z)
}.

Record ContentItem := {
  type : string;
  text : string
}.

(** What [handleCallTool] returns: the backend's result or the proxy's own
    error payload. *)
Record CallToolResult := {
  content : list ContentItem;
  isError : option bool;
  _meta : option ProgressMeta
}.

Record CallToolParams := {
  params_name : string;
  params_arguments : option JSONRecord;
  params_meta : option ProgressMeta
}.

Record CallToolRequest := {
  params : CallToolParams
}.

Record ListToolsResult := {
  tools : list Tool.t
}.

Record HttpRequest := {
  query_sessionId : string;
  body : JSON
}.

Record HttpResponse := {
  status : nat;
  json : JSON
}.

(** The fields of [MCPServerProxy] that its methods read and write. *)
Record State := {
  config : ServerConfig;
  clients : JSMap.t Client.t;
  toolMap : JSMap.t ToolInfo;
  currentProfile : string;
  transports : JSObject.t SSEServerTransport
}.

(** [new MCPServerProxy()] *)
Definition initial_state : State := {|
  config := {| mcpServers := [] |};
  clients := JSMap.empty _;
  toolMap := JSMap.empty _;
  currentProfile := "default";
  transports := JSObject.empty _
|}.

(* ------------------------------------------------------------------ *)
(** ** Collaborators *)

(** The [port] of [start]: what [Number.parseInt] gives (line 393), or the
    default. *)
Inductive JSNumber : Type :=
| Num (z : Z)
| NaN.

(** Calls the proxy makes on the outside world, in the order made. *)
Inductive Event : Type :=
| LogInfo (msg : string) (data : list string)
| LogError (msg : string) (error : option JSError)
| ReadFile (path : string)
| Connect (client : Client.t) (transport : Transport)
| ListTools (client : Client.t)
| CallTool (client : Client.t) (name : string) (arguments : JSONRecord)
| CloseClientTransport (client : Client.t)
| CloseSession (transport : SSEServerTransport)
| HandlePostMessage (transport : SSEServerTransport) (req : HttpRequest)
| ServeStdio
| Listen (port : JSNumber) (host : string).

(** The answers of the outside world during one call of a method. *)
Record Env := {
  cwd : string;
  path_join : string -> string -> string;
  fs_readFile : string -> Completion string;
  JSON_parse : string -> Completion ServerConfig;
  new_URL : string -> Completion string;
  Client_connect : Client.t -> Transport -> Completion unit;
  Client_listTools : Client.t -> Completion ListToolsResult;
  Client_callTool :
    Client.t -> string -> JSONRecord -> Completion CallToolResult;
  Transport_close : Transport -> Completion unit;
  SSEServerTransport_close : SSEServerTransport -> Completion unit;
  SSEServerTransport_handlePostMessage :
    SSEServerTransport -> HttpRequest -> Completion HttpResponse;
  Server_connect_stdio : Completion unit;
  app_listen : JSNumber -> string -> Completion unit
}.

(* ------------------------------------------------------------------ *)
(** ** Computations: state, exceptions and the record of outside calls *)

Record Out (A : Type) := {
  result : Completion A;
  state : State;
  events : list Event
}.

Definition M (A : Type) := State -> Out A.

Definition ret {A} (a : A) : M A :=
  fun s => {| result := Normal a; state := s; events := [] |}.

Definition throw {A} (e : JSError) : M A :=
  fun s => {| result := Throw e; state := s; events := [] |}.

Definition bind {A B} (m : M A) (f : A -> M B) : M B :=
  fun s =>
    let o := m s in
    match result o with
    | Normal a =>
        let o' := f a (state o) in
        {| result := result o'; state := state o';
           events := (events o ++ events o')%list |}
    | Throw e => {| result := Throw e; state := state o; events := events o |}
    end.

(** [try { m } catch (error) { h error }] *)
Definition try_catch {A} (m : M A) (h : JSError -> M A) : M A :=
  fun s =>
    let o := m s in
    match result o with
    | Normal a => o
    | Throw e =>
        let o' := h e (state o) in
        {| result := result o'; state := state o';
           events := (events o ++ events o')%list |}
    end.

Definition gets {A} (f : State -> A) : M A :=
  fun s => {| result := Normal (f s); state := s; events := [] |}.

Definition modify (f : State -> State) : M unit :=
  fun s => {| result := Normal tt; state := f s; events := [] |}.

Definition emit (ev : Event) : M unit :=
  fun s => {| result := Normal tt; state := s; events := [ev] |}.

(** An outside call: recorded, then completed as the world answers. *)
Definition call {A} (ev : Event) (answer : Completion A) : M A :=
  fun s => {| result := answer; state := s; events := [ev] |}.

(** A constructor or pure function that may throw. *)
Definition lift {A} (c : Completion A) : M A :=
  fun s => {| result := c; state := s; events := [] |}.

Notation "x <- c1 ;; c2" := (bind c1 (fun x => c2))
  (at level 61, c1 at next level, right associativity).
Notation "c1 ;; c2" := (bind c1 (fun _ => c2))
  (at level 61, right associativity).

(** [for (const x of xs) { body x }] *)
Fixpoint for_of {A} (xs : list A) (body : A -> M unit) : M unit :=
  match xs with
  | [] => ret tt
  | x :: rest => body x ;; for_of rest body
  end.

Definition set_config (c : ServerConfig) (s : State) : State :=
  {| config := c; clients := clients s; toolMap := toolMap s;
     currentProfile := currentProfile s; transports := transports s |}.

Definition set_clients (c : JSMap.t Client.t) (s : State) : State :=
  {| config := config s; clients := c; toolMap := toolMap s;
     currentProfile := currentProfile s; transports := transports s |}.

Definition set_toolMap (m : JSMap.t ToolInfo) (s : State) : State :=
  {| config := config s; clients := clients s; toolMap := m;
     currentProfile := currentProfile s; transports := transports s |}.

Definition set_currentProfile (p : string) (s : State) : State :=
  {| config := config s; clients := clients s; toolMap := toolMap s;
     currentProfile := p; transports := transports s |}.

Definition set_transports (t : JSObject.t SSEServerTransport) (s : State)
  : State :=
  {| config := config s; clients := clients s; toolMap := toolMap s;
     currentProfile := currentProfile s; transports := t |}.

(* ------------------------------------------------------------------ *)
(** ** The methods of [MCPServerProxy] *)

Definition logger_info (msg : string) (data : list string) : M unit :=
  emit (LogInfo msg data).

Definition logger_error (msg : string) (error : option JSError) : M unit :=
  emit (LogError msg error).

(** [tool.description || ""] *)
Definition or_empty (d : option string) : string :=
  match d with Some x => x | None => "" end.

(** [arguments: args = {}] *)
Definition args_or_default (a : option JSONRecord) : JSONRecord :=
  match a with Some r => r | None => [] end.

(** The payload of the three error returns of [handleCallTool]. *)
Definition error_response (msg : string) (meta : option ProgressMeta)
  : CallToolResult :=
  {| content := [ {| type := "text"; text := msg |} ];
     isError := Some true;
     _meta := meta |}.

(** server.ts, line 224 *)
Definition switch_failed_message (profileName serverId : string) : string :=
  "Failed to connect to server " ++ serverId ++ " in profile "
  ++ profileName ++ ":".

(** server.ts, line 251 *)
Definition start_failed_message (serverId : string) : string :=
  "Failed to connect to server " ++ serverId ++ ":".

Section Methods.
Variable env : Env.

(** server.ts, lines 78-90 *)
Definition readConfig (profile : string) : M unit :=
  let configPath :=
    path_join env (cwd env) ("config." ++ profile ++ ".json") in
  try_catch
    (configData <- call (ReadFile configPath) (fs_readFile env configPath) ;;
     parsed <- lift (JSON_parse env configData) ;;
     modify (set_config parsed))
    (fun error =>
       logger_error
         ("Error reading config file for profile " ++ profile ++ ":")
         (Some error) ;;
       throw (new_Error ("Failed to load profile " ++ profile))).

(** server.ts, lines 127-130: one turn of the loop over the tools. *)
Definition register_tool (serverId : string) (tool : Tool.t) : M unit :=
  let prefixedName := serverId ++ "_" ++ Tool.name tool in
  modify (fun s =>
    set_toolMap
      (JSMap.set (toolMap s) prefixedName
         {| serverId := serverId; tool := tool |}) s).

(** server.ts, line 100 *)
Definition new_Client (serverId : string) : Client.t :=
  Client.mk ("proxy-" ++ serverId) "1.0.0" None.

(** [client.connect(transport)] leaves the transport on the client. *)
Definition connected (client : Client.t) (transport : Transport)
  : Client.t :=
  Client.mk (Client.name client) (Client.version client) (Some transport).

(** server.ts, lines 102-115: [command] wins when both keys are there. *)
Definition make_transport (config : BackendConfig) : Completion Transport :=
  match command config, url config with
  | None, None => Throw (new_Error "Command or url not found in config")
  | Some c, _ => Normal (StdioClientTransport c (args config))
  | None, Some u =>
      match new_URL env u with
      | Normal href => Normal (SSEClientTransport href)
      | Throw e => Throw e
      end
  end.

(** server.ts, lines 92-131 *)
Definition connectToServer (serverId : string) (config : BackendConfig)
  : M unit :=
  present <- gets (fun s => JSMap.has (clients s) serverId) ;;
  if present then ret tt
  else
    let client := new_Client serverId in
    transport <- lift (make_transport config) ;;
    call (Connect client transport) (Client_connect env client transport) ;;
    let client := connected client transport in
    modify (fun s => set_clients (JSMap.set (clients s) serverId client) s) ;;
    toolsResult <- call (ListTools client) (Client_listTools env client) ;;
    logger_info ("Connected to " ++ serverId ++ " with tools:")
                (map Tool.name (tools toolsResult)) ;;
    for_of (tools toolsResult) (register_tool serverId).

(** server.ts, lines 135-141: the decorated copy of one registry entry. *)
Definition decorate (profile : string) (info : ToolInfo) : Tool.t :=
  Tool.mk
    (serverId info ++ "_" ++ Tool.name (tool info))
    (Some ("[" ++ profile ++ "/" ++ serverId info ++ "] "
           ++ or_empty (Tool.description (tool info))))
    (Tool.inputSchema (tool info)).

(** server.ts, lines 133-144 *)
Definition handleListTools : M ListToolsResult :=
  s <- gets (fun s => s) ;;
  ret {| tools :=
           map (decorate (currentProfile s)) (JSMap.values (toolMap s)) |}.

(** server.ts, lines 146-206 *)
Definition handleCallTool (request : CallToolRequest) : M CallToolResult :=
  let name := params_name (params request) in
  let args := args_or_default (params_arguments (params request)) in
  let _meta := params_meta (params request) in
  s <- gets (fun s => s) ;;
  match JSMap.get (toolMap s) name with
  | None =>
      ret (error_response
             ("Tool " ++ name ++ " not found in profile "
              ++ currentProfile s) _meta)
  | Some toolInfo =>
      let serverId := serverId toolInfo in
      match JSMap.get (clients s) serverId with
      | None =>
          ret (error_response
                 ("Server " ++ serverId ++ " not connected in profile "
                  ++ currentProfile s) _meta)
      | Some client =>
          try_catch
            (mappedTool <-
               match JSMap.get (toolMap s) name with
               | None =>
                   throw (new_Error
                            ("Original tool name not found for " ++ name))
               | Some mappedTool => ret mappedTool
               end ;;
             let original := Tool.name (tool mappedTool) in
             call (CallTool client original args)
                  (Client_callTool env client original args))
            (fun error =>
               ret (error_response
                      ("Error calling tool " ++ name ++ ": "
                       ++ error_toString error) _meta))
      end
  end.

(** What is left of a client of the SDK once its transport has closed:
    [client.transport] is [undefined]. *)
Definition disconnected (client : Client.t) : Client.t :=
  Client.mk (Client.name client) (Client.version client) None.

(** server.ts, lines 353-360: one turn of the loop over the clients.  The
    client is the object the map holds under [serverId]: when its close
    succeeds the SDK makes it forget its transport, and the map shows it. *)
Definition close_client (serverId : string) (client : Client.t) : M unit :=
  try_catch
    (match Client.transport client with
     | Some t =>
         call (CloseClientTransport client) (Transport_close env t) ;;
         modify (fun s =>
           set_clients
             (JSMap.set (clients s) serverId (disconnected client)) s)
     | None => ret tt
     end)
    (fun error => logger_error "Error disconnecting client:" (Some error)).

(** server.ts, lines 341-361.  No client is removed from [this.clients]
    here: the closed clients stay in the map until the caller clears it. *)
Definition cleanup : M unit :=
  open <- gets (fun s => JSObject.values (transports s)) ;;
  for_of open (fun transport =>
    try_catch
      (call (CloseSession transport)
            (SSEServerTransport_close env transport))
      (fun error => logger_error "Error closing transport:" (Some error))) ;;
  modify (set_transports (JSObject.empty _)) ;;
  connected <- gets (fun s => clients s) ;;
  for_of connected (fun '(serverId, client) => close_client serverId client).

(** server.ts, lines 219-228 (and 247-253, where the message of the log
    line does not name the profile). *)
Definition connect_all (failed : string -> string) : M unit :=
  entries <- gets (fun s => mcpServers (config s)) ;;
  for_of entries (fun '(serverId, config) =>
    try_catch
      (connectToServer serverId config)
      (fun error => logger_error (failed serverId) (Some error))).

(** server.ts, lines 208-229 *)
Definition switchProfile (profileName : string) : M unit :=
  cleanup ;;
  modify (fun s => set_clients (JSMap.clear (clients s)) s) ;;
  modify (fun s => set_toolMap (JSMap.clear (toolMap s)) s) ;;
  readConfig profileName ;;
  modify (set_currentProfile profileName) ;;
  connect_all (switch_failed_message profileName).

(** server.ts, lines 255-338: the caller-facing transport.  In [stdio]
    mode the server is connected to a new [StdioServerTransport]; in any
    other mode the express application is built, the two routes are
    registered and [listen] is called.  The routes are [post_messages] and
    the session callbacks; the callback of [listen] (lines 333-337) only
    logs, and runs later. *)
Definition serve (mode : string) (port : JSNumber) (host : string)
  : M unit :=
  if String.eqb mode "stdio" then
    call ServeStdio (Server_connect_stdio env) ;;
    profile <- gets currentProfile ;;
    logger_info
      ("MCP Server Proxy running on stdio with profile " ++ profile) []
  else
    call (Listen port host) (app_listen env port host).

(** server.ts, lines 231-339.  Lines 237-240 replace the logger by
    [getLogger "info" mode], which cannot fail and decides only the stream
    a log line is written to (see [getLogger] below).  A log call is
    recorded as [LogInfo] or [LogError] with its text and data whatever the
    stream, so the logger is not a field of [State] and its assignment
    leaves no call to record. *)
Definition start (initialProfile mode : string) (port : JSNumber)
    (host : string) : M unit :=
  readConfig initialProfile ;;
  modify (set_currentProfile initialProfile) ;;
  connect_all start_failed_message ;;
  serve mode port host.

(** server.ts, line 326: [transport.handlePostMessage(req, res)] on
    whatever the property read produced.  A member of [Object.prototype]
    has no such method, and calling [undefined] throws a [TypeError]. *)
Definition call_handlePostMessage
    (transport : PropertyValue SSEServerTransport) (req : HttpRequest)
  : M HttpResponse :=
  match transport with
  | Own t =>
      call (HandlePostMessage t req)
           (SSEServerTransport_handlePostMessage env t req)
  | Inherited _ | Undefined =>
      throw (new_TypeError "transport.handlePostMessage is not a function")
  end.

Definition json_error (msg : string) : JSON :=
  JObject [ ("error", JString msg) ].

(** server.ts, lines 315-331: the handler of [POST /messages]. *)
Definition post_messages (req : HttpRequest) : M HttpResponse :=
  let sessionId := query_sessionId req in
  transport <- gets (fun s => JSObject.get (transports s) sessionId) ;;
  if JSObject.falsy transport then
    logger_info "No transport found for sessionId" [sessionId] ;;
    ret {| status := 400;
           json := json_error "No transport found for sessionId" |}
  else
    try_catch
      (call_handlePostMessage transport req)
      (fun error =>
         logger_error "Error handling message:" (Some error) ;;
         ret {| status := 500; json := json_error "Internal server error" |}).

(** server.ts, lines 279-296: [onclose], [onerror] and the first
    [req.on("close")] all drop the session from the map. *)
Definition drop_session (t : SSEServerTransport) : M unit :=
  modify (fun s =>
    set_transports (JSObject.delete (transports s) (sessionId t)) s).
End Methods.

(* ------------------------------------------------------------------ *)
(** ** Reachable states *)

(** What holds of the two maps together: the registry has one entry per
    name, every entry is stored under its prefixed name and belongs to a
    backend of the client set. *)
Definition registry_ok (s : State) : Prop :=
  NoDup (JSMap.keys (toolMap s)) /\
  forall k info,
    JSMap.get (toolMap s) k = Some info ->
    k = serverId info ++ "_" ++ Tool.name (tool info) /\
    JSMap.has (clients s) (serverId info) = true.

(** Every client of the map went through [client.connect]. *)
Definition clients_connected (s : State) : Prop :=
  forall id c, JSMap.get (clients s) id = Some c -> Client.transport c <> None.

(** The link to backend [id] goes down (the backend exits, the network
    drops).  The SDK's client then forgets its transport; the proxy installs
    no [onclose] handler on its clients, so the client stays in the map. *)
Definition link_closed (id : string) (s : State) : State :=
  match JSMap.get (clients s) id with
  | Some c =>
      set_clients
        (JSMap.set (clients s) id
           (Client.mk (Client.name c) (Client.version c) None)) s
  | None => s
  end.

(** The states the proxy goes through: the public methods and the request
    handlers, run against any answers of the outside world, and the events
    of the outside world itself. *)
Inductive reachable : State -> Prop :=
| reach_new : reachable initial_state
| reach_start env p mode port host s :
    reachable s -> reachable (state (start env p mode port host s))
| reach_switchProfile env p s :
    reachable s -> reachable (state (switchProfile env p s))
| reach_cleanup env s :
    reachable s -> reachable (state (cleanup env s))
| reach_handleListTools s :
    reachable s -> reachable (state (handleListTools s))
| reach_handleCallTool env req s :
    reachable s -> reachable (state (handleCallTool env req s))
| reach_session_open t s :
    reachable s ->
    sessionId t <> "__proto__" ->
    reachable
      (set_transports (JSObject.set (transports s) (sessionId t) t) s)
| reach_session_drop t s :
    reachable s -> reachable (state (drop_session t s))
| reach_post_messages env req s :
    reachable s -> reachable (state (post_messages env req s))
| reach_link_closed id s :
    reachable s -> reachable (link_closed id s).

(* ------------------------------------------------------------------ *)
(** ** A sample deployment

    Two profiles on disk.  [dev] has the backends [kubernetes] and [docker];
    [docker] refuses the connection.  [ops] has the backend [files], reached
    over SSE.  No other profile exists. *)

Module Sample.
Definition get_pods : Tool.t :=
  Tool.mk "get_pods" (Some "List pods") (JObject []).
Definition list_containers : Tool.t :=
  Tool.mk "list_containers" None (JObject []).
Definition read_file : Tool.t :=
  Tool.mk "read_file" (Some "Read a file") (JObject []).

Definition dev_config : ServerConfig :=
  {| mcpServers :=
       [ ("kubernetes",
          {| command := Some "npx";
             args := Some ["mcp-server-kubernetes"];
             url := None |});
         ("docker",
          {| command := Some "docker"; args := Some ["mcp"];
             url := None |}) ] |}.

Definition ops_config : ServerConfig :=
  {| mcpServers :=
       [ ("files",
          {| command := None; args := None;
             url := Some "http://localhost:9000/sse" |}) ] |}.

Definition pods_result : CallToolResult :=
  {| content := [ {| type := "text"; text := "pod-a" |} ];
     isError := None;
     _meta := None |}.

Definition env : Env :=
  {| cwd := "/srv";
     path_join := fun a b => a ++ "/" ++ b;
     fs_readFile := fun path =>
       if String.eqb path "/srv/config.dev.json" then Normal "dev"
       else if String.eqb path "/srv/config.ops.json" then Normal "ops"
       else Throw (new_Error ("ENOENT: no such file or directory, open '"
                              ++ path ++ "'"));
     JSON_parse := fun data =>
       if String.eqb data "dev" then Normal dev_config
       else if String.eqb data "ops" then Normal ops_config
       else Throw (mkError "SyntaxError" "Unexpected token");
     new_URL := fun u => Normal u;
     Client_connect := fun c _ =>
       if String.eqb (Client.name c) "proxy-docker"
       then Throw (new_Error "spawn docker ENOENT")
       else Normal tt;
     Client_listTools := fun c =>
       if String.eqb (Client.name c) "proxy-kubernetes"
       then Normal {| tools := [get_pods] |}
       else if String.eqb (Client.name c) "proxy-files"
       then Normal {| tools := [read_file] |}
       else Normal {| tools := [list_containers] |};
     Client_callTool := fun c name _ =>
       match Client.transport c with
       | None => Throw (new_Error "Not connected")
       | Some _ =>
           if String.eqb name "get_pods" then Normal pods_result
           else Throw (mkError "McpError" ("Unknown tool: " ++ name))
       end;
     Transport_close := fun _ => Normal tt;
     SSEServerTransport_close := fun _ => Normal tt;
     SSEServerTransport_handlePostMessage := fun _ _ =>
       Normal {| status := 202; json := JString "Accepted" |};
     Server_connect_stdio := Normal tt;
     app_listen := fun port _ =>
       match port with
       | Num _ => Normal tt
       | NaN =>
           Throw (mkError "RangeError"
                    "options.port should be >= 0 and < 65536. Received type number (NaN).")
       end |}.

(** The same deployment with every backend down. *)
Definition offline : Env :=
  {| cwd := cwd env;
     path_join := path_join env;
     fs_readFile := fs_readFile env;
     JSON_parse := JSON_parse env;
     new_URL := new_URL env;
     Client_connect := fun _ _ => Throw (new_Error "connect ECONNREFUSED");
     Client_listTools := Client_listTools env;
     Client_callTool := Client_callTool env;
     Transport_close := Transport_close env;
     SSEServerTransport_close := SSEServerTransport_close env;
     SSEServerTransport_handlePostMessage :=
       SSEServerTransport_handlePostMessage env;
     Server_connect_stdio := Server_connect_stdio env;
     app_listen := app_listen env |}.

(** The proxy after [switchProfile("dev")]. *)
Definition dev_state : State := state (switchProfile env "dev" initial_state).

(** [dev] after the link to [kubernetes] has gone down. *)
Definition kubernetes_down : State := link_closed "kubernetes" dev_state.

(** The registry names a backend that is not in the client set. *)
Definition orphan_state : State :=
  {| config := dev_config;
     clients := [];
     toolMap :=
       [ ("docker_list_containers",
          {| serverId := "docker"; tool := list_containers |}) ];
     currentProfile := "dev";
     transports := [] |}.

Definition call_request (name : string) : CallToolRequest :=
  {| params :=
       {| params_name := name;
          params_arguments := Some [];
          params_meta := Some {| progressToken := Some (inl "t-1") |} |} |}.
End Sample.

(* ------------------------------------------------------------------ *)
(** ** Vocabulary of the statements *)

(** What [readConfig] finds for a profile: the parsed file, or the error
    of reading or parsing it. *)
Definition config_on_disk (env : Env) (profile : string)
  : Completion ServerConfig :=
  match
    fs_readFile env
      (path_join env (cwd env) ("config." ++ profile ++ ".json"))
  with
  | Normal data => JSON_parse env data
  | Throw e => Throw e
  end.

(** A backend connects: its transport can be built, the client connects
    through it and then reports [reported] as its tools. *)
Definition backend_connects (env : Env) (serverId : string)
    (config : BackendConfig) (reported : list Tool.t) : Prop :=
  exists transport,
    make_transport env config = Normal transport /\
    Client_connect env (new_Client serverId) transport = Normal tt /\
    Client_listTools env (connected (new_Client serverId) transport)
    = Normal {| tools := reported |}.

(** The registry after the tools of one backend have been stored in it. *)
Definition register_all (serverId : string) (reported : list Tool.t)
    (m : JSMap.t ToolInfo) : JSMap.t ToolInfo :=
  fold_left
    (fun m tool =>
       JSMap.set m (serverId ++ "_" ++ Tool.name tool)
                 {| serverId := serverId; tool := tool |})
    reported m.

(** The proxy with no backend and no session, about to connect the
    backends of [c] as profile [p]. *)
Definition fresh_profile (c : ServerConfig) (p : string) : State :=
  {| config := c; clients := []; toolMap := []; currentProfile := p;
     transports := [] |}.

(** The proxy after the teardown half of [switchProfile]. *)
Definition torn_down (s : State) : State :=
  {| config := config s; clients := []; toolMap := [];
     currentProfile := currentProfile s; transports := [] |}.

(** The registry holds only what connected backends of [c] reported. *)
Definition from_connected (env : Env) (c : ServerConfig) (s : State) : Prop :=
  forall k info,
    JSMap.get (toolMap s) k = Some info ->
    exists cfg reported,
      In (serverId info, cfg) (mcpServers c) /\
      backend_connects env (serverId info) cfg reported /\
      In (tool info) reported /\
      k = serverId info ++ "_" ++ Tool.name (tool info).

(** [m], started in [s], returns [a] and leaves the state [s']. *)
Definition returns {A} (m : M A) (s : State) (a : A) (s' : State) : Prop :=
  result (m s) = Normal a /\ state (m s) = s'.

(** [m], started in [s], throws [e] and leaves the state [s']. *)
Definition throws {A} (m : M A) (s : State) (e : JSError) (s' : State)
  : Prop :=
  result (m s) = Throw e /\ state (m s) = s'.

(** The exits of [connectToServer], with the state each one leaves. *)
Inductive connect_exit (env : Env) (serverId : string)
    (config : BackendConfig) (s : State)
  : Completion unit -> State -> Prop :=
| exit_present :
    JSMap.has (clients s) serverId = true ->
    connect_exit env serverId config s (Normal tt) s
| exit_no_transport e :
    JSMap.has (clients s) serverId = false ->
    make_transport env config = Throw e ->
    connect_exit env serverId config s (Throw e) s
| exit_connect_failed t e :
    JSMap.has (clients s) serverId = false ->
    make_transport env config = Normal t ->
    Client_connect env (new_Client serverId) t = Throw e ->
    connect_exit env serverId config s (Throw e) s
| exit_listTools_failed t e :
    JSMap.has (clients s) serverId = false ->
    make_transport env config = Normal t ->
    Client_connect env (new_Client serverId) t = Normal tt ->
    Client_listTools env (connected (new_Client serverId) t) = Throw e ->
    connect_exit env serverId config s (Throw e)
      (set_clients
         (JSMap.set (clients s) serverId
                    (connected (new_Client serverId) t)) s)
| exit_connected t reported :
    JSMap.has (clients s) serverId = false ->
    make_transport env config = Normal t ->
    Client_connect env (new_Client serverId) t = Normal tt ->
    Client_listTools env (connected (new_Client serverId) t)
    = Normal {| tools := reported |} ->
    connect_exit env serverId config s (Normal tt)
      (set_toolMap
         (register_all serverId reported (toolMap s))
         (set_clients
            (JSMap.set (clients s) serverId
                       (connected (new_Client serverId) t)) s)).

(* ------------------------------------------------------------------ *)
(** ** The callbacks of a caller session *)

(** server.ts, lines 279-284: [transport.onclose]. *)
Definition transport_onclose (t : SSEServerTransport) : M unit :=
  logger_info ("SSE connection closed (session " ++ sessionId t ++ ")") [] ;;
  drop_session t.

(** server.ts, lines 286-289: [transport.onerror]. *)
Definition transport_onerror (t : SSEServerTransport) (err : JSError)
  : M unit :=
  logger_error ("SSE error (session " ++ sessionId t ++ "):") (Some err) ;;
  drop_session t.

(** server.ts, lines 291-304: the two listeners of the request's [close]
    event, run in the order they were registered.  The second one calls
    [transport.close()] and logs its rejection. *)
Definition request_closed (env : Env) (t : SSEServerTransport) : M unit :=
  logger_info ("Client disconnected (session " ++ sessionId t ++ ")") [] ;;
  drop_session t ;;
  drop_session t ;;
  try_catch
    (call (CloseSession t) (SSEServerTransport_close env t))
    (fun error => logger_error "Error closing transport:" (Some error)).

(** The three ways a session ends. *)
Inductive SessionEnd : Type :=
| Closed                      (* the transport reports [onclose] *)
| Failed (err : JSError)      (* the transport reports [onerror] *)
| Disconnected.               (* the caller's request closes *)

Definition session_ends (env : Env) (how : SessionEnd)
    (t : SSEServerTransport) : M unit :=
  match how with
  | Closed => transport_onclose t
  | Failed err => transport_onerror t err
  | Disconnected => request_closed env t
  end.

(* ------------------------------------------------------------------ *)
(** ** logger.ts *)

Inductive Stream : Type := Stdout | Stderr.

(** One call of [console.log] or [console.error]: where it writes and
    what it is given. *)
Inductive LogArg : Type :=
| ArgText (s : string)
| ArgList (items : list string)
| ArgError (e : JSError).

Record ConsoleLine := {
  stream : Stream;
  line_args : list LogArg
}.

Module Logger.
Record t := mk {
  info : list LogArg -> list ConsoleLine;
  error : list LogArg -> list ConsoleLine
}.
End Logger.

(** logger.ts, line 6 *)
Definition log (args : list LogArg) : list ConsoleLine :=
  [ {| stream := Stdout; line_args := ArgText "[mpc-server-proxy]" :: args |} ].

(** logger.ts, lines 7-8 *)
Definition logStderr (args : list LogArg) : list ConsoleLine :=
  [ {| stream := Stderr; line_args := ArgText "[mpc-server-proxy]" :: args |} ].

(** logger.ts, lines 10-13 *)
Definition noneLogger : Logger.t :=
  Logger.mk (fun _ => []) (fun _ => []).

(** logger.ts, lines 15-31 *)
Definition getLogger (logLevel outputTransport : string) : Logger.t :=
  if String.eqb logLevel "none" then noneLogger
  else if String.eqb outputTransport "stdio"
       then Logger.mk logStderr logStderr
       else Logger.mk log logStderr.

(* ------------------------------------------------------------------ *)
(** ** More of the sample deployment *)

Module Scenario.
(** Two caller sessions. *)
Definition session_a : SSEServerTransport :=
  {| endpoint := "/messages"; sessionId := "5f0c-a" |}.
Definition session_b : SSEServerTransport :=
  {| endpoint := "/messages"; sessionId := "77d1-b" |}.

(** Profile [dev] active, both sessions open. *)
Definition serving : State :=
  set_transports [ ("5f0c-a", session_a); ("77d1-b", session_b) ]
                 Sample.dev_state.

(** The sample deployment when every [close] fails. *)
Definition stuck : Env :=
  {| cwd := cwd Sample.env;
     path_join := path_join Sample.env;
     fs_readFile := fs_readFile Sample.env;
     JSON_parse := JSON_parse Sample.env;
     new_URL := new_URL Sample.env;
     Client_connect := Client_connect Sample.env;
     Client_listTools := Client_listTools Sample.env;
     Client_callTool := Client_callTool Sample.env;
     Transport_close := fun _ => Throw (new_Error "kill EPERM");
     SSEServerTransport_close := fun _ => Throw (new_Error "write EPIPE");
     SSEServerTransport_handlePostMessage :=
       SSEServerTransport_handlePostMessage Sample.env;
     Server_connect_stdio := Server_connect_stdio Sample.env;
     app_listen := app_listen Sample.env |}.

(** The sample deployment when [kubernetes] connects but cannot list its
    tools. *)
Definition mute : Env :=
  {| cwd := cwd Sample.env;
     path_join := path_join Sample.env;
     fs_readFile := fs_readFile Sample.env;
     JSON_parse := JSON_parse Sample.env;
     new_URL := new_URL Sample.env;
     Client_connect := Client_connect Sample.env;
     Client_listTools := fun _ => Throw (new_Error "Request timed out");
     Client_callTool := Client_callTool Sample.env;
     Transport_close := Transport_close Sample.env;
     SSEServerTransport_close := SSEServerTransport_close Sample.env;
     SSEServerTransport_handlePostMessage :=
       SSEServerTransport_handlePostMessage Sample.env;
     Server_connect_stdio := Server_connect_stdio Sample.env;
     app_listen := app_listen Sample.env |}.

Definition kubernetes_config : BackendConfig :=
  {| command := Some "npx"; args := Some ["mcp-server-kubernetes"];
     url := None |}.

Definition post (id : string) : HttpRequest :=
  {| query_sessionId := id; body := JObject [] |}.

Definition docker_config : BackendConfig :=
  {| command := Some "docker"; args := Some ["mcp"]; url := None |}.

(** Profile [dev] with the failing backend listed first. *)
Definition docker_first_config : ServerConfig :=
  {| mcpServers :=
       [ ("docker", docker_config); ("kubernetes", kubernetes_config) ] |}.

Definition docker_first : Env :=
  {| cwd := cwd Sample.env;
     path_join := path_join Sample.env;
     fs_readFile := fs_readFile Sample.env;
     JSON_parse := fun data =>
       if String.eqb data "dev" then Normal docker_first_config
       else JSON_parse Sample.env data;
     new_URL := new_URL Sample.env;
     Client_connect := Client_connect Sample.env;
     Client_listTools := Client_listTools Sample.env;
     Client_callTool := Client_callTool Sample.env;
     Transport_close := Transport_close Sample.env;
     SSEServerTransport_close := SSEServerTransport_close Sample.env;
     SSEServerTransport_handlePostMessage :=
       SSEServerTransport_handlePostMessage Sample.env;
     Server_connect_stdio := Server_connect_stdio Sample.env;
     app_listen := app_listen Sample.env |}.

(** The sample deployment when every backend accepts the connection. *)
Definition all_up : Env :=
  {| cwd := cwd Sample.env;
     path_join := path_join Sample.env;
     fs_readFile := fs_readFile Sample.env;
     JSON_parse := JSON_parse Sample.env;
     new_URL := new_URL Sample.env;
     Client_connect := fun _ _ => Normal tt;
     Client_listTools := Client_listTools Sample.env;
     Client_callTool := Client_callTool Sample.env;
     Transport_close := Transport_close Sample.env;
     SSEServerTransport_close := SSEServerTransport_close Sample.env;
     SSEServerTransport_handlePostMessage :=
       SSEServerTransport_handlePostMessage Sample.env;
     Server_connect_stdio := Server_connect_stdio Sample.env;
     app_listen := app_listen Sample.env |}.

(** Profile [dev] active with both of its backends connected. *)
Definition dev_all_up : State :=
  state (switchProfile all_up "dev" initial_state).

(** Two backends whose qualified tool names meet: [kubernetes_get] reports
    [pods]; [kubernetes] reports [get_pods] twice, with two descriptions. *)
Definition pods : Tool.t :=
  Tool.mk "pods" (Some "Pods of the namespace") (JObject []).
Definition get_pods_old : Tool.t :=
  Tool.mk "get_pods" (Some "List pods (deprecated)") (JObject []).
Definition get_pods_new : Tool.t :=
  Tool.mk "get_pods" None (JObject []).

Definition twins_config : ServerConfig :=
  {| mcpServers :=
       [ ("kubernetes_get", kubernetes_config);
         ("kubernetes", kubernetes_config) ] |}.

Definition twins : Env :=
  {| cwd := cwd Sample.env;
     path_join := path_join Sample.env;
     fs_readFile := fs_readFile Sample.env;
     JSON_parse := fun data =>
       if String.eqb data "dev" then Normal twins_config
       else JSON_parse Sample.env data;
     new_URL := new_URL Sample.env;
     Client_connect := fun _ _ => Normal tt;
     Client_listTools := fun c =>
       if String.eqb (Client.name c) "proxy-kubernetes_get"
       then Normal {| tools := [pods] |}
       else Normal {| tools := [get_pods_old; get_pods_new] |};
     Client_callTool := Client_callTool Sample.env;
     Transport_close := Transport_close Sample.env;
     SSEServerTransport_close := SSEServerTransport_close Sample.env;
     SSEServerTransport_handlePostMessage :=
       SSEServerTransport_handlePostMessage Sample.env;
     Server_connect_stdio := Server_connect_stdio Sample.env;
     app_listen := app_listen Sample.env |}.

(** The proxy of [twins] once [kubernetes_get] is connected. *)
Definition one_twin : State :=
  state (connectToServer twins "kubernetes_get" kubernetes_config
                         initial_state).
End Scenario.

(** The calls of one attempt to connect a backend on a proxy that has no
    client yet, with the log line of its failure. *)
Definition attempt_calls (env : Env) (failed : string -> string)
    (id : string) (cfg : BackendConfig) : list Event :=
  events
    (try_catch (connectToServer env id cfg)
               (fun error => logger_error (failed id) (Some error))
               initial_state).

(** A call that reaches no backend, no session and no caller-facing
    transport: a file read or a log line. *)
Definition touches_no_backend (ev : Event) : Prop :=
  match ev with
  | LogInfo _ _ | LogError _ _ | ReadFile _ => True
  | _ => False
  end.

(** Every client of the map was built for a backend of [c] and connected. *)
Definition clients_from (env : Env) (c : ServerConfig) (s : State) : Prop :=
  forall id client,
    JSMap.get (clients s) id = Some client ->
    exists cfg t,
      In (id, cfg) (mcpServers c) /\
      make_transport env cfg = Normal t /\
      Client_connect env (new_Client id) t = Normal tt /\
      client = connected (new_Client id) t.

(** What the teardown records for one session and for one client: the
    call of [close], and the log line when it fails. *)
Definition session_close_calls (env : Env) (t : SSEServerTransport)
  : list Event :=
  CloseSession t ::
  match SSEServerTransport_close env t with
  | Normal _ => []
  | Throw e => [LogError "Error closing transport:" (Some e)]
  end.

Definition client_close_calls (env : Env) (c : Client.t) : list Event :=
  match Client.transport c with
  | None => []
  | Some t =>
      CloseClientTransport c ::
      match Transport_close env t with
      | Normal _ => []
      | Throw e => [LogError "Error disconnecting client:" (Some e)]
      end
  end.

(** A client after the teardown: without its transport when it had none
    or its close succeeded, as it was when its close failed. *)
Definition after_close (env : Env) (c : Client.t) : Client.t :=
  match Client.transport c with
  | None => c
  | Some t =>
      match Transport_close env t with
      | Normal _ => disconnected c
      | Throw _ => c
      end
  end.

(** What the teardown keeps of a state. *)
Definition kept_by_cleanup (s s' : State) : Prop :=
  transports s' = [] /\
  toolMap s' = toolMap s /\
  config s' = config s /\
  currentProfile s' = currentProfile s /\
  JSMap.keys (clients s') = JSMap.keys (clients s).

(** The call that sets up the caller-facing transport. *)
Definition serve_call (mode : string) (port : JSNumber) (host : string)
  : Event :=
  if String.eqb mode "stdio" then ServeStdio else Listen port host.

(** How setting it up ends. *)
Definition serve_answer (env : Env) (mode : string) (port : JSNumber)
    (host : string) : Completion unit :=
  if String.eqb mode "stdio" then Server_connect_stdio env
  else app_listen env port host.

(** The client the proxy keeps for a backend it connects for the first
    time: none when the transport cannot be built or the connection is
    refused. *)
Definition client_for (env : Env) (serverId : string)
    (config : BackendConfig) : option Client.t :=
  match make_transport env config with
  | Throw _ => None
  | Normal transport =>
      match Client_connect env (new_Client serverId) transport with
      | Throw _ => None
      | Normal _ => Some (connected (new_Client serverId) transport)
      end
  end.

(** The tools a backend reports when it is connected for the first time:
    none when its transport cannot be built, when the connection is
    refused or when the listing fails. *)
Definition reported_by (env : Env) (serverId : string)
    (config : BackendConfig) : option (list Tool.t) :=
  match make_transport env config with
  | Throw _ => None
  | Normal transport =>
      match Client_connect env (new_Client serverId) transport with
      | Throw _ => None
      | Normal _ =>
          match
            Client_listTools env (connected (new_Client serverId) transport)
          with
          | Throw _ => None
          | Normal listing => Some (tools listing)
          end
      end
  end.

(* ------------------------------------------------------------------ *)
(** ** Strings *)

Lemma prefix_app (p q : string) : String.prefix p (p ++ q) = true.
Proof.
  induction p as [| a p IH]; simpl.
  - destruct q; reflexivity.
  - destruct (Ascii.ascii_dec a a) as [_ | ne]; [exact IH | now elim ne].
Qed.

Lemma includes_prefix (s sub : string) :
  String.prefix sub s = true -> includes s sub = true.
Proof.
  intro H. destruct s.
  - destruct sub; [reflexivity | discriminate].
  - cbn [includes]. rewrite H. reflexivity.
Qed.

Lemma includes_here (sub post : string) : includes (sub ++ post) sub = true.
Proof. apply includes_prefix, prefix_app. Qed.

Lemma includes_skip (pre s sub : string) :
  includes s sub = true -> includes (pre ++ s) sub = true.
Proof.
  intro H. induction pre as [| a pre IH]; [exact H |].
  change (includes (String a (pre ++ s)) sub = true).
  cbn [includes].
  destruct (String.prefix sub (String a (pre ++ s))); [reflexivity | exact IH].
Qed.

Lemma includes_self (s : string) : includes s s = true.
Proof.
  apply includes_prefix. induction s as [| a s IH]; [reflexivity |].
  simpl. destruct (Ascii.ascii_dec a a) as [_ | ne]; [exact IH | now elim ne].
Qed.

(** Find [sub] among the pieces of a concatenation. *)
Ltac find_included :=
  repeat first [ apply includes_here | apply includes_self
               | apply includes_skip ].

(* ------------------------------------------------------------------ *)
(** ** [Map] *)

Module JSMapFacts.
Section Facts.
Variable V : Type.
Implicit Types (m : JSMap.t V) (k : string) (v : V).

Lemma get_set m k v k' :
  JSMap.get (JSMap.set m k v) k'
  = if String.eqb k k' then Some v else JSMap.get m k'.
Proof.
  induction m as [| [k0 v0] m IH]; simpl.
  - reflexivity.
  - destruct (String.eqb k0 k) eqn:E0; simpl.
    + apply String.eqb_eq in E0. subst k0.
      destruct (String.eqb k k'); reflexivity.
    + destruct (String.eqb k0 k') eqn:E1.
      * apply String.eqb_eq in E1. subst k0.
        rewrite String.eqb_sym, E0. reflexivity.
      * exact IH.
Qed.

Lemma has_set m k v k' :
  JSMap.has (JSMap.set m k v) k'
  = (String.eqb k k' || JSMap.has m k').
Proof.
  unfold JSMap.has. rewrite get_set.
  destruct (String.eqb k k'); reflexivity.
Qed.

Lemma get_In m k v : JSMap.get m k = Some v -> In (k, v) m.
Proof.
  induction m as [| [k0 v0] m IH]; simpl; [discriminate |].
  destruct (String.eqb k0 k) eqn:E.
  - apply String.eqb_eq in E. intros [= ->]. left. now subst.
  - intro H. right. exact (IH H).
Qed.

Lemma has_In m k : JSMap.has m k = true <-> In k (JSMap.keys m).
Proof.
  unfold JSMap.has. induction m as [| [k0 v0] m IH]; simpl.
  - split; [discriminate | contradiction].
  - destruct (String.eqb k0 k) eqn:E.
    + apply String.eqb_eq in E. split; [now left | reflexivity].
    + rewrite IH. split; [now right |].
      intros [-> | H]; [| exact H].
      rewrite String.eqb_refl in E. discriminate.
Qed.

Lemma keys_set_In m k v k' :
  In k' (JSMap.keys (JSMap.set m k v)) -> k' = k \/ In k' (JSMap.keys m).
Proof.
  induction m as [| [k0 v0] m IH]; simpl.
  - intros [<- | []]. now left.
  - destruct (String.eqb k0 k) eqn:E; simpl.
    + tauto.
    + intros [<- | Hin]; [tauto |]. destruct (IH Hin); tauto.
Qed.

Lemma NoDup_set m k v :
  NoDup (JSMap.keys m) -> NoDup (JSMap.keys (JSMap.set m k v)).
Proof.
  induction m as [| [k0 v0] m IH]; simpl; intro H.
  - constructor; [tauto | constructor].
  - inversion H as [| ? ? Hnot Hrest]; subst.
    destruct (String.eqb k0 k) eqn:E; simpl.
    + constructor; assumption.
    + constructor; [| exact (IH Hrest)].
      intro Hin. apply keys_set_In in Hin. destruct Hin as [-> | Hin].
      * rewrite String.eqb_refl in E. discriminate.
      * exact (Hnot Hin).
Qed.

(** With distinct keys, the entry at any position is the one [get]
    finds under its key. *)
Lemma nth_error_get m i k v :
  NoDup (JSMap.keys m) -> nth_error m i = Some (k, v) ->
  JSMap.get m k = Some v.
Proof.
  revert i. induction m as [| [k0 v0] m IH]; intros i Hnd Hnth.
  - destruct i; discriminate.
  - simpl in Hnd. inversion Hnd as [| ? ? Hnot Hrest]; subst.
    destruct i as [| i]; simpl in *.
    + injection Hnth as -> ->. now rewrite String.eqb_refl.
    + destruct (String.eqb k0 k) eqn:E.
      * apply String.eqb_eq in E. subst k0. exfalso. apply Hnot.
        apply nth_error_In in Hnth.
        change k with (fst (k, v)). now apply in_map.
      * exact (IH i Hrest Hnth).
Qed.

Lemma all_None_empty m : (forall k, JSMap.get m k = None) -> m = [].
Proof.
  destruct m as [| [k v] m]; [reflexivity |].
  intro H. specialize (H k). simpl in H.
  rewrite String.eqb_refl in H. discriminate.
Qed.
End Facts.
End JSMapFacts.

(* ------------------------------------------------------------------ *)
(** ** Runs of computations *)

Section Runs.
Context {A B : Type}.
Implicit Types (m : M A) (f : A -> M B) (s : State).

Lemma returns_bind m f s a s1 b s2 :
  returns m s a s1 -> returns (f a) s1 b s2 -> returns (bind m f) s b s2.
Proof.
  intros [Hr Hs] [Hr' Hs']. unfold returns, bind.
  rewrite Hr, Hs. simpl. split; assumption.
Qed.

Lemma throws_bind_left m f s e s1 :
  throws m s e s1 -> throws (bind m f) s e s1.
Proof.
  intros [Hr Hs]. unfold throws, bind. rewrite Hr. simpl. now split.
Qed.

Lemma throws_bind_right m f s a s1 e s2 :
  returns m s a s1 -> throws (f a) s1 e s2 -> throws (bind m f) s e s2.
Proof.
  intros [Hr Hs] [Hr' Hs']. unfold throws, bind.
  rewrite Hr, Hs. simpl. split; assumption.
Qed.

Lemma bind_after m f s a s1 :
  returns m s a s1 ->
  result (bind m f s) = result (f a s1) /\
  state (bind m f s) = state (f a s1).
Proof.
  intros [Hr Hs]. unfold bind. rewrite Hr, Hs. simpl. now split.
Qed.

Lemma events_bind m f s a :
  result (m s) = Normal a ->
  events (bind m f s) = (events (m s) ++ events (f a (state (m s))))%list.
Proof. intro Hr. unfold bind. rewrite Hr. reflexivity. Qed.

Lemma events_bind_throw m f s e :
  result (m s) = Throw e -> events (bind m f s) = events (m s).
Proof. intro Hr. unfold bind. rewrite Hr. reflexivity. Qed.
End Runs.

(** Run the first statement of a sequence, given how it ends. *)
Ltac bind_with H :=
  match goal with
  | |- context [bind ?m ?f ?s] =>
      destruct (bind_after (m := m) f (s := s) H) as [-> ->]; cbv beta
  end.

(** A loop whose turns neither throw nor break [I] keeps [I]. *)
Lemma for_of_invariant {A} (I : State -> Prop) (xs : list A) body :
  (forall x s, In x xs -> I s ->
     result (body x s) = Normal tt /\ I (state (body x s))) ->
  forall s, I s ->
    result (for_of xs body s) = Normal tt /\ I (state (for_of xs body s)).
Proof.
  induction xs as [| x xs IH]; intros Hbody s Hs.
  - now split.
  - destruct (Hbody x s (or_introl eq_refl) Hs) as [Hr Hi].
    assert (Hrest : forall y s0, In y xs -> I s0 ->
              result (body y s0) = Normal tt /\ I (state (body y s0))).
    { intros y s0 Hy. apply Hbody. now right. }
    destruct (IH Hrest _ Hi) as [Hr' Hi'].
    simpl. unfold bind. rewrite Hr. simpl. now split.
Qed.

(** A loop whose turns neither throw nor change the state. *)
Lemma for_of_frame {A} (xs : list A) body s :
  (forall x, In x xs -> returns (body x) s tt s) ->
  returns (for_of xs body) s tt s.
Proof.
  intro Hbody.
  destruct (for_of_invariant (fun s0 => s0 = s) xs body) with (s := s)
    as [Hr Hs]; [| reflexivity | now split].
  intros x s0 Hx ->. destruct (Hbody x Hx) as [Hr Hs]. now split.
Qed.

(** What such a loop records: the calls of every turn. *)
Lemma for_of_events {A} (xs : list A) body s x ev :
  (forall y, In y xs -> returns (body y) s tt s) ->
  In x xs -> In ev (events (body x s)) ->
  In ev (events (for_of xs body s)).
Proof.
  induction xs as [| y xs IH]; intros Hbody Hx Hev; [contradiction |].
  destruct (Hbody y (or_introl eq_refl)) as [Hr Hs].
  simpl. rewrite (events_bind _ _ _ Hr). apply in_or_app.
  destruct Hx as [-> | Hx].
  - now left.
  - right. rewrite Hs. apply IH; [| assumption | assumption].
    intros z Hz. apply Hbody. now right.
Qed.

(* ------------------------------------------------------------------ *)
(** ** The methods, step by step *)

Lemma events_bind_modify {B} g (f : unit -> M B) s :
  events (bind (modify g) f s) = events (f tt (g s)).
Proof. reflexivity. Qed.

Lemma events_bind_gets {A B} (g : State -> A) (f : A -> M B) s :
  events (bind (gets g) f s) = events (f (g s) s).
Proof. reflexivity. Qed.

Section MethodFacts.
Variable env : Env.

Lemma returns_gets {A} (f : State -> A) s : returns (gets f) s (f s) s.
Proof. now split. Qed.

Lemma returns_modify f s : returns (modify f) s tt (f s).
Proof. now split. Qed.

(** One guarded close: whatever the transport answers, the loop of
    [cleanup] goes on. *)
Lemma guarded_close_returns (ev : Event) (answer : Completion unit) msg s :
  returns
    (try_catch (call ev answer)
               (fun error => logger_error msg (Some error))) s tt s.
Proof.
  unfold returns, try_catch, call. simpl.
  destruct answer as [[] | e]; simpl; now split.
Qed.

(** The outcome of one turn of the loop over the clients. *)
Lemma close_client_out id c s :
  close_client env id c s
  = {| result := Normal tt;
       state :=
         match Client.transport c with
         | None => s
         | Some t =>
             match Transport_close env t with
             | Normal _ =>
                 set_clients (JSMap.set (clients s) id (disconnected c)) s
             | Throw _ => s
             end
         end;
       events := client_close_calls env c |}.
Proof.
  unfold close_client, client_close_calls, try_catch, bind, call, modify,
    ret, logger_error, emit.
  destruct (Client.transport c) as [t |]; simpl; [| reflexivity].
  destruct (Transport_close env t) as [[] | e]; reflexivity.
Qed.

Lemma session_close_out t s :
  try_catch
    (call (CloseSession t) (SSEServerTransport_close env t))
    (fun error => logger_error "Error closing transport:" (Some error)) s
  = {| result := Normal tt; state := s;
       events := session_close_calls env t |}.
Proof.
  unfold session_close_calls, try_catch, call, logger_error, emit. simpl.
  destruct (SSEServerTransport_close env t) as [[] | e]; reflexivity.
Qed.

(** The calls of a loop whose turns never throw and make the same calls
    in every state. *)
Lemma for_of_calls {A} (xs : list A) body (calls : A -> list Event) :
  (forall x s, result (body x s) = Normal tt /\ events (body x s) = calls x) ->
  forall s, events (for_of xs body s) = flat_map calls xs.
Proof.
  intro Hbody. induction xs as [| x xs IH]; intro s; [reflexivity |].
  destruct (Hbody x s) as [Hr He].
  cbn [for_of flat_map]. rewrite (events_bind _ _ _ Hr), He. f_equal.
  apply IH.
Qed.

Lemma keys_set_present {V} (m : JSMap.t V) k v :
  In k (JSMap.keys m) -> JSMap.keys (JSMap.set m k v) = JSMap.keys m.
Proof.
  induction m as [| [k0 v0] m IH]; simpl; [contradiction |].
  destruct (String.eqb k0 k) eqn:E; [reflexivity |].
  intros [-> | Hin].
  - rewrite String.eqb_refl in E. discriminate.
  - simpl. now rewrite IH.
Qed.

(** The loop over the clients never throws and changes nothing but the
    clients themselves. *)
Lemma close_clients_kept l s0 :
  incl (map fst l) (JSMap.keys (clients s0)) ->
  let o := for_of l (fun '(id, c) => close_client env id c) s0 in
  result o = Normal tt /\
  transports (state o) = transports s0 /\
  toolMap (state o) = toolMap s0 /\
  config (state o) = config s0 /\
  currentProfile (state o) = currentProfile s0 /\
  JSMap.keys (clients (state o)) = JSMap.keys (clients s0).
Proof.
  intros Hincl o. subst o.
  apply (for_of_invariant
           (fun s1 => transports s1 = transports s0 /\
                      toolMap s1 = toolMap s0 /\
                      config s1 = config s0 /\
                      currentProfile s1 = currentProfile s0 /\
                      JSMap.keys (clients s1) = JSMap.keys (clients s0)));
    [| now repeat split].
  intros [id c] s1 Hin (Ht & Hm & Hc & Hp & Hk).
  rewrite close_client_out. cbn [result state].
  split; [reflexivity |].
  destruct (Client.transport c) as [t |]; [| now repeat split].
  destruct (Transport_close env t); [| now repeat split].
  cbn [transports toolMap config currentProfile clients set_clients].
  repeat split; try assumption.
  rewrite keys_set_present; [exact Hk |].
  rewrite Hk. apply Hincl. change id with (fst (id, c)). now apply in_map.
Qed.

(** [cleanup] never throws; it empties the session map and keeps the
    registry, the configuration, the profile and the ids of the client
    set. *)
Lemma cleanup_spec s :
  result (cleanup env s) = Normal tt /\
  kept_by_cleanup s (state (cleanup env s)).
Proof.
  unfold cleanup.
  match goal with
  | |- context [bind (gets ?g) ?f s] =>
      destruct (bind_after f (returns_gets g s)) as [-> ->]; cbv beta
  end.
  match goal with
  | |- context [bind (for_of ?xs ?body) ?f s] =>
      assert (Hloop : returns (for_of xs body) s tt s)
        by (apply for_of_frame; intros t _; apply guarded_close_returns);
        destruct (bind_after f Hloop) as [-> ->]; cbv beta
  end.
  match goal with
  | |- context [bind (modify ?g) ?f s] =>
      destruct (bind_after f (returns_modify g s)) as [-> ->]; cbv beta
  end.
  match goal with
  | |- context [bind (gets ?g) ?f ?s1] =>
      destruct (bind_after f (returns_gets g s1)) as [-> ->]; cbv beta
  end.
  match goal with
  | |- context [for_of (clients ?s1) _ ?s1] =>
      destruct (close_clients_kept (clients s1) s1 (incl_refl _))
        as (Hr & Ht & Hm & Hc & Hp & Hk)
  end.
  split; [exact Hr |]. unfold kept_by_cleanup.
  rewrite Ht, Hm, Hc, Hp, Hk. now repeat split.
Qed.

Lemma cleanup_returns s :
  returns (cleanup env) s tt (state (cleanup env s)).
Proof. split; [apply cleanup_spec | reflexivity]. Qed.

(** What [cleanup] records: the closes of the sessions, then those of
    the clients, each with the log line of its failure. *)
Lemma cleanup_calls s :
  events (cleanup env s)
  = (flat_map (session_close_calls env) (JSObject.values (transports s))
     ++ flat_map (fun '(id, c) => client_close_calls env c) (clients s))%list.
Proof.
  unfold cleanup.
  rewrite events_bind_gets.
  match goal with
  | |- events (bind (for_of ?xs ?body) ?f s) = _ =>
      assert (Hloop : returns (for_of xs body) s tt s)
        by (apply for_of_frame; intros t _; apply guarded_close_returns);
        rewrite (events_bind _ f s (proj1 Hloop)), (proj2 Hloop);
        rewrite (for_of_calls xs body (session_close_calls env))
          by (intros t s1; rewrite session_close_out; now split)
  end.
  f_equal. rewrite events_bind_modify, events_bind_gets.
  apply (for_of_calls (clients s)
           (fun '(id, c) => close_client env id c)
           (fun '(id, c) => client_close_calls env c)).
  intros [id c] s1. rewrite close_client_out. now split.
Qed.

(** [cleanup] calls [close] on the transport of every client of the map,
    whether or not an earlier close failed. *)
Lemma cleanup_closes s id c :
  JSMap.get (clients s) id = Some c ->
  Client.transport c <> None ->
  In (CloseClientTransport c) (events (cleanup env s)).
Proof.
  intros Hget Htr. rewrite cleanup_calls. apply in_or_app. right.
  apply in_flat_map. exists (id, c).
  split; [now apply JSMapFacts.get_In |].
  unfold client_close_calls.
  destruct (Client.transport c) as [t |]; [now left | congruence].
Qed.

(** [cleanup] calls [close] on every registered session. *)
Lemma cleanup_closes_session s t :
  In t (JSObject.values (transports s)) ->
  In (CloseSession t) (events (cleanup env s)).
Proof.
  intro Hin. rewrite cleanup_calls. apply in_or_app. left.
  apply in_flat_map. exists t. split; [exact Hin | now left].
Qed.

(** [readConfig] when the file loads. *)
Lemma readConfig_returns profile c s :
  config_on_disk env profile = Normal c ->
  returns (readConfig env profile) s tt (set_config c s).
Proof.
  unfold config_on_disk, readConfig, returns, try_catch, bind, call, lift.
  simpl. intro H.
  destruct (fs_readFile env _) as [data |]; [| discriminate]. simpl.
  rewrite H. simpl. now split.
Qed.

(** [readConfig] when reading or parsing fails: the state is untouched
    and the error names the profile. *)
Lemma readConfig_throws profile e s :
  config_on_disk env profile = Throw e ->
  throws (readConfig env profile) s
         (new_Error ("Failed to load profile " ++ profile)) s.
Proof.
  unfold config_on_disk, readConfig, throws, try_catch, bind, call, lift.
  simpl. intro H.
  destruct (fs_readFile env _) as [data |]; simpl.
  - rewrite H. simpl. now split.
  - now split.
Qed.

(** The loop over the reported tools. *)
Lemma register_tools_returns serverId reported s :
  returns (for_of reported (register_tool serverId)) s tt
          (set_toolMap (register_all serverId reported (toolMap s)) s).
Proof.
  revert s. induction reported as [| t ts IH]; intro s.
  - destruct s. now split.
  - simpl. eapply returns_bind; [apply returns_modify |].
    specialize (IH (set_toolMap
      (JSMap.set (toolMap s) (serverId ++ "_" ++ Tool.name t)
                 {| serverId := serverId; tool := t |}) s)).
    exact IH.
Qed.

Lemma connectToServer_exits serverId config s :
  connect_exit env serverId config s
    (result (connectToServer env serverId config s))
    (state (connectToServer env serverId config s)).
Proof.
  unfold connectToServer, bind at 1. simpl.
  destruct (JSMap.has (clients s) serverId) eqn:Hhas.
  - now apply exit_present.
  - unfold bind at 1, lift. simpl.
    destruct (make_transport env config) as [t | e] eqn:Ht; simpl.
    2:{ now apply exit_no_transport. }
    unfold bind at 1, call. simpl.
    destruct (Client_connect env (new_Client serverId) t) as [[] | e] eqn:Hc;
      simpl.
    2:{ now apply exit_connect_failed with t. }
    unfold bind at 1. simpl. unfold bind at 1. simpl.
    destruct (Client_listTools env (connected (new_Client serverId) t))
      as [[reported] | e] eqn:Hl; simpl.
    2:{ now apply exit_listTools_failed. }

    destruct (register_tools_returns serverId reported
                (set_clients
                   (JSMap.set (clients s) serverId
                              (connected (new_Client serverId) t)) s))
      as [Hr Hs].
    rewrite Hr, Hs. simpl.
    now apply exit_connected.
Qed.
End MethodFacts.

(* ------------------------------------------------------------------ *)
(** ** The registry while backends are connected *)

Section RegistryFacts.
Variable env : Env.

Lemma register_all_get id reported m k info :
  JSMap.get (register_all id reported m) k = Some info ->
  JSMap.get m k = Some info \/
  (id = serverId info /\ In (tool info) reported /\
   k = id ++ "_" ++ Tool.name (tool info)).
Proof.
  unfold register_all. revert m.
  induction reported as [| t ts IH]; intros m H; cbn [fold_left] in H.
  - now left.
  - apply IH in H. destruct H as [H | (Hid & Hin & Hk)].
    + rewrite JSMapFacts.get_set in H.
      destruct (String.eqb (id ++ "_" ++ Tool.name t) k) eqn:E.
      * apply String.eqb_eq in E. injection H as <-. right. simpl.
        repeat split; [now left | now symmetry].
      * now left.
    + right. repeat split; [assumption | now right | assumption].
Qed.

Lemma register_all_NoDup serverId reported m :
  NoDup (JSMap.keys m) ->
  NoDup (JSMap.keys (register_all serverId reported m)).
Proof.
  unfold register_all. revert m.
  induction reported as [| t ts IH]; intros m H; simpl; [assumption |].
  apply IH, JSMapFacts.NoDup_set, H.
Qed.

Lemma has_set_mono (m : JSMap.t Client.t) k v k' :
  JSMap.has m k' = true -> JSMap.has (JSMap.set m k v) k' = true.
Proof. intro H. rewrite JSMapFacts.has_set, H. apply orb_true_r. Qed.

Lemma has_set_same (m : JSMap.t Client.t) k v :
  JSMap.has (JSMap.set m k v) k = true.
Proof. rewrite JSMapFacts.has_set, String.eqb_refl. reflexivity. Qed.

(** Every exit of [connectToServer] keeps the registry well formed. *)
Lemma connect_exit_registry_ok serverId config s r s' :
  connect_exit env serverId config s r s' ->
  registry_ok s -> registry_ok s'.
Proof.
  intros Hexit [Hnd Hreg].
  destruct Hexit as [| | | t e _ _ _ _ | t reported _ _ _ _];
    try (split; assumption).
  - split; [exact Hnd |]. simpl. intros k info Hget.
    destruct (Hreg k info Hget) as [Hk Hhas].
    split; [exact Hk | now apply has_set_mono].
  - split; simpl.
    + now apply register_all_NoDup.
    + intros k info Hget. apply register_all_get in Hget.
      destruct Hget as [Hget | (Hid & _ & Hk)].
      * destruct (Hreg k info Hget) as [Hk Hhas].
        split; [exact Hk | now apply has_set_mono].
      * split; [now rewrite <- Hid | rewrite <- Hid; apply has_set_same].
Qed.

(** Every client [connectToServer] stores has its transport. *)
Lemma connect_exit_clients_connected serverId config s r s' :
  connect_exit env serverId config s r s' ->
  clients_connected s -> clients_connected s'.
Proof.
  intros Hexit Hcl.
  assert (Hset : forall t,
    clients_connected
      (set_clients
         (JSMap.set (clients s) serverId
                    (connected (new_Client serverId) t)) s)).
  { intros t id c. simpl. rewrite JSMapFacts.get_set.
    destruct (String.eqb serverId id).
    - intros [= <-]. discriminate.
    - apply Hcl. }
  destruct Hexit; try assumption.
  - apply Hset.
  - intros id c. simpl. apply (Hset t id c).
Qed.

(** One turn of the loop over the backends: the failure of a backend is
    logged and the loop goes on. *)
Lemma guarded_connect msg serverId config s :
  result
    (try_catch (connectToServer env serverId config)
               (fun error => logger_error msg (Some error)) s)
  = Normal tt /\
  state
    (try_catch (connectToServer env serverId config)
               (fun error => logger_error msg (Some error)) s)
  = state (connectToServer env serverId config s).
Proof.
  unfold try_catch.
  destruct (result (connectToServer env serverId config s)) as [[] | e] eqn:E.
  - now split.
  - now split.
Qed.

(** The loop over the backends never throws, and keeps whatever every
    exit of [connectToServer] keeps. *)
Lemma connect_all_invariant (I : State -> Prop) failed s0 :
  (forall id cfg s r s',
     In (id, cfg) (mcpServers (config s0)) ->
     I s -> connect_exit env id cfg s r s' -> I s') ->
  I s0 ->
  result (connect_all env failed s0) = Normal tt /\
  I (state (connect_all env failed s0)).
Proof.
  intros Hstep H0. unfold connect_all.
  match goal with
  | |- context [bind (gets ?g) ?f s0] =>
      destruct (bind_after f (returns_gets g s0)) as [-> ->]
  end.
  cbv beta.
  destruct (for_of_invariant I (mcpServers (config s0))
              (fun '(serverId, config) =>
                 try_catch (connectToServer env serverId config)
                   (fun error => logger_error (failed serverId) (Some error))))
    with (s := s0) as [Hr Hi]; [| exact H0 |].
  - intros [serverId config] s Hin Hs.
    destruct (guarded_connect (failed serverId) serverId config s)
      as [Hr Hst].
    split; [exact Hr |]. rewrite Hst.
    eapply Hstep; [exact Hin | exact Hs | apply connectToServer_exits].
  - now split.
Qed.

Lemma connect_all_returns failed s :
  result (connect_all env failed s) = Normal tt.
Proof.
  now destruct (connect_all_invariant (fun _ => True) failed s).
Qed.

Lemma connect_all_registry_ok failed s :
  registry_ok s -> registry_ok (state (connect_all env failed s)).
Proof.
  intro H. apply (connect_all_invariant registry_ok failed s); [| exact H].
  intros serverId config s1 r s' _ H1 Hexit.
  exact (connect_exit_registry_ok Hexit H1).
Qed.

Lemma connect_all_clients_connected failed s :
  clients_connected s ->
  clients_connected (state (connect_all env failed s)).
Proof.
  intro H.
  apply (connect_all_invariant clients_connected failed s); [| exact H].
  intros serverId config s1 r s' _ H1 Hexit.
  exact (connect_exit_clients_connected Hexit H1).
Qed.
End RegistryFacts.

(* ------------------------------------------------------------------ *)
(** ** Switching profiles, starting, serving *)

Section ProfileFacts.
Variable env : Env.

(** After the teardown and the two clears nothing of the clients is
    left. *)
Lemma wiped s s1 :
  kept_by_cleanup s s1 ->
  set_toolMap
    (JSMap.clear (toolMap (set_clients (JSMap.clear (clients s1)) s1)))
    (set_clients (JSMap.clear (clients s1)) s1)
  = torn_down s.
Proof.
  intros (Ht & _ & Hc & Hp & _).
  unfold torn_down, set_toolMap, set_clients, JSMap.clear. simpl.
  now rewrite Ht, Hc, Hp.
Qed.

(** When the profile loads, [switchProfile] ends as the loop over its
    backends does, started from a proxy without backends or sessions. *)
Lemma switchProfile_loaded p c s :
  config_on_disk env p = Normal c ->
  result (switchProfile env p s)
  = result (connect_all env (switch_failed_message p) (fresh_profile c p))
  /\
  state (switchProfile env p s)
  = state (connect_all env (switch_failed_message p) (fresh_profile c p)).
Proof.
  intro Hload. unfold switchProfile.
  bind_with (cleanup_returns env s).
  match goal with
  | |- context [bind (modify ?g) ?f ?s1] =>
      destruct (bind_after f (returns_modify g s1)) as [-> ->]; cbv beta
  end.
  match goal with
  | |- context [bind (modify ?g) ?f ?s1] =>
      destruct (bind_after f (returns_modify g s1)) as [-> ->]; cbv beta
  end.
  rewrite (wiped (proj2 (cleanup_spec env s))).
  match goal with
  | |- context [bind (readConfig env p) ?f ?s1] =>
      destruct (bind_after f (readConfig_returns env p s1 Hload))
        as [-> ->]; cbv beta
  end.
  match goal with
  | |- context [bind (modify ?g) ?f ?s1] =>
      destruct (bind_after f (returns_modify g s1)) as [-> ->]; cbv beta
  end.
  now split.
Qed.

(** When the profile does not load, [switchProfile] throws after the
    teardown. *)
Lemma switchProfile_failed p e s :
  config_on_disk env p = Throw e ->
  throws (switchProfile env p) s
         (new_Error ("Failed to load profile " ++ p)) (torn_down s).
Proof.
  intro Hload. unfold switchProfile.
  eapply throws_bind_right; [apply cleanup_returns |].
  eapply throws_bind_right; [apply returns_modify |].
  eapply throws_bind_right; [apply returns_modify |].
  apply throws_bind_left. cbv beta.
  rewrite (wiped (proj2 (cleanup_spec env s))).
  exact (readConfig_throws env p (torn_down s) Hload).
Qed.

Lemma handleCallTool_state req s : state (handleCallTool env req s) = s.
Proof.
  unfold handleCallTool, bind at 1. simpl.
  destruct (JSMap.get (toolMap s) (params_name (params req)))
    as [info |] eqn:Hinfo; [| reflexivity].
  destruct (JSMap.get (clients s) (serverId info)) as [client |];
    [| reflexivity].
  unfold try_catch, bind, call, ret. simpl.
  destruct (Client_callTool env client _ _); reflexivity.
Qed.

Lemma post_messages_state req s : state (post_messages env req s) = s.
Proof.
  unfold post_messages, bind at 1. simpl.
  destruct (JSObject.get (transports s) (query_sessionId req)) as [t | k |];
    simpl; try reflexivity.
  unfold try_catch, call. simpl.
  destruct (SSEServerTransport_handlePostMessage env t req); reflexivity.
Qed.

(** Setting up the caller-facing transport changes nothing of the state;
    it ends as [server.connect] or [listen] does. *)
Lemma serve_out mode port host s :
  state (serve env mode port host s) = s /\
  result (serve env mode port host s)
  = (if String.eqb mode "stdio" then Server_connect_stdio env
     else app_listen env port host).
Proof.
  unfold serve. destruct (String.eqb mode "stdio").
  - unfold bind, call, gets, logger_info, emit. simpl.
    destruct (Server_connect_stdio env) as [[] | e]; now split.
  - now split.
Qed.

Lemma bind_serve_state (m : M unit) mode port host s :
  state (bind m (fun _ => serve env mode port host) s) = state (m s).
Proof.
  unfold bind. destruct (result (m s)); [| reflexivity].
  cbn [state]. apply serve_out.
Qed.

Lemma start_state p mode port host s :
  state (start env p mode port host s) = s \/
  exists c,
    state (start env p mode port host s)
    = state (connect_all env start_failed_message
               (set_currentProfile p (set_config c s))).
Proof.
  unfold start.
  destruct (config_on_disk env p) as [c | e] eqn:Hload.
  - right. exists c.
    match goal with
    | |- context [bind (readConfig env p) ?f s] =>
        destruct (bind_after f (readConfig_returns env p s Hload))
          as [_ ->]; cbv beta
    end.
    match goal with
    | |- context [bind (modify ?g) ?f ?s1] =>
        destruct (bind_after f (returns_modify g s1)) as [_ ->]; cbv beta
    end.
    apply bind_serve_state.
  - left.
    exact (proj2 (throws_bind_left _ (readConfig_throws env p s Hload))).
Qed.
End ProfileFacts.

Lemma registry_ok_frame s s' :
  toolMap s' = toolMap s -> clients s' = clients s ->
  registry_ok s -> registry_ok s'.
Proof. unfold registry_ok. intros -> ->. exact (fun H => H). Qed.

Lemma registry_ok_keys s s' :
  toolMap s' = toolMap s ->
  JSMap.keys (clients s') = JSMap.keys (clients s) ->
  registry_ok s -> registry_ok s'.
Proof.
  unfold registry_ok. intros -> Hk [Hnd Hreg]. split; [exact Hnd |].
  intros k info Hget. destruct (Hreg k info Hget) as [Hkey Hhas].
  split; [exact Hkey |].
  apply JSMapFacts.has_In. rewrite Hk. now apply JSMapFacts.has_In.
Qed.

Lemma registry_ok_empty s : toolMap s = [] -> registry_ok s.
Proof.
  unfold registry_ok. intros ->. split; [constructor | discriminate].
Qed.

(** Every reachable state has a well-formed registry. *)
Lemma reachable_registry_ok s : reachable s -> registry_ok s.
Proof.
  induction 1 as [| env p mode port host s _ IH | env p s _ IH | env s _ IH
                  | s _ IH | env req s _ IH | t s _ IH _ | t s _ IH
                  | env req s _ IH | id s _ IH].
  - now apply registry_ok_empty.
  - destruct (start_state env p mode port host s) as [-> | [c ->]];
      [exact IH |].
    apply connect_all_registry_ok.
    now apply (registry_ok_frame (s := s)).
  - destruct (config_on_disk env p) as [c | e] eqn:Hload.
    + rewrite (proj2 (switchProfile_loaded env p s Hload)).
      apply connect_all_registry_ok. now apply registry_ok_empty.
    + rewrite (proj2 (switchProfile_failed env p s Hload)).
      now apply registry_ok_empty.
  - destruct (cleanup_spec env s) as (_ & _ & Hm & _ & _ & Hk).
    now apply (registry_ok_keys (s := s)).
  - exact IH.
  - now rewrite handleCallTool_state.
  - now apply (registry_ok_frame (s := s)).
  - now apply (registry_ok_frame (s := s)).
  - now rewrite post_messages_state.
  - unfold link_closed. destruct (JSMap.get (clients s) id); [| exact IH].
    destruct IH as [Hnd Hreg]. split; [exact Hnd |].
    intros k info Hget. destruct (Hreg k info Hget) as [Hk Hhas].
    split; [exact Hk | now apply has_set_mono].
Qed.

Lemma connect_exit_from_connected env c id cfg s r s' :
  In (id, cfg) (mcpServers c) ->
  from_connected env c s ->
  connect_exit env id cfg s r s' ->
  from_connected env c s'.
Proof.
  intros Hin Hfrom Hexit.
  destruct Hexit as [| | | t e _ _ _ _ | t reported _ Ht Hc Hl];
    try assumption.
  intros k info Hget. simpl in Hget.
  apply register_all_get in Hget.
  destruct Hget as [Hget | (Hid & Hrep & Hk)].
  - exact (Hfrom k info Hget).
  - exists cfg, reported. rewrite <- Hid.
    repeat split; try assumption.
    exists t. repeat split; assumption.
Qed.

(** After a switch to a profile that loads, the registry holds only what
    the connected backends of that profile reported. *)
Lemma switchProfile_from_connected env p s c :
  config_on_disk env p = Normal c ->
  from_connected env c (state (switchProfile env p s)).
Proof.
  intro Hload.
  rewrite (proj2 (switchProfile_loaded env p s Hload)).
  destruct (connect_all_invariant (env := env)
              (fun s0 => config s0 = c /\ from_connected env c s0)
              (switch_failed_message p) (fresh_profile c p))
    as [_ [_ Hfrom]]; [| | exact Hfrom].
  - intros id cfg s0 r s' Hin [Hcfg Hfrom] Hexit. split.
    + destruct Hexit; assumption.
    + apply (connect_exit_from_connected (id := id) (cfg := cfg) (s := s0)
               (r := r)); assumption.
  - split; [reflexivity |]. intros k info Hget. discriminate.
Qed.

(** A switch to a profile that does not load ends without clients and
    without tools, under the profile name that was current before. *)
Lemma switch_to_unloadable env p s e :
  config_on_disk env p = Throw e ->
  state (switchProfile env p s) = torn_down s.
Proof. intro Hload. exact (proj2 (switchProfile_failed env p s Hload)). Qed.

(* ------------------------------------------------------------------ *)
(** ** Profile switches *)

(** C1, as the claim states it, fails.  With profile [dev] active, a switch
    to a profile whose file does not exist throws the load error, and by
    then the backend clients and the tool registry of [dev] are gone. *)
Lemma failed_switch_drops_active_profile :
  let s := Sample.dev_state in
  let o := switchProfile Sample.env "nope" s in
  (exists e, config_on_disk Sample.env "nope" = Throw e) /\
  result o = Throw (new_Error "Failed to load profile nope") /\
  JSMap.keys (clients s) = ["kubernetes"] /\
  JSMap.keys (toolMap s) = ["kubernetes_get_pods"] /\
  clients (state o) <> clients s /\
  toolMap (state o) <> toolMap s.
Proof.
  repeat split; try reflexivity; try discriminate.
  eexists. vm_compute. reflexivity.
Qed.

(** C1, amended.  When the configuration of the new profile cannot be
    loaded, [switchProfile] throws "Failed to load profile <name>"; the
    current profile name and the loaded configuration are still those of
    the previous profile, but the client set and the tool registry are both
    empty: the teardown ran before the load was tried. *)
Theorem switchProfile_load_failure env p s e :
  config_on_disk env p = Throw e ->
  let o := switchProfile env p s in
  result o = Throw (new_Error ("Failed to load profile " ++ p)) /\
  currentProfile (state o) = currentProfile s /\
  config (state o) = config s /\
  clients (state o) = [] /\
  toolMap (state o) = [].
Proof.
  intros Hload o. subst o.
  destruct (switchProfile_failed env p s Hload) as [Hr Hs].
  rewrite Hr, Hs. repeat split; reflexivity.
Qed.

Lemma switchProfile_load_failure_witness :
  config_on_disk Sample.env "nope"
  = Throw (new_Error
             "ENOENT: no such file or directory, open '/srv/config.nope.json'")
  /\
  let o := switchProfile Sample.env "nope" Sample.dev_state in
  result o = Throw (new_Error ("Failed to load profile " ++ "nope")) /\
  currentProfile (state o) = currentProfile Sample.dev_state /\
  config (state o) = config Sample.dev_state /\
  clients (state o) = [] /\
  toolMap (state o) = [].
Proof.
  split; [reflexivity |].
  apply (switchProfile_load_failure Sample.env "nope" Sample.dev_state
           (e := new_Error
              "ENOENT: no such file or directory, open '/srv/config.nope.json'")).
  reflexivity.
Defined.

(** C2.  Switching to [A] and then to a profile [B] that loads ends in the
    very state a first switch to [B] ends in (same client set, same
    registry, same current profile).  Every entry of the registry comes
    from a backend of [B], and the second switch has called [close] on the
    transport of every client [A] had left. *)
Theorem switch_twice_as_fresh envA envB A B cB :
  config_on_disk envB B = Normal cB ->
  let sA := state (switchProfile envA A initial_state) in
  let oAB := switchProfile envB B sA in
  let oB := switchProfile envB B initial_state in
  result oAB = Normal tt /\
  result oB = Normal tt /\
  state oAB = state oB /\
  clients (state oAB) = clients (state oB) /\
  toolMap (state oAB) = toolMap (state oB) /\
  currentProfile (state oAB) = B /\
  currentProfile (state oB) = B /\
  from_connected envB cB (state oAB) /\
  (forall id c,
     JSMap.get (clients sA) id = Some c ->
     In (CloseClientTransport c) (events oAB)).
Proof.
  intros Hload sA oAB oB. subst oAB oB.
  destruct (switchProfile_loaded envB B sA Hload) as [HrAB HsAB].
  destruct (switchProfile_loaded envB B initial_state Hload) as [HrB HsB].
  assert (Hst : state (switchProfile envB B sA)
                = state (switchProfile envB B initial_state))
    by now rewrite HsAB, HsB.
  assert (Hprofile :
    currentProfile
      (state (connect_all envB (switch_failed_message B) (fresh_profile cB B)))
    = B).
  { apply (connect_all_invariant (env := envB)
             (fun s => currentProfile s = B)); [| reflexivity].
    intros id cfg s r s' _ Hs Hexit. destruct Hexit; assumption. }
  repeat split.
  - rewrite HrAB. apply connect_all_returns.
  - rewrite HrB. apply connect_all_returns.
  - exact Hst.
  - now rewrite Hst.
  - now rewrite Hst.
  - now rewrite HsAB.
  - now rewrite HsB.
  - exact (switchProfile_from_connected envB B sA Hload).
  - intros id c Hget.
    unfold switchProfile.
    rewrite (events_bind _ _ _ (proj1 (cleanup_returns envB sA))).
    apply in_or_app. left.
    apply cleanup_closes with id; [exact Hget |].
    assert (Hconn : clients_connected sA).
    { subst sA.
      destruct (config_on_disk envA A) as [cA | eA] eqn:HloadA.
      - rewrite (proj2 (switchProfile_loaded envA A initial_state HloadA)).
        apply connect_all_clients_connected. intros ? ?. discriminate.
      - rewrite (proj2 (switchProfile_failed envA A initial_state HloadA)).
        intros ? ?. discriminate. }
    exact (Hconn id c Hget).
Qed.

Lemma switch_twice_as_fresh_witness :
  config_on_disk Sample.env "ops" = Normal Sample.ops_config /\
  let sA := state (switchProfile Sample.env "dev" initial_state) in
  let oAB := switchProfile Sample.env "ops" sA in
  let oB := switchProfile Sample.env "ops" initial_state in
  result oAB = Normal tt /\
  result oB = Normal tt /\
  state oAB = state oB /\
  clients (state oAB) = clients (state oB) /\
  toolMap (state oAB) = toolMap (state oB) /\
  currentProfile (state oAB) = "ops" /\
  currentProfile (state oB) = "ops" /\
  from_connected Sample.env Sample.ops_config (state oAB) /\
  (forall id c,
     JSMap.get (clients sA) id = Some c ->
     In (CloseClientTransport c) (events oAB)).
Proof.
  split; [reflexivity |].
  apply (switch_twice_as_fresh Sample.env Sample.env "dev" "ops"
           (cB := Sample.ops_config)).
  reflexivity.
Defined.

(** In the sample deployment [docker] refuses the connection: the switch to
    [dev] completes and the registry holds the tool of [kubernetes] only. *)
Example switch_to_dev_skips_docker :
  result (switchProfile Sample.env "dev" initial_state) = Normal tt /\
  JSMap.keys (toolMap Sample.dev_state) = ["kubernetes_get_pods"] /\
  JSMap.keys (clients Sample.dev_state) = ["kubernetes"].
Proof. repeat split. Qed.

(** With every backend down, the switch to [dev] still completes, with no
    client and an empty registry. *)
Example switch_to_dev_offline :
  let o := switchProfile Sample.offline "dev" initial_state in
  result o = Normal tt /\
  toolMap (state o) = [] /\
  clients (state o) = [] /\
  currentProfile (state o) = "dev".
Proof. repeat split. Qed.

(* ------------------------------------------------------------------ *)
(** ** Invoking a tool *)

Section CallFacts.
Variable env : Env.
Variable s : State.
Variable request : CallToolRequest.

Let name := params_name (params request).
Let args := args_or_default (params_arguments (params request)).
Let meta := params_meta (params request).

(** The name is not in the registry. *)
Lemma handleCallTool_not_found :
  JSMap.get (toolMap s) name = None ->
  handleCallTool env request s
  = {| result :=
         Normal (error_response
                   ("Tool " ++ name ++ " not found in profile "
                    ++ currentProfile s) meta);
       state := s;
       events := [] |}.
Proof.
  intro Hget. unfold handleCallTool, bind at 1. simpl.
  fold name. rewrite Hget. reflexivity.
Qed.

(** The name is in the registry, its backend is not in the client set. *)
Lemma handleCallTool_not_connected info :
  JSMap.get (toolMap s) name = Some info ->
  JSMap.get (clients s) (serverId info) = None ->
  handleCallTool env request s
  = {| result :=
         Normal (error_response
                   ("Server " ++ serverId info
                    ++ " not connected in profile " ++ currentProfile s)
                   meta);
       state := s;
       events := [] |}.
Proof.
  intros Hget Hclient. unfold handleCallTool, bind at 1. simpl.
  fold name. rewrite Hget, Hclient. reflexivity.
Qed.

(** The name is in the registry and its backend in the client set: one
    call goes out, and its outcome decides the response. *)
Lemma handleCallTool_forwarded info client :
  JSMap.get (toolMap s) name = Some info ->
  JSMap.get (clients s) (serverId info) = Some client ->
  handleCallTool env request s
  = {| result :=
         match Client_callTool env client (Tool.name (tool info)) args with
         | Normal r => Normal r
         | Throw e =>
             Normal (error_response
                       ("Error calling tool " ++ name ++ ": "
                        ++ error_toString e) meta)
         end;
       state := s;
       events := [CallTool client (Tool.name (tool info)) args] |}.
Proof.
  intros Hget Hclient. unfold handleCallTool, bind at 1. simpl.
  fold name. rewrite Hget, Hclient.
  unfold try_catch, bind, call, ret. simpl. fold args.
  destruct (Client_callTool env client (Tool.name (tool info)) args);
    reflexivity.
Qed.
End CallFacts.

(** C4.  When the qualified name is in the registry and its backend in the
    client set, exactly one call goes to that backend's client: under the
    name the backend itself reported, with the arguments the caller sent
    (with [{}] when the caller sent none).  If that call succeeds, its result
    is the response, and nothing of the proxy's state changes.  In a
    reachable state the qualified name is that original name behind the
    backend id and an underscore. *)
Theorem handleCallTool_forwards env s request info client :
  JSMap.get (toolMap s) (params_name (params request)) = Some info ->
  JSMap.get (clients s) (serverId info) = Some client ->
  let o := handleCallTool env request s in
  let original := Tool.name (tool info) in
  events o
  = [CallTool client original
       (args_or_default (params_arguments (params request)))] /\
  (forall a, params_arguments (params request) = Some a ->
             events o = [CallTool client original a]) /\
  (forall r,
     Client_callTool env client original
       (args_or_default (params_arguments (params request))) = Normal r ->
     result o = Normal r) /\
  state o = s /\
  (reachable s ->
   params_name (params request) = serverId info ++ "_" ++ original).
Proof.
  intros Hget Hclient o original. subst o original.
  rewrite (handleCallTool_forwarded env s request Hget Hclient). simpl.
  repeat split.
  - intros a Ha. rewrite Ha. reflexivity.
  - intros r Hr. rewrite Hr. reflexivity.
  - intro Hreach.
    destruct (reachable_registry_ok Hreach) as [_ Hreg].
    exact (proj1 (Hreg _ _ Hget)).
Qed.

Lemma handleCallTool_forwards_witness :
  let s := Sample.dev_state in
  let request := Sample.call_request "kubernetes_get_pods" in
  let info := {| serverId := "kubernetes"; tool := Sample.get_pods |} in
  let client :=
    Client.mk "proxy-kubernetes" "1.0.0"
      (Some (StdioClientTransport "npx" (Some ["mcp-server-kubernetes"]))) in
  let o := handleCallTool Sample.env request s in
  events o = [CallTool client "get_pods" []] /\
  (forall a, params_arguments (params request) = Some a ->
             events o = [CallTool client "get_pods" a]) /\
  (forall r,
     Client_callTool Sample.env client "get_pods" [] = Normal r ->
     result o = Normal r) /\
  state o = s /\
  (reachable s -> "kubernetes_get_pods" = "kubernetes" ++ "_" ++ "get_pods").
Proof.
  exact (handleCallTool_forwards Sample.env Sample.dev_state
           (Sample.call_request "kubernetes_get_pods")
           (info := {| serverId := "kubernetes"; tool := Sample.get_pods |})
           eq_refl eq_refl).
Defined.

(** The scenario of the specification: [kubernetes_get_pods] called with
    [{}] reaches [kubernetes] as [get_pods({})] and its result comes back as
    it is. *)
Example call_kubernetes_get_pods :
  let o := handleCallTool Sample.env
             (Sample.call_request "kubernetes_get_pods") Sample.dev_state in
  result o = Normal Sample.pods_result /\
  exists client, events o = [CallTool client "get_pods" []] /\
                 Client.name client = "proxy-kubernetes".
Proof. split; [reflexivity |]. eexists. split; reflexivity. Qed.

(** C5.  When the qualified name is not in the registry the call returns:
    an error-flagged response with one text item that contains the
    qualified name and the current profile name, and with the [_meta] of the
    request.  No backend is called and the state is unchanged. *)
Theorem handleCallTool_unknown_tool env s request :
  JSMap.get (toolMap s) (params_name (params request)) = None ->
  let o := handleCallTool env request s in
  exists r msg,
    result o = Normal r /\
    isError r = Some true /\
    content r = [ {| type := "text"; text := msg |} ] /\
    includes msg (params_name (params request)) = true /\
    includes msg (currentProfile s) = true /\
    _meta r = params_meta (params request) /\
    state o = s /\
    events o = [].
Proof.
  intros Hget o. subst o.
  rewrite (handleCallTool_not_found env s request Hget).
  exists (error_response
            ("Tool " ++ params_name (params request)
             ++ " not found in profile " ++ currentProfile s)
            (params_meta (params request))).
  exists ("Tool " ++ params_name (params request)
          ++ " not found in profile " ++ currentProfile s).
  repeat split; find_included.
Qed.

Lemma handleCallTool_unknown_tool_witness :
  let s := Sample.dev_state in
  let request := Sample.call_request "docker_list_containers" in
  JSMap.get (toolMap s) (params_name (params request)) = None /\
  let o := handleCallTool Sample.env request s in
  exists r msg,
    result o = Normal r /\
    isError r = Some true /\
    content r = [ {| type := "text"; text := msg |} ] /\
    includes msg (params_name (params request)) = true /\
    includes msg (currentProfile s) = true /\
    _meta r = params_meta (params request) /\
    state o = s /\
    events o = [].
Proof.
  split; [reflexivity |].
  exact (handleCallTool_unknown_tool Sample.env Sample.dev_state
           (Sample.call_request "docker_list_containers") eq_refl).
Defined.

(** In the sample deployment [docker] never connected, so its tool is
    unknown in profile [dev]. *)
Example call_unknown_tool_text :
  result (handleCallTool Sample.env
            (Sample.call_request "docker_list_containers") Sample.dev_state)
  = Normal
      (error_response "Tool docker_list_containers not found in profile dev"
         (Some {| progressToken := Some (inl "t-1") |})).
Proof. reflexivity. Qed.

(** In a reachable state the backend of a registered name is in the
    client set: no line of the proxy removes a single client, and the
    registry is only filled after [clients.set]. *)
Lemma registered_backend_has_client s name info :
  reachable s ->
  JSMap.get (toolMap s) name = Some info ->
  exists client, JSMap.get (clients s) (serverId info) = Some client.
Proof.
  intros Hreach Hget.
  destruct (reachable_registry_ok Hreach) as [_ Hreg].
  destruct (Hreg name info Hget) as [_ Hhas].
  unfold JSMap.has in Hhas.
  destruct (JSMap.get (clients s) (serverId info)) as [client |];
    [now exists client | discriminate].
Qed.

(** server.ts, lines 173-184: the response the proxy has for a backend
    that is not connected.  It is error-flagged and names the backend id and
    the current profile; it is given when the backend of the registered name
    is missing from the client set, which by
    [registered_backend_has_client] happens in no reachable state. *)
Lemma handleCallTool_missing_client env s request info :
  JSMap.get (toolMap s) (params_name (params request)) = Some info ->
  JSMap.get (clients s) (serverId info) = None ->
  let o := handleCallTool env request s in
  exists r msg,
    result o = Normal r /\
    isError r = Some true /\
    content r = [ {| type := "text"; text := msg |} ] /\
    msg = "Server " ++ serverId info ++ " not connected in profile "
          ++ currentProfile s /\
    includes msg (serverId info) = true /\
    includes msg (currentProfile s) = true /\
    _meta r = params_meta (params request) /\
    state o = s /\
    events o = [].
Proof.
  intros Hget Hclient o. subst o.
  rewrite (handleCallTool_not_connected env s request Hget Hclient).
  eexists. eexists. split; [reflexivity |]. cbn [isError content _meta
    error_response state events].
  repeat split; find_included.
Qed.

(** A client in the client set is called whatever the state of its
    connection; what the call throws comes back under "Error calling
    tool". *)
Lemma handleCallTool_connection_not_inspected env s request info client e :
  JSMap.get (toolMap s) (params_name (params request)) = Some info ->
  JSMap.get (clients s) (serverId info) = Some client ->
  Client_callTool env client (Tool.name (tool info))
    (args_or_default (params_arguments (params request))) = Throw e ->
  let o := handleCallTool env request s in
  events o
  = [CallTool client (Tool.name (tool info))
       (args_or_default (params_arguments (params request)))] /\
  exists r,
    result o = Normal r /\
    isError r = Some true /\
    content r
    = [ {| type := "text";
           text := "Error calling tool " ++ params_name (params request)
                   ++ ": " ++ error_toString e |} ].
Proof.
  intros Hget Hclient He o. subst o.
  rewrite (handleCallTool_forwarded env s request Hget Hclient).
  cbn [events result]. rewrite He.
  split; [reflexivity |]. eexists. repeat split.
Qed.

(** C6 at its failing input.  Profile [dev] is active and the link to
    [kubernetes] has gone down: [kubernetes_get_pods] is in the registry and
    the connection of its backend is closed.  The invoke does not throw and
    its response is error-flagged, but it is not the response of lines
    173-184 that names the backend and the profile: the client is still in
    the client set, so the call is attempted on the closed connection and
    the response is the text of that failure, "Error calling tool
    kubernetes_get_pods: Error: Not connected", in which the current
    profile [dev] does not occur. *)
Theorem handleCallTool_closed_backend :
  let s := Sample.kubernetes_down in
  let request := Sample.call_request "kubernetes_get_pods" in
  let o := handleCallTool Sample.env request s in
  reachable s /\
  currentProfile s = "dev" /\
  JSMap.get (toolMap s) "kubernetes_get_pods"
  = Some {| serverId := "kubernetes"; tool := Sample.get_pods |} /\
  (exists client,
     JSMap.get (clients s) "kubernetes" = Some client /\
     Client.transport client = None /\
     events o = [CallTool client "get_pods" []]) /\
  (exists r msg,
     result o = Normal r /\
     isError r = Some true /\
     content r = [ {| type := "text"; text := msg |} ] /\
     msg = "Error calling tool kubernetes_get_pods: Error: Not connected" /\
     includes msg (currentProfile s) = false) /\
  result o
  <> Normal (error_response "Server kubernetes not connected in profile dev"
               (params_meta (params request))) /\
  state o = s.
Proof.
  split; [apply reach_link_closed, reach_switchProfile, reach_new |].
  split; [reflexivity |]. split; [reflexivity |]. split.
  { eexists. repeat split. }
  split.
  { eexists. eexists. repeat split. }
  split; [discriminate | reflexivity].
Qed.

(** The text of lines 173-184, on a state built by hand in which the
    registry names a backend that the client set does not have. *)
Example call_orphan_tool_text :
  result (handleCallTool Sample.env
            (Sample.call_request "docker_list_containers")
            Sample.orphan_state)
  = Normal
      (error_response "Server docker not connected in profile dev"
         (Some {| progressToken := Some (inl "t-1") |})).
Proof. reflexivity. Qed.

Lemma includes_error_message (pre : string) (e : JSError) :
  includes (pre ++ error_toString e) (message e) = true.
Proof.
  apply includes_skip. unfold error_toString.
  destruct (String.eqb (ename e) ""); [apply includes_self |].
  destruct (String.eqb (message e) "") eqn:E.
  - apply String.eqb_eq in E. rewrite E.
    apply includes_prefix. destruct (ename e); reflexivity.
  - find_included.
Qed.

(** C8.  When the call to the backend throws (its promise rejects), the
    invoke still returns: an error-flagged response whose one text item is
    "Error calling tool <qualified name>: <error>", so it contains the
    qualified name and the text of the error, and carries the [_meta] of the
    request.  The state is unchanged. *)
Theorem handleCallTool_backend_failure env s request info client e :
  JSMap.get (toolMap s) (params_name (params request)) = Some info ->
  JSMap.get (clients s) (serverId info) = Some client ->
  Client_callTool env client (Tool.name (tool info))
    (args_or_default (params_arguments (params request))) = Throw e ->
  let o := handleCallTool env request s in
  exists r msg,
    result o = Normal r /\
    isError r = Some true /\
    content r = [ {| type := "text"; text := msg |} ] /\
    msg = "Error calling tool " ++ params_name (params request) ++ ": "
          ++ error_toString e /\
    includes msg (params_name (params request)) = true /\
    includes msg (error_toString e) = true /\
    includes msg (message e) = true /\
    _meta r = params_meta (params request) /\
    state o = s.
Proof.
  intros Hget Hclient Hcall o. subst o.
  rewrite (handleCallTool_forwarded env s request Hget Hclient).
  cbn [result state events]. rewrite Hcall.
  exists (error_response
            ("Error calling tool " ++ params_name (params request) ++ ": "
             ++ error_toString e) (params_meta (params request))).
  exists ("Error calling tool " ++ params_name (params request) ++ ": "
          ++ error_toString e).
  split; [reflexivity |]. split; [reflexivity |]. split; [reflexivity |].
  split; [reflexivity |].
  split; [find_included |]. split; [find_included |].
  split; [| split; reflexivity].
  apply includes_skip, includes_skip, includes_error_message.
Qed.

Lemma handleCallTool_backend_failure_witness :
  let s := Sample.kubernetes_down in
  let request := Sample.call_request "kubernetes_get_pods" in
  let e := new_Error "Not connected" in
  let o := handleCallTool Sample.env request s in
  exists r msg,
    result o = Normal r /\
    isError r = Some true /\
    content r = [ {| type := "text"; text := msg |} ] /\
    msg = "Error calling tool " ++ params_name (params request) ++ ": "
          ++ error_toString e /\
    includes msg (params_name (params request)) = true /\
    includes msg (error_toString e) = true /\
    includes msg (message e) = true /\
    _meta r = params_meta (params request) /\
    state o = s.
Proof.
  exact (handleCallTool_backend_failure Sample.env Sample.kubernetes_down
           (Sample.call_request "kubernetes_get_pods")
           (info := {| serverId := "kubernetes"; tool := Sample.get_pods |})
           (client := Client.mk "proxy-kubernetes" "1.0.0" None)
           (e := new_Error "Not connected")
           eq_refl eq_refl eq_refl).
Defined.

(* ------------------------------------------------------------------ *)
(** ** Listing the tools *)

(** After a switch to a profile none of whose backends connects the
    registry is empty. *)
Lemma switchProfile_none_connects env p s c :
  config_on_disk env p = Normal c ->
  (forall id cfg reported,
     In (id, cfg) (mcpServers c) -> ~ backend_connects env id cfg reported) ->
  toolMap (state (switchProfile env p s)) = [].
Proof.
  intros Hload Hnone.
  apply JSMapFacts.all_None_empty. intro k.
  destruct (JSMap.get _ k) as [info |] eqn:Hget; [| reflexivity].
  pose proof (switchProfile_from_connected env p s Hload) as Hfrom.
  destruct (Hfrom k info Hget) as (cfg & reported & Hin & Hconn & _).
  elim (Hnone _ _ _ Hin Hconn).
Qed.

(** C7.  Listing always returns and changes nothing.  The list has one
    entry per registry entry, in registry order; the entry's name is
    [<backendId>_<original name>], its description is
    ["[<profile>/<backendId>] "] followed by the original description (by
    nothing when the tool has none), its schema is the original one.  In a
    reachable state that name is the key of the registry entry and looking
    it up after the listing finds the undecorated entry.  The list is empty
    when the registry is, hence in a reachable state whose client set is
    empty and after the switch to a profile none of whose backends
    connects. *)
Theorem handleListTools_decorates s :
  let o := handleListTools s in
  state o = s /\
  events o = [] /\
  exists listed,
    result o = Normal {| tools := listed |} /\
    length listed = length (toolMap s) /\
    (forall i k info,
       nth_error (toolMap s) i = Some (k, info) ->
       exists entry,
         nth_error listed i = Some entry /\
         Tool.name entry = serverId info ++ "_" ++ Tool.name (tool info) /\
         Tool.description entry
         = Some ("[" ++ currentProfile s ++ "/" ++ serverId info ++ "] "
                 ++ match Tool.description (tool info) with
                    | Some original => original
                    | None => ""
                    end) /\
         Tool.inputSchema entry = Tool.inputSchema (tool info) /\
         (reachable s ->
          Tool.name entry = k /\
          JSMap.get (toolMap (state o)) (Tool.name entry) = Some info)) /\
    (toolMap s = [] -> listed = []) /\
    (reachable s -> clients s = [] -> listed = []) /\
    (forall env p s0 c,
       s = state (switchProfile env p s0) ->
       config_on_disk env p = Normal c ->
       (forall id cfg reported,
          In (id, cfg) (mcpServers c) ->
          ~ backend_connects env id cfg reported) ->
       listed = []).
Proof.
  intro o. subst o.
  split; [reflexivity |]. split; [reflexivity |].
  exists (map (decorate (currentProfile s)) (JSMap.values (toolMap s))).
  split; [reflexivity |].
  split; [unfold JSMap.values; now rewrite !length_map |].
  split; [| split; [| split]].
  - intros i k info Hnth.
    exists (decorate (currentProfile s) info).
    split.
    { apply map_nth_error. unfold JSMap.values.
      change info with (snd (k, info)). now apply map_nth_error. }
    split; [reflexivity |].
    split; [unfold decorate, or_empty; cbn [Tool.description];
            now destruct (Tool.description (tool info)) |].
    split; [reflexivity |].
    intro Hreach. destruct (reachable_registry_ok Hreach) as [Hnd Hreg].
    pose proof (JSMapFacts.nth_error_get (toolMap s) i Hnd Hnth) as Hget.
    destruct (Hreg k info Hget) as [Hk _].
    split.
    + now rewrite Hk.
    + change (Tool.name (decorate (currentProfile s) info))
        with (serverId info ++ "_" ++ Tool.name (tool info)).
      rewrite <- Hk. exact Hget.
  - intros ->. reflexivity.
  - intros Hreach Hclients.
    destruct (reachable_registry_ok Hreach) as [_ Hreg].
    destruct (toolMap s) as [| [k info] m] eqn:Hmap; [reflexivity |].
    exfalso.
    assert (Hget : JSMap.get ((k, info) :: m) k = Some info)
      by (simpl; now rewrite String.eqb_refl).
    destruct (Hreg k info Hget) as [_ Hhas].
    rewrite Hclients in Hhas. discriminate.
  - intros env p s0 c -> Hload Hnone.
    now rewrite (@switchProfile_none_connects env p s0 c Hload Hnone).
Qed.

(** Profile [dev] with both backends connected: [get_pods] has a
    description, [list_containers] has none. *)
Lemma handleListTools_decorates_witness :
  let s := Scenario.dev_all_up in
  let o := handleListTools s in
  reachable s /\
  state o = s /\
  events o = [] /\
  exists listed,
    result o = Normal {| tools := listed |} /\
    length listed = length (toolMap s) /\
    (forall i k info,
       nth_error (toolMap s) i = Some (k, info) ->
       exists entry,
         nth_error listed i = Some entry /\
         Tool.name entry = serverId info ++ "_" ++ Tool.name (tool info) /\
         Tool.description entry
         = Some ("[" ++ currentProfile s ++ "/" ++ serverId info ++ "] "
                 ++ match Tool.description (tool info) with
                    | Some original => original
                    | None => ""
                    end) /\
         Tool.inputSchema entry = Tool.inputSchema (tool info) /\
         (reachable s ->
          Tool.name entry = k /\
          JSMap.get (toolMap (state o)) (Tool.name entry) = Some info)) /\
    (toolMap s = [] -> listed = []) /\
    (reachable s -> clients s = [] -> listed = []) /\
    (forall env p s0 c,
       s = state (switchProfile env p s0) ->
       config_on_disk env p = Normal c ->
       (forall id cfg reported,
          In (id, cfg) (mcpServers c) ->
          ~ backend_connects env id cfg reported) ->
       listed = []).
Proof.
  split.
  - apply reach_switchProfile, reach_new.
  - exact (handleListTools_decorates Scenario.dev_all_up).
Defined.

(** Its listing: the description of [get_pods] follows the prefix, the
    prefix of [list_containers] stands alone. *)
Example list_dev_all_up :
  toolMap Scenario.dev_all_up
  = [ ("kubernetes_get_pods",
       {| serverId := "kubernetes"; tool := Sample.get_pods |});
      ("docker_list_containers",
       {| serverId := "docker"; tool := Sample.list_containers |}) ] /\
  result (handleListTools Scenario.dev_all_up)
  = Normal
      {| tools :=
           [ Tool.mk "kubernetes_get_pods"
               (Some "[dev/kubernetes] List pods") (JObject []);
             Tool.mk "docker_list_containers"
               (Some "[dev/docker] ") (JObject []) ] |}.
Proof. split; reflexivity. Qed.

(** After a switch with every backend down nothing is listed. *)
Example list_dev_offline :
  result (handleListTools
            (state (switchProfile Sample.offline "dev" Sample.dev_state)))
  = Normal {| tools := [] |}.
Proof. reflexivity. Qed.

(** The listing of the sample deployment under profile [dev], and of a
    proxy without backends. *)
Example list_dev_tools :
  result (handleListTools Sample.dev_state)
  = Normal
      {| tools :=
           [ Tool.mk "kubernetes_get_pods"
               (Some "[dev/kubernetes] List pods") (JObject []) ] |}.
Proof. reflexivity. Qed.

Example list_no_tools :
  result (handleListTools initial_state) = Normal {| tools := [] |}.
Proof. reflexivity. Qed.

(* ------------------------------------------------------------------ *)
(** ** Posted messages *)

(** A session id that is neither registered nor the name of a member of
    [Object.prototype] is answered with 400 and the session map is left as
    it was. *)
Lemma post_messages_no_session env req s :
  JSObject.get (transports s) (query_sessionId req) = Undefined ->
  post_messages env req s
  = {| result :=
         Normal {| status := 400;
                   json := json_error "No transport found for sessionId" |};
       state := s;
       events :=
         [LogInfo "No transport found for sessionId" [query_sessionId req]] |}.
Proof.
  intro H. unfold post_messages, bind at 1. simpl. rewrite H. reflexivity.
Qed.

(** A session id that is not registered but names a member of
    [Object.prototype] passes the test of line 319; the attempt to call
    [handlePostMessage] on what was found throws inside the [try], and the
    answer is 500.  The session map is left as it was. *)
Lemma post_messages_inherited env req s :
  JSObject.own (transports s) (query_sessionId req) = None ->
  In (query_sessionId req) Object_prototype_keys ->
  post_messages env req s
  = {| result :=
         Normal {| status := 500; json := json_error "Internal server error" |};
       state := s;
       events :=
         [LogError "Error handling message:"
            (Some (new_TypeError
                     "transport.handlePostMessage is not a function"))] |}.
Proof.
  intros Hown Hin. unfold post_messages, bind at 1. simpl.
  unfold JSObject.get. rewrite Hown.
  assert (E : existsb (String.eqb (query_sessionId req)) Object_prototype_keys
              = true).
  { apply existsb_exists. exists (query_sessionId req).
    split; [exact Hin | apply String.eqb_refl]. }
  rewrite E. reflexivity.
Qed.

(** C9 at its failing input.  No session is registered and a message is
    posted with [sessionId=constructor]: the answer is 500 "Internal server
    error", not the 400 "No transport found for sessionId" an unknown session
    id is meant to get. *)
Theorem post_messages_constructor env payload :
  let req := {| query_sessionId := "constructor"; body := payload |} in
  let o := post_messages env req initial_state in
  JSObject.own (transports initial_state) "constructor" = None /\
  result o
  = Normal {| status := 500; json := json_error "Internal server error" |} /\
  result o
  <> Normal {| status := 400;
               json := json_error "No transport found for sessionId" |} /\
  state o = initial_state.
Proof.
  repeat split. discriminate.
Qed.

(* ------------------------------------------------------------------ *)
(** ** Connecting a backend twice *)

(** A call of [connectToServer] that returns leaves the id in the client
    set. *)
Lemma connectToServer_then_present env id cfg s :
  result (connectToServer env id cfg s) = Normal tt ->
  JSMap.has (clients (state (connectToServer env id cfg s))) id = true.
Proof.
  generalize (connectToServer_exits env id cfg s).
  generalize (result (connectToServer env id cfg s))
             (state (connectToServer env id cfg s)).
  intros r st Hexit Hr. destruct Hexit; try discriminate.
  - assumption.
  - simpl. apply has_set_same.
Qed.

Lemma connectToServer_skips env id cfg s :
  JSMap.has (clients s) id = true ->
  connectToServer env id cfg s
  = {| result := Normal tt; state := s; events := [] |}.
Proof.
  intro Hhas. unfold connectToServer, bind at 1. simpl.
  rewrite Hhas. reflexivity.
Qed.

(** C10.  [connectToServer] for an id that is already in the client set
    returns at once: no call goes out, and the client set, the registry and
    the rest of the state are as before.  So after a call of it that
    returned, calling it again for that id, with whatever configuration and
    however the outside world would answer, changes nothing. *)
Theorem connectToServer_present env id cfg s :
  let o := connectToServer env id cfg s in
  (JSMap.has (clients s) id = true ->
   o = {| result := Normal tt; state := s; events := [] |}) /\
  (result o = Normal tt ->
   forall env' cfg',
     connectToServer env' id cfg' (state o)
     = {| result := Normal tt; state := state o; events := [] |}).
Proof.
  intro o. subst o. split.
  - apply connectToServer_skips.
  - intros Hr env' cfg'.
    apply connectToServer_skips, connectToServer_then_present, Hr.
Qed.

Lemma connectToServer_present_witness :
  let s := Sample.dev_state in
  let cfg := {| command := Some "npx"; args := None; url := None |} in
  let o := connectToServer Sample.env "kubernetes" cfg s in
  JSMap.has (clients s) "kubernetes" = true /\
  result o = Normal tt /\
  o = {| result := Normal tt; state := s; events := [] |} /\
  (forall env' cfg',
     connectToServer env' "kubernetes" cfg' (state o)
     = {| result := Normal tt; state := state o; events := [] |}).
Proof.
  split; [reflexivity |]. split; [reflexivity |].
  split.
  - exact (proj1 (connectToServer_present Sample.env "kubernetes"
                    {| command := Some "npx"; args := None; url := None |}
                    Sample.dev_state) eq_refl).
  - exact (proj2 (connectToServer_present Sample.env "kubernetes"
                    {| command := Some "npx"; args := None; url := None |}
                    Sample.dev_state) eq_refl).
Defined.

(** A first connection, then a second attempt for the same id: the second
    records no call and leaves the state of the first. *)
Example connect_kubernetes_twice :
  let cfg := {| command := Some "npx"; args := None; url := None |} in
  let o1 := connectToServer Sample.env "kubernetes" cfg initial_state in
  let o2 := connectToServer Sample.offline "kubernetes" cfg (state o1) in
  JSMap.keys (clients (state o1)) = ["kubernetes"] /\
  JSMap.keys (toolMap (state o1)) = ["kubernetes_get_pods"] /\
  o2 = {| result := Normal tt; state := state o1; events := [] |}.
Proof. repeat split. Qed.

(* ------------------------------------------------------------------ *)
(** ** Further properties: teardown *)

Lemma In_get {V} (m : JSMap.t V) k v :
  NoDup (JSMap.keys m) -> In (k, v) m -> JSMap.get m k = Some v.
Proof.
  intros Hnd Hin. apply In_nth_error in Hin. destruct Hin as [i Hi].
  exact (JSMapFacts.nth_error_get m i Hnd Hi).
Qed.

Lemma flat_map_nil_all {A B} (f : A -> list B) (l : list A) :
  (forall x, In x l -> f x = []) -> flat_map f l = [].
Proof.
  induction l as [| a l IH]; intro H; [reflexivity |].
  simpl. rewrite (H a (or_introl eq_refl)). apply IH.
  intros x Hx. apply H. now right.
Qed.

Lemma set_app_notin {V} (pre l : JSMap.t V) k v0 v :
  ~ In k (JSMap.keys pre) ->
  JSMap.set (pre ++ (k, v0) :: l)%list k v = (pre ++ (k, v) :: l)%list.
Proof.
  induction pre as [| [k1 v1] pre IH]; simpl; intro Hnot.
  - now rewrite String.eqb_refl.
  - destruct (String.eqb k1 k) eqn:E.
    + apply String.eqb_eq in E. elim Hnot. now left.
    + rewrite IH; [reflexivity |]. intro H. apply Hnot. now right.
Qed.

Lemma get_map_values {V} (f : V -> V) (m : JSMap.t V) k :
  JSMap.get (map (fun '(id, v) => (id, f v)) m) k
  = option_map f (JSMap.get m k).
Proof.
  induction m as [| [k0 v0] m IH]; simpl; [reflexivity |].
  destruct (String.eqb k0 k); [reflexivity | exact IH].
Qed.

(** The loop over the clients, client by client: each one is left as
    [after_close] says, in its place. *)
Lemma close_loop_clients env l :
  forall pre s0,
    clients s0 = (pre ++ l)%list ->
    NoDup (JSMap.keys (pre ++ l)%list) ->
    clients (state (for_of l (fun '(id, c) => close_client env id c) s0))
    = (pre ++ map (fun '(id, c) => (id, after_close env c)) l)%list.
Proof.
  induction l as [| [id c] l IH]; intros pre s0 Hcl Hnd.
  - simpl. exact Hcl.
  - cbn [for_of].
    assert (Hturn : returns (close_client env id c) s0 tt
                      (state (close_client env id c s0)))
      by (unfold returns; rewrite close_client_out; now split).
    destruct (bind_after
                (fun _ => for_of l (fun '(id, c) => close_client env id c))
                Hturn) as [_ ->].
    assert (Hnot : ~ In id (JSMap.keys pre)).
    { unfold JSMap.keys in *. rewrite map_app in Hnd. simpl in Hnd.
      apply NoDup_remove_2 in Hnd. intro H. apply Hnd.
      apply in_or_app. now left. }
    assert (Hs1 : clients (state (close_client env id c s0))
                  = ((pre ++ [(id, after_close env c)]) ++ l)%list).
    { rewrite close_client_out. cbn [state]. unfold after_close.
      rewrite <- app_assoc. cbn [app].
      destruct (Client.transport c) as [t |]; [| exact Hcl].
      destruct (Transport_close env t); [| exact Hcl].
      cbn [clients set_clients]. rewrite Hcl.
      now apply set_app_notin. }
    rewrite (IH _ _ Hs1).
    + rewrite <- app_assoc. reflexivity.
    + unfold JSMap.keys in *. rewrite <- app_assoc, map_app in *.
      exact Hnd.
Qed.

(** The client set after [cleanup], when its ids are distinct (as the
    keys of a [Map] are). *)
Lemma cleanup_clients env s :
  NoDup (JSMap.keys (clients s)) ->
  clients (state (cleanup env s))
  = map (fun '(id, c) => (id, after_close env c)) (clients s).
Proof.
  intro Hnd. unfold cleanup.
  match goal with
  | |- context [bind (gets ?g) ?f s] =>
      destruct (bind_after f (returns_gets g s)) as [_ ->]; cbv beta
  end.
  match goal with
  | |- context [bind (for_of ?xs ?body) ?f s] =>
      assert (Hloop : returns (for_of xs body) s tt s)
        by (apply for_of_frame; intros t _; apply guarded_close_returns);
        destruct (bind_after f Hloop) as [_ ->]; cbv beta
  end.
  match goal with
  | |- context [bind (modify ?g) ?f s] =>
      destruct (bind_after f (returns_modify g s)) as [_ ->]; cbv beta
  end.
  match goal with
  | |- context [bind (gets ?g) ?f ?s1] =>
      destruct (bind_after f (returns_gets g s1)) as [_ ->]; cbv beta
  end.
  exact (close_loop_clients env (clients s) []
           (set_transports (JSObject.empty SSEServerTransport) s)
           eq_refl Hnd).
Qed.

(** The loop over the backends leaves the sessions, the configuration and
    the current profile alone. *)
Lemma connect_all_frame env failed s :
  let s' := state (connect_all env failed s) in
  transports s' = transports s /\
  config s' = config s /\
  currentProfile s' = currentProfile s.
Proof.
  apply (connect_all_invariant (env := env)
           (fun s0 => transports s0 = transports s /\
                      config s0 = config s /\
                      currentProfile s0 = currentProfile s)).
  - intros id cfg s0 r s' _ H Hexit. destruct Hexit; exact H.
  - repeat split.
Qed.

(** X1.  [cleanup] always returns, whatever the closes answer.  It calls
    [close] on every registered session and on the transport of every
    client that has one, and empties the session map.  The registry, the
    configuration and the current profile are as before, and so are the
    ids of the client set: no client is removed.  When those ids are
    distinct, each client is left in its place without its transport if its
    close succeeded (or it had none), and as it was if its close failed. *)
Theorem cleanup_unconditional env s :
  let o := cleanup env s in
  result o = Normal tt /\
  transports (state o) = [] /\
  toolMap (state o) = toolMap s /\
  config (state o) = config s /\
  currentProfile (state o) = currentProfile s /\
  JSMap.keys (clients (state o)) = JSMap.keys (clients s) /\
  (NoDup (JSMap.keys (clients s)) ->
   clients (state o)
   = map (fun '(id, c) =>
            (id,
             match Client.transport c with
             | None => c
             | Some t =>
                 match Transport_close env t with
                 | Normal _ =>
                     Client.mk (Client.name c) (Client.version c) None
                 | Throw _ => c
                 end
             end))
         (clients s)) /\
  (forall t, In t (JSObject.values (transports s)) ->
             In (CloseSession t) (events o)) /\
  (forall id c, JSMap.get (clients s) id = Some c ->
                Client.transport c <> None ->
                In (CloseClientTransport c) (events o)).
Proof.
  intro o. subst o.
  destruct (cleanup_spec env s) as (Hr & Ht & Hm & Hc & Hp & Hk).
  split; [exact Hr |]. split; [exact Ht |]. split; [exact Hm |].
  split; [exact Hc |]. split; [exact Hp |]. split; [exact Hk |].
  split; [| split].
  - intro Hnd. now rewrite (cleanup_clients env s Hnd).
  - apply cleanup_closes_session.
  - intros id c. apply cleanup_closes.
Qed.

Lemma cleanup_unconditional_witness :
  let s := Scenario.serving in
  let o := cleanup Sample.env s in
  NoDup (JSMap.keys (clients s)) /\
  result o = Normal tt /\
  transports (state o) = [] /\
  toolMap (state o) = toolMap s /\
  config (state o) = config s /\
  currentProfile (state o) = currentProfile s /\
  JSMap.keys (clients (state o)) = JSMap.keys (clients s) /\
  (NoDup (JSMap.keys (clients s)) ->
   clients (state o)
   = map (fun '(id, c) =>
            (id,
             match Client.transport c with
             | None => c
             | Some t =>
                 match Transport_close Sample.env t with
                 | Normal _ =>
                     Client.mk (Client.name c) (Client.version c) None
                 | Throw _ => c
                 end
             end))
         (clients s)) /\
  (forall t, In t (JSObject.values (transports s)) ->
             In (CloseSession t) (events o)) /\
  (forall id c, JSMap.get (clients s) id = Some c ->
                Client.transport c <> None ->
                In (CloseClientTransport c) (events o)).
Proof.
  split.
  - simpl. constructor; [intros [] | constructor].
  - exact (cleanup_unconditional Sample.env Scenario.serving).
Defined.

(** The teardown of the sample deployment: first with closes that
    succeed, then with closes that all fail. *)
Example cleanup_closing :
  let o := cleanup Sample.env Scenario.serving in
  events o
  = [ CloseSession Scenario.session_a;
      CloseSession Scenario.session_b;
      CloseClientTransport
        (Client.mk "proxy-kubernetes" "1.0.0"
           (Some (StdioClientTransport "npx"
                    (Some ["mcp-server-kubernetes"])))) ] /\
  clients (state o)
  = [ ("kubernetes", Client.mk "proxy-kubernetes" "1.0.0" None) ].
Proof. split; reflexivity. Qed.

Example cleanup_with_failing_closes :
  let o := cleanup Scenario.stuck Scenario.serving in
  events o
  = [ CloseSession Scenario.session_a;
      LogError "Error closing transport:" (Some (new_Error "write EPIPE"));
      CloseSession Scenario.session_b;
      LogError "Error closing transport:" (Some (new_Error "write EPIPE"));
      CloseClientTransport
        (Client.mk "proxy-kubernetes" "1.0.0"
           (Some (StdioClientTransport "npx"
                    (Some ["mcp-server-kubernetes"]))));
      LogError "Error disconnecting client:" (Some (new_Error "kill EPERM")) ]
  /\
  clients (state o) = clients Scenario.serving.
Proof. split; reflexivity. Qed.

(** X2.  [cleanup] on its own does not deactivate the profile.  After a
    [cleanup] in which every close succeeds, every client is still in the
    client set, without its transport: a second [cleanup] makes no call at
    all, the tools are listed as before, and a call of a listed tool still
    goes out, to the client that is now disconnected. *)
Theorem cleanup_then_idle env s :
  NoDup (JSMap.keys (clients s)) ->
  (forall id c t,
     JSMap.get (clients s) id = Some c ->
     Client.transport c = Some t ->
     Transport_close env t = Normal tt) ->
  let s1 := state (cleanup env s) in
  (forall id c,
     JSMap.get (clients s) id = Some c ->
     JSMap.get (clients s1) id
     = Some (Client.mk (Client.name c) (Client.version c) None)) /\
  (forall env', events (cleanup env' s1) = []) /\
  result (handleListTools s1) = result (handleListTools s) /\
  (forall env' request info c,
     JSMap.get (toolMap s) (params_name (params request)) = Some info ->
     JSMap.get (clients s) (serverId info) = Some c ->
     events (handleCallTool env' request s1)
     = [CallTool (Client.mk (Client.name c) (Client.version c) None)
          (Tool.name (tool info))
          (args_or_default (params_arguments (params request)))]).
Proof.
  intros Hnd Hclose s1. subst s1.
  destruct (cleanup_spec env s) as (_ & Ht & Hm & _ & Hp & _).
  pose proof (cleanup_clients env s Hnd) as Hcl.
  assert (Hafter : forall id c,
    JSMap.get (clients s) id = Some c ->
    after_close env c = disconnected c).
  { intros id c Hget. unfold after_close.
    destruct (Client.transport c) as [t |] eqn:Htr.
    - now rewrite (Hclose id c t Hget Htr).
    - destruct c as [n v tr]. simpl in Htr. subst tr. reflexivity. }
  assert (Hget1 : forall id c,
    JSMap.get (clients s) id = Some c ->
    JSMap.get (clients (state (cleanup env s))) id = Some (disconnected c)).
  { intros id c Hget. rewrite Hcl, get_map_values, Hget. simpl.
    f_equal. exact (Hafter id c Hget). }
  split; [exact Hget1 |]. split; [| split].
  - intro env'. rewrite cleanup_calls, Ht, Hcl. simpl.
    apply flat_map_nil_all. intros [id c'] Hin.
    apply in_map_iff in Hin. destruct Hin as ([id0 c] & Heq & Hin).
    injection Heq as <- <-.
    rewrite (Hafter id0 c (@In_get _ _ _ _ Hnd Hin)). reflexivity.
  - change (Normal {| tools :=
                       map (decorate
                              (currentProfile (state (cleanup env s))))
                           (JSMap.values (toolMap (state (cleanup env s)))) |}
            = result (handleListTools s)).
    now rewrite Hm, Hp.
  - intros env' request info c Hinfo Hc.
    rewrite <- Hm in Hinfo.
    rewrite (handleCallTool_forwarded env' _ request Hinfo
               (Hget1 _ _ Hc)).
    reflexivity.
Qed.

Lemma cleanup_then_idle_witness :
  let s := Scenario.serving in
  let s1 := state (cleanup Sample.env s) in
  NoDup (JSMap.keys (clients s)) /\
  (forall id c t,
     JSMap.get (clients s) id = Some c ->
     Client.transport c = Some t ->
     Transport_close Sample.env t = Normal tt) /\
  (forall id c,
     JSMap.get (clients s) id = Some c ->
     JSMap.get (clients s1) id
     = Some (Client.mk (Client.name c) (Client.version c) None)) /\
  (forall env', events (cleanup env' s1) = []) /\
  result (handleListTools s1) = result (handleListTools s) /\
  (forall env' request info c,
     JSMap.get (toolMap s) (params_name (params request)) = Some info ->
     JSMap.get (clients s) (serverId info) = Some c ->
     events (handleCallTool env' request s1)
     = [CallTool (Client.mk (Client.name c) (Client.version c) None)
          (Tool.name (tool info))
          (args_or_default (params_arguments (params request)))]).
Proof.
  assert (Hnd : NoDup (JSMap.keys (clients Scenario.serving)))
    by (simpl; constructor; [intros [] | constructor]).
  assert (Hclose : forall (id : string) (c : Client.t) (t : Transport),
    JSMap.get (clients Scenario.serving) id = Some c ->
    Client.transport c = Some t ->
    Transport_close Sample.env t = Normal tt) by reflexivity.
  split; [exact Hnd |]. split; [exact Hclose |].
  exact (cleanup_then_idle Sample.env Scenario.serving Hnd Hclose).
Defined.

(** After the teardown of the sample deployment, a call of the listed
    tool is answered with the error of the disconnected client. *)
Example call_after_cleanup :
  let s1 := state (cleanup Sample.env Scenario.serving) in
  result (handleCallTool Sample.env
            (Sample.call_request "kubernetes_get_pods") s1)
  = Normal
      (error_response
         "Error calling tool kubernetes_get_pods: Error: Not connected"
         (Some {| progressToken := Some (inl "t-1") |})).
Proof. reflexivity. Qed.

(** X3.  A profile switch ends every caller session, whether or not the
    new profile loads: [close] is called on each registered session and
    the session map is empty afterwards. *)
Theorem switchProfile_ends_sessions env p s :
  let o := switchProfile env p s in
  transports (state o) = [] /\
  (forall t, In t (JSObject.values (transports s)) ->
             In (CloseSession t) (events o)).
Proof.
  intro o. subst o. split.
  - destruct (config_on_disk env p) as [c | e] eqn:Hload.
    + rewrite (proj2 (switchProfile_loaded env p s Hload)).
      exact (proj1 (connect_all_frame env (switch_failed_message p)
                      (fresh_profile c p))).
    + rewrite (proj2 (switchProfile_failed env p s Hload)). reflexivity.
  - intros t Hin. unfold switchProfile.
    rewrite (events_bind _ _ _ (proj1 (cleanup_returns env s))).
    apply in_or_app. left. now apply cleanup_closes_session.
Qed.

Lemma switchProfile_ends_sessions_witness :
  let s := Scenario.serving in
  let o := switchProfile Sample.env "ops" s in
  In Scenario.session_a (JSObject.values (transports s)) /\
  transports (state o) = [] /\
  (forall t, In t (JSObject.values (transports s)) ->
             In (CloseSession t) (events o)).
Proof.
  split; [now left |].
  exact (switchProfile_ends_sessions Sample.env "ops" Scenario.serving).
Defined.

(* ------------------------------------------------------------------ *)
(** ** Further properties: starting *)

(** Two loops whose turns end alike end alike. *)
Lemma for_of_ext {A} (xs : list A) (b1 b2 : A -> M unit) :
  (forall x s, result (b1 x s) = result (b2 x s) /\
               state (b1 x s) = state (b2 x s)) ->
  forall s, result (for_of xs b1 s) = result (for_of xs b2 s) /\
            state (for_of xs b1 s) = state (for_of xs b2 s).
Proof.
  intro Hb. induction xs as [| x xs IH]; intro s; [now split |].
  simpl. unfold bind. destruct (Hb x s) as [Hr Hs]. rewrite Hr, Hs.
  destruct (result (b2 x s)); simpl; [apply IH | now split].
Qed.

(** The text of the log line of a failed backend does not matter to how
    the loop over the backends ends. *)
Lemma connect_all_any_message env f1 f2 s :
  result (connect_all env f1 s) = result (connect_all env f2 s) /\
  state (connect_all env f1 s) = state (connect_all env f2 s).
Proof.
  unfold connect_all.
  match goal with
  | |- context [bind (gets ?g) ?f s] =>
      destruct (bind_after f (returns_gets g s)) as [-> ->]
  end.
  match goal with
  | |- context [bind (gets ?g) ?f s] =>
      destruct (bind_after f (returns_gets g s)) as [-> ->]
  end.
  cbv beta. apply for_of_ext. intros [id cfg] s0.
  destruct (guarded_connect env (f1 id) id cfg s0) as [-> ->].
  destruct (guarded_connect env (f2 id) id cfg s0) as [-> ->].
  now split.
Qed.

Lemma serve_calls env mode port host s :
  In (serve_call mode port host) (events (serve env mode port host s)).
Proof.
  unfold serve, serve_call. destruct (String.eqb mode "stdio").
  - unfold bind, call. simpl.
    destruct (Server_connect_stdio env) as [[] | e]; simpl; now left.
  - now left.
Qed.

Lemma events_bind_later {A B} (m : M A) (f : A -> M B) s a ev :
  result (m s) = Normal a ->
  In ev (events (f a (state (m s)))) ->
  In ev (events (bind m f s)).
Proof.
  intros Hr Hin. rewrite (events_bind _ _ _ Hr). apply in_or_app. now right.
Qed.

Lemma start_loaded env p mode port host c s :
  config_on_disk env p = Normal c ->
  (result (start env p mode port host s) = serve_answer env mode port host /\
   state (start env p mode port host s)
   = state (connect_all env start_failed_message
              (set_currentProfile p (set_config c s)))) /\
  In (serve_call mode port host) (events (start env p mode port host s)).
Proof.
  intro Hload. split.
  - unfold start.
    match goal with
    | |- context [bind (readConfig env p) ?f s] =>
        destruct (bind_after f (readConfig_returns env p s Hload))
          as [-> ->]; cbv beta
    end.
    match goal with
    | |- context [bind (modify ?g) ?f ?s1] =>
        destruct (bind_after f (returns_modify g s1)) as [-> ->]; cbv beta
    end.
    match goal with
    | |- context [bind (connect_all env ?m) ?f ?s1] =>
        assert (Hloop : returns (connect_all env m) s1 tt
                          (state (connect_all env m s1)))
          by (split; [apply connect_all_returns | reflexivity]);
        destruct (bind_after f Hloop) as [-> ->]; cbv beta
    end.
    destruct (serve_out env mode port host
                (state (connect_all env start_failed_message
                          (set_currentProfile p (set_config c s)))))
      as [Hs Hr].
    now split.
  - unfold start.
    eapply events_bind_later;
      [exact (proj1 (readConfig_returns env p s Hload)) |].
    eapply events_bind_later; [reflexivity |].
    eapply events_bind_later; [apply connect_all_returns |].
    apply serve_calls.
Qed.

(** X4.  [start] with a profile that cannot be loaded throws "Failed to
    load profile <name>" and leaves the whole state as it was, in either
    mode: unlike [switchProfile] it tears nothing down, and it contacts no
    backend and sets up no caller-facing transport. *)
Theorem start_unloadable env p mode port host s e :
  config_on_disk env p = Throw e ->
  let o := start env p mode port host s in
  result o = Throw (new_Error ("Failed to load profile " ++ p)) /\
  state o = s /\
  (forall ev, In ev (events o) -> touches_no_backend ev).
Proof.
  intros Hload o. subst o.
  destruct (throws_bind_left
              (fun _ => modify (set_currentProfile p) ;;
                        connect_all env start_failed_message ;;
                        serve env mode port host)
              (readConfig_throws env p s Hload)) as [Hr Hs].
  split; [exact Hr |]. split; [exact Hs |].
  intros ev Hin. unfold start in Hin.
  rewrite (events_bind_throw _ _ _
             (proj1 (readConfig_throws env p s Hload))) in Hin.
  revert Hin. unfold config_on_disk in Hload.
  unfold readConfig, try_catch, bind, call, lift. simpl.
  destruct (fs_readFile env _) as [data |]; simpl.
  - rewrite Hload. simpl. intros [<- | [<- | []]]; exact I.
  - intros [<- | [<- | []]]; exact I.
Qed.

Lemma start_unloadable_witness :
  let o := start Sample.env "nope" "stdio" (Num 3000) "localhost"
             Sample.dev_state in
  config_on_disk Sample.env "nope"
  = Throw (new_Error
             "ENOENT: no such file or directory, open '/srv/config.nope.json'")
  /\
  result o = Throw (new_Error ("Failed to load profile " ++ "nope")) /\
  state o = Sample.dev_state /\
  (forall ev, In ev (events o) -> touches_no_backend ev).
Proof.
  split; [reflexivity |].
  apply (start_unloadable Sample.env "nope" "stdio" (Num 3000) "localhost"
           Sample.dev_state
           (e := new_Error
              "ENOENT: no such file or directory, open '/srv/config.nope.json'")).
  reflexivity.
Defined.

(** Whatever exit [connectToServer] takes, the clients that were in the
    map stay in it, unchanged. *)
Lemma connect_exit_keeps_clients env id cfg s r s' :
  connect_exit env id cfg s r s' ->
  forall id' c, JSMap.get (clients s) id' = Some c ->
                JSMap.get (clients s') id' = Some c.
Proof.
  intros Hexit id' c Hget.
  assert (Hset : forall v, JSMap.has (clients s) id = false ->
            JSMap.get (JSMap.set (clients s) id v) id' = Some c).
  { intros v Hhas. rewrite JSMapFacts.get_set.
    destruct (String.eqb id id') eqn:E; [| exact Hget].
    apply String.eqb_eq in E. subst id'.
    unfold JSMap.has in Hhas. rewrite Hget in Hhas. discriminate. }
  destruct Hexit; try assumption; simpl; now apply Hset.
Qed.

(** Whatever exit [connectToServer] takes, the names that were in the
    registry stay in it. *)
Lemma connect_exit_keeps_names env id cfg s r s' :
  connect_exit env id cfg s r s' ->
  forall k, JSMap.get (toolMap s) k <> None ->
            JSMap.get (toolMap s') k <> None.
Proof.
  intros Hexit k Hk.
  destruct Hexit as [| | | | t reported _ _ _ _]; try assumption.
  simpl. unfold register_all.
  generalize dependent (toolMap s). clear.
  induction reported as [| a ts IH]; intros m Hk; cbn [fold_left];
    [exact Hk |].
  apply IH. rewrite JSMapFacts.get_set.
  destruct (String.eqb (id ++ "_" ++ Tool.name a) k);
    [intro H; discriminate H | exact Hk].
Qed.

(** X5.  [start] with a profile whose file reads and parses to a
    configuration of the declared shape (an object with its [mcpServers];
    a file without one is not a [ServerConfig] and is not covered) goes on
    to set up the caller-facing transport whatever the backends do, and
    completes as that set-up does: it returns when [server.connect] (mode
    [stdio]) or [listen] (any other mode) returns, and throws their error
    otherwise.  Either way the profile is current and its configuration
    loaded, and nothing was torn down: the sessions, the clients and the
    registered names the proxy had before are still there. *)
Theorem start_activates env p mode port host c s :
  config_on_disk env p = Normal c ->
  let o := start env p mode port host s in
  result o
  = (if String.eqb mode "stdio" then Server_connect_stdio env
     else app_listen env port host) /\
  In (if String.eqb mode "stdio" then ServeStdio else Listen port host)
     (events o) /\
  currentProfile (state o) = p /\
  config (state o) = c /\
  transports (state o) = transports s /\
  (forall id c0, JSMap.get (clients s) id = Some c0 ->
                 JSMap.get (clients (state o)) id = Some c0) /\
  (forall k, JSMap.get (toolMap s) k <> None ->
             JSMap.get (toolMap (state o)) k <> None).
Proof.
  intros Hload o. subst o.
  destruct (start_loaded env p mode port host s Hload) as [[Hr Hs] Hev].
  rewrite Hs.
  destruct (connect_all_frame env start_failed_message
              (set_currentProfile p (set_config c s))) as (Ht & Hc & Hp).
  split; [exact Hr |]. split; [exact Hev |].
  split; [exact Hp |]. split; [exact Hc |]. split; [exact Ht |].
  apply (connect_all_invariant (env := env)
           (fun s0 =>
              (forall id c0, JSMap.get (clients s) id = Some c0 ->
                             JSMap.get (clients s0) id = Some c0) /\
              (forall k, JSMap.get (toolMap s) k <> None ->
                         JSMap.get (toolMap s0) k <> None))).
  - intros id cfg s0 r s' _ [Hcl Htm] Hexit. split.
    + intros id' c0 Hget.
      exact (connect_exit_keeps_clients Hexit id' (Hcl id' c0 Hget)).
    + intros k Hk. exact (connect_exit_keeps_names Hexit k (Htm k Hk)).
  - split; intros; assumption.
Qed.

Lemma start_activates_witness :
  let o := start Sample.env "ops" "sse" NaN "localhost" Sample.dev_state in
  config_on_disk Sample.env "ops" = Normal Sample.ops_config /\
  result o
  = Throw (mkError "RangeError"
             "options.port should be >= 0 and < 65536. Received type number (NaN).")
  /\
  result o
  = (if String.eqb "sse" "stdio" then Server_connect_stdio Sample.env
     else app_listen Sample.env NaN "localhost") /\
  In (if String.eqb "sse" "stdio" then ServeStdio else Listen NaN "localhost")
     (events o) /\
  currentProfile (state o) = "ops" /\
  config (state o) = Sample.ops_config /\
  transports (state o) = transports Sample.dev_state /\
  (forall id c0, JSMap.get (clients Sample.dev_state) id = Some c0 ->
                 JSMap.get (clients (state o)) id = Some c0) /\
  (forall k, JSMap.get (toolMap Sample.dev_state) k <> None ->
             JSMap.get (toolMap (state o)) k <> None).
Proof.
  split; [reflexivity |]. split; [reflexivity |].
  apply (start_activates Sample.env "ops" "sse" NaN "localhost"
           (c := Sample.ops_config) Sample.dev_state).
  reflexivity.
Defined.

(** Started in [stdio] mode on top of profile [dev], profile [ops] is
    added to it: the backends and tools of both are there, under the name
    [ops], and the last thing done is to connect the server and say so. *)
Example start_on_active_profile :
  let o := start Sample.env "ops" "stdio" (Num 3000) "localhost"
             Sample.dev_state in
  result o = Normal tt /\
  JSMap.keys (clients (state o)) = ["kubernetes"; "files"] /\
  JSMap.keys (toolMap (state o)) = ["kubernetes_get_pods"; "files_read_file"]
  /\
  currentProfile (state o) = "ops" /\
  events o
  = [ ReadFile "/srv/config.ops.json";
      Connect (new_Client "files")
              (SSEClientTransport "http://localhost:9000/sse");
      ListTools (connected (new_Client "files")
                   (SSEClientTransport "http://localhost:9000/sse"));
      LogInfo "Connected to files with tools:" ["read_file"];
      ServeStdio;
      LogInfo "MCP Server Proxy running on stdio with profile ops" [] ].
Proof. repeat split. Qed.

(** X6.  On a new proxy, [start] loads and connects a profile as
    [switchProfile] does: the configuration, the client set, the registry,
    the current profile and the session map end the same, whatever the
    backends answer.  If the profile does not load both throw the same
    error; if it loads, [switchProfile] returns and [start] goes on to set
    up the caller-facing transport and completes as that does. *)
Theorem start_as_first_switch env p mode port host :
  let o1 := start env p mode port host initial_state in
  let o2 := switchProfile env p initial_state in
  config (state o1) = config (state o2) /\
  clients (state o1) = clients (state o2) /\
  toolMap (state o1) = toolMap (state o2) /\
  currentProfile (state o1) = currentProfile (state o2) /\
  transports (state o1) = transports (state o2) /\
  (forall e, result o2 = Throw e -> result o1 = Throw e) /\
  (result o2 = Normal tt ->
   result o1
   = (if String.eqb mode "stdio" then Server_connect_stdio env
      else app_listen env port host)).
Proof.
  intros o1 o2. subst o1 o2.
  destruct (config_on_disk env p) as [c | e] eqn:Hload.
  - destruct (start_loaded env p mode port host initial_state Hload)
      as [[Hr ->] _].
    destruct (switchProfile_loaded env p initial_state Hload) as [Hr2 ->].
    destruct (connect_all_any_message env start_failed_message
                (switch_failed_message p) (fresh_profile c p)) as [_ Hs].
    change (set_currentProfile p (set_config c initial_state))
      with (fresh_profile c p).
    rewrite Hs. do 5 (split; [reflexivity |]).
    split.
    + intros e He. rewrite Hr2, connect_all_returns in He. discriminate.
    + intros _. exact Hr.
  - destruct (throws_bind_left
                (fun _ => modify (set_currentProfile p) ;;
                          connect_all env start_failed_message ;;
                          serve env mode port host)
                (readConfig_throws env p initial_state Hload)) as [Hr Hs].
    destruct (switchProfile_failed env p initial_state Hload) as [Hr' Hs'].
    unfold start. rewrite Hr, Hs, Hs'.
    do 5 (split; [reflexivity |]).
    split.
    + intros e0 He. now rewrite <- He, Hr'.
    + intro H. rewrite Hr' in H. discriminate.
Qed.

(* ------------------------------------------------------------------ *)
(** ** Further properties: connecting one backend *)

Section ConnectFacts.
Variable env : Env.
Variable id : string.
Variable cfg : BackendConfig.
Variable s : State.
Hypothesis Habsent : JSMap.has (clients s) id = false.

(** No transport: nothing is called, nothing changes. *)
Lemma connectToServer_no_transport e :
  make_transport env cfg = Throw e ->
  connectToServer env id cfg s
  = {| result := Throw e; state := s; events := [] |}.
Proof.
  intro Ht. unfold connectToServer, bind at 1. simpl. rewrite Habsent.
  unfold bind at 1, lift. simpl. rewrite Ht. reflexivity.
Qed.

(** The connection is refused: the one call is recorded, nothing
    changes. *)
Lemma connectToServer_refused t e :
  make_transport env cfg = Normal t ->
  Client_connect env (new_Client id) t = Throw e ->
  connectToServer env id cfg s
  = {| result := Throw e; state := s;
       events := [Connect (new_Client id) t] |}.
Proof.
  intros Ht Hc. unfold connectToServer, bind at 1. simpl. rewrite Habsent.
  unfold bind at 1, lift. simpl. rewrite Ht. simpl.
  unfold bind at 1, call. simpl. rewrite Hc. reflexivity.
Qed.

(** The client connects and then fails to list its tools. *)
Lemma connectToServer_listing_failed t e :
  make_transport env cfg = Normal t ->
  Client_connect env (new_Client id) t = Normal tt ->
  Client_listTools env (connected (new_Client id) t) = Throw e ->
  connectToServer env id cfg s
  = {| result := Throw e;
       state :=
         set_clients
           (JSMap.set (clients s) id (connected (new_Client id) t)) s;
       events := [Connect (new_Client id) t;
                  ListTools (connected (new_Client id) t)] |}.
Proof.
  intros Ht Hc Hl. unfold connectToServer, bind at 1. simpl.
  rewrite Habsent.
  unfold bind at 1, lift. simpl. rewrite Ht. simpl.
  unfold bind at 1, call. simpl. rewrite Hc. simpl.
  unfold bind at 1. simpl. unfold bind at 1. simpl. rewrite Hl. reflexivity.
Qed.

(** With a transport, the first call is the connection through it. *)
Lemma connectToServer_first_call t :
  make_transport env cfg = Normal t ->
  exists rest,
    events (connectToServer env id cfg s) = Connect (new_Client id) t :: rest.
Proof.
  intro Ht. unfold connectToServer, bind at 1. simpl. rewrite Habsent.
  unfold bind at 1, lift. simpl. rewrite Ht. simpl.
  unfold bind at 1, call. simpl.
  destruct (Client_connect env (new_Client id) t) as [[] | e]; simpl;
    eexists; reflexivity.
Qed.
End ConnectFacts.

(** X7.  How [connectToServer] picks the transport of a backend that is
    not connected yet.  A [command] gives a stdio transport, even when a
    [url] is there too; a [url] alone gives an SSE transport to the parsed
    URL, and if it does not parse the error is thrown before any call; with
    neither key the call throws "Command or url not found in config".  In
    the two failing cases the state is unchanged. *)
Theorem connectToServer_transport_choice env id cfg s :
  JSMap.has (clients s) id = false ->
  let o := connectToServer env id cfg s in
  match command cfg, url cfg with
  | Some c, _ =>
      exists rest,
        events o
        = Connect (new_Client id) (StdioClientTransport c (args cfg)) :: rest
  | None, Some u =>
      match new_URL env u with
      | Normal href =>
          exists rest,
            events o
            = Connect (new_Client id) (SSEClientTransport href) :: rest
      | Throw e => o = {| result := Throw e; state := s; events := [] |}
      end
  | None, None =>
      o = {| result := Throw (new_Error "Command or url not found in config");
             state := s; events := [] |}
  end.
Proof.
  intros Habsent o. subst o.
  destruct (command cfg) as [c |] eqn:Hc; [| destruct (url cfg) as [u |] eqn:Hu].
  - apply connectToServer_first_call; [exact Habsent |].
    unfold make_transport. rewrite Hc. reflexivity.
  - destruct (new_URL env u) as [href | e] eqn:Hurl.
    + apply connectToServer_first_call; [exact Habsent |].
      unfold make_transport. rewrite Hc, Hu, Hurl. reflexivity.
    + apply connectToServer_no_transport; [exact Habsent |].
      unfold make_transport. rewrite Hc, Hu, Hurl. reflexivity.
  - apply connectToServer_no_transport; [exact Habsent |].
    unfold make_transport. rewrite Hc, Hu. reflexivity.
Qed.

Lemma connectToServer_transport_choice_witness :
  let cfg := {| command := Some "npx"; args := None;
                url := Some "http://localhost:9000/sse" |} in
  let o := connectToServer Sample.env "both" cfg initial_state in
  JSMap.has (clients initial_state) "both" = false /\
  exists rest,
    events o
    = Connect (new_Client "both") (StdioClientTransport "npx" None) :: rest.
Proof.
  split; [reflexivity |].
  exact (connectToServer_transport_choice Sample.env "both"
           {| command := Some "npx"; args := None;
              url := Some "http://localhost:9000/sse" |}
           initial_state eq_refl).
Defined.

(** X8.  When the connection of a backend is refused, [connectToServer]
    throws the error of [client.connect] and leaves the state as it was:
    the client is not put in the client set, so the id is still absent and a
    later call for it tries to connect again. *)
Theorem connectToServer_refused_leaves_no_trace env id cfg s t e :
  JSMap.has (clients s) id = false ->
  make_transport env cfg = Normal t ->
  Client_connect env (new_Client id) t = Throw e ->
  let o := connectToServer env id cfg s in
  result o = Throw e /\
  state o = s /\
  events o = [Connect (new_Client id) t] /\
  (forall env' cfg' t',
     make_transport env' cfg' = Normal t' ->
     exists rest,
       events (connectToServer env' id cfg' (state o))
       = Connect (new_Client id) t' :: rest).
Proof.
  intros Habsent Ht Hc o. subst o.
  rewrite (connectToServer_refused env id cfg s Habsent Ht Hc). simpl.
  repeat split.
  intros env' cfg' t' Ht'.
  now apply connectToServer_first_call.
Qed.

Lemma connectToServer_refused_leaves_no_trace_witness :
  let cfg := {| command := Some "docker"; args := Some ["mcp"];
                url := None |} in
  let t := StdioClientTransport "docker" (Some ["mcp"]) in
  let o := connectToServer Sample.env "docker" cfg Sample.dev_state in
  result o = Throw (new_Error "spawn docker ENOENT") /\
  state o = Sample.dev_state /\
  events o = [Connect (new_Client "docker") t] /\
  (forall env' cfg' t',
     make_transport env' cfg' = Normal t' ->
     exists rest,
       events (connectToServer env' "docker" cfg' (state o))
       = Connect (new_Client "docker") t' :: rest).
Proof.
  exact (connectToServer_refused_leaves_no_trace Sample.env "docker"
           {| command := Some "docker"; args := Some ["mcp"]; url := None |}
           Sample.dev_state
           (t := StdioClientTransport "docker" (Some ["mcp"]))
           (e := new_Error "spawn docker ENOENT")
           eq_refl eq_refl eq_refl).
Defined.

(** X9.  When a backend connects but listing its tools fails,
    [connectToServer] throws that error with the client already in the
    client set: connected, with no tool in the registry, and not closed.
    From then on [connectToServer] skips the id, so the listing is not
    tried again before the next profile switch. *)
Theorem connectToServer_listing_failure env id cfg s t e :
  JSMap.has (clients s) id = false ->
  make_transport env cfg = Normal t ->
  Client_connect env (new_Client id) t = Normal tt ->
  Client_listTools env (connected (new_Client id) t) = Throw e ->
  let o := connectToServer env id cfg s in
  result o = Throw e /\
  JSMap.get (clients (state o)) id = Some (connected (new_Client id) t) /\
  toolMap (state o) = toolMap s /\
  events o = [Connect (new_Client id) t;
              ListTools (connected (new_Client id) t)] /\
  (forall env' cfg',
     connectToServer env' id cfg' (state o)
     = {| result := Normal tt; state := state o; events := [] |}).
Proof.
  intros Habsent Ht Hc Hl o. subst o.
  rewrite (connectToServer_listing_failed env id cfg s Habsent Ht Hc Hl).
  simpl.
  split; [reflexivity |].
  split; [rewrite JSMapFacts.get_set, String.eqb_refl; reflexivity |].
  split; [reflexivity |]. split; [reflexivity |].
  intros env' cfg'. apply connectToServer_skips. simpl. apply has_set_same.
Qed.

Lemma connectToServer_listing_failure_witness :
  let t := StdioClientTransport "npx" (Some ["mcp-server-kubernetes"]) in
  let o := connectToServer Scenario.mute "kubernetes"
             Scenario.kubernetes_config initial_state in
  result o = Throw (new_Error "Request timed out") /\
  JSMap.get (clients (state o)) "kubernetes"
  = Some (connected (new_Client "kubernetes") t) /\
  toolMap (state o) = toolMap initial_state /\
  events o = [Connect (new_Client "kubernetes") t;
              ListTools (connected (new_Client "kubernetes") t)] /\
  (forall env' cfg',
     connectToServer env' "kubernetes" cfg' (state o)
     = {| result := Normal tt; state := state o; events := [] |}).
Proof.
  exact (connectToServer_listing_failure Scenario.mute "kubernetes"
           Scenario.kubernetes_config initial_state
           (t := StdioClientTransport "npx" (Some ["mcp-server-kubernetes"]))
           (e := new_Error "Request timed out")
           eq_refl eq_refl eq_refl eq_refl).
Defined.

(* ------------------------------------------------------------------ *)
(** ** Further properties: the registry after a connection *)

Lemma append_inv_head (p a b : string) : p ++ a = p ++ b -> a = b.
Proof.
  induction p as [| c p IH]; simpl; intro H; [exact H |].
  injection H as H. exact (IH H).
Qed.

Lemma prefixed_name_inj (id a b : string) :
  id ++ "_" ++ a = id ++ "_" ++ b -> a = b.
Proof.
  intro H. apply append_inv_head in H. now apply append_inv_head in H.
Qed.

Lemma NoDup_map_eq {A B} (f : A -> B) (l : list A) x y :
  NoDup (map f l) -> In x l -> In y l -> f x = f y -> x = y.
Proof.
  induction l as [| a l IH]; simpl; intros Hnd Hx Hy Hf; [contradiction |].
  inversion Hnd as [| ? ? Hnot Hrest]; subst.
  destruct Hx as [-> | Hx], Hy as [-> | Hy].
  - reflexivity.
  - exfalso. apply Hnot. rewrite Hf. now apply in_map.
  - exfalso. apply Hnot. rewrite <- Hf. now apply in_map.
  - now apply IH.
Qed.

(** After the tools of a backend are stored, each of their names leads to
    an entry of that backend: the last reported tool of that name. *)
Lemma register_all_lookup id (all : list Tool.t) t :
  forall ts m,
    incl ts all ->
    (In t ts \/
     exists t', JSMap.get m (id ++ "_" ++ Tool.name t)
                = Some {| serverId := id; tool := t' |} /\
                Tool.name t' = Tool.name t /\ In t' all) ->
    exists t', JSMap.get (register_all id ts m) (id ++ "_" ++ Tool.name t)
               = Some {| serverId := id; tool := t' |} /\
               Tool.name t' = Tool.name t /\ In t' all.
Proof.
  unfold register_all.
  induction ts as [| a ts IH]; intros m Hincl H; cbn [fold_left].
  - destruct H as [[] | H]. exact H.
  - apply IH; [intros x Hx; apply Hincl; now right |].
    destruct (String.eqb (Tool.name a) (Tool.name t)) eqn:E.
    + right. exists a. apply String.eqb_eq in E.
      rewrite JSMapFacts.get_set, E, String.eqb_refl.
      repeat split. apply Hincl. now left.
    + assert (Hne : String.eqb (id ++ "_" ++ Tool.name a)
                               (id ++ "_" ++ Tool.name t) = false).
      { apply String.eqb_neq. intro Heq. apply prefixed_name_inj in Heq.
        rewrite Heq, String.eqb_refl in E. discriminate. }
      destruct H as [[-> | Hin] | (t' & Hget & Hname & Hall)].
      * rewrite String.eqb_refl in E. discriminate.
      * now left.
      * right. exists t'. rewrite JSMapFacts.get_set, Hne. now repeat split.
Qed.

(** The other names of the registry are not touched. *)
Lemma register_all_other id ts m k :
  (forall t, In t ts -> k <> id ++ "_" ++ Tool.name t) ->
  JSMap.get (register_all id ts m) k = JSMap.get m k.
Proof.
  unfold register_all. revert m.
  induction ts as [| a ts IH]; intros m Hk; cbn [fold_left]; [reflexivity |].
  rewrite IH by (intros t Ht; apply Hk; now right).
  rewrite JSMapFacts.get_set.
  destruct (String.eqb (id ++ "_" ++ Tool.name a) k) eqn:E; [| reflexivity].
  apply String.eqb_eq in E. elim (Hk a (or_introl eq_refl)). now symmetry.
Qed.

(** How [connectToServer] ends for a backend that connects. *)
Lemma connectToServer_connected env id cfg s reported :
  JSMap.has (clients s) id = false ->
  backend_connects env id cfg reported ->
  exists t,
    make_transport env cfg = Normal t /\
    result (connectToServer env id cfg s) = Normal tt /\
    state (connectToServer env id cfg s)
    = set_toolMap (register_all id reported (toolMap s))
        (set_clients
           (JSMap.set (clients s) id (connected (new_Client id) t)) s).
Proof.
  intros Habsent (t & Ht & Hc & Hl). exists t. split; [exact Ht |].
  generalize (connectToServer_exits env id cfg s).
  generalize (result (connectToServer env id cfg s))
             (state (connectToServer env id cfg s)).
  intros r st Hexit.
  destruct Hexit as [Hhas | e _ Ht' | t' e _ Ht' Hc' | t' e _ Ht' Hc' Hl'
                     | t' reported' _ Ht' Hc' Hl'].
  - congruence.
  - congruence.
  - rewrite Ht in Ht'. injection Ht' as <-. congruence.
  - rewrite Ht in Ht'. injection Ht' as <-. congruence.
  - rewrite Ht in Ht'. injection Ht' as <-.
    rewrite Hl in Hl'. injection Hl' as <-. now split.
Qed.

Lemma find_snoc {A} (f : A -> bool) (l : list A) (a : A) :
  find f (l ++ [a])
  = match find f l with
    | Some x => Some x
    | None => if f a then Some a else None
    end.
Proof.
  induction l as [| x l IH]; simpl; [reflexivity |].
  destruct (f x); [reflexivity | exact IH].
Qed.

Lemma prefixed_name_eqb (id a b : string) :
  String.eqb (id ++ "_" ++ a) (id ++ "_" ++ b) = String.eqb a b.
Proof.
  destruct (String.eqb a b) eqn:E.
  - apply String.eqb_eq in E. subst. apply String.eqb_refl.
  - apply String.eqb_neq. intro H. apply prefixed_name_inj in H.
    subst. rewrite String.eqb_refl in E. discriminate.
Qed.

(** What a name of the backend leads to after its tools are stored: the
    last reported tool of that name, or what the name led to before when no
    reported tool has it. *)
Lemma register_all_last id ts n :
  forall m,
    JSMap.get (register_all id ts m) (id ++ "_" ++ n)
    = match find (fun t => String.eqb (Tool.name t) n) (rev ts) with
      | Some t => Some {| serverId := id; tool := t |}
      | None => JSMap.get m (id ++ "_" ++ n)
      end.
Proof.
  unfold register_all.
  induction ts as [| a ts IH]; intro m; cbn [fold_left rev];
    [reflexivity |].
  rewrite IH, find_snoc, JSMapFacts.get_set, prefixed_name_eqb.
  destruct (find _ (rev ts)); [reflexivity |].
  now destruct (String.eqb (Tool.name a) n).
Qed.

Lemma find_rev_In {A} (f : A -> bool) (l : list A) x :
  In x l -> f x = true -> exists y, find f (rev l) = Some y.
Proof.
  intros Hin Hf.
  destruct (find f (rev l)) as [y |] eqn:E; [now exists y |].
  pose proof (find_none f (rev l) E x) as Hnone.
  rewrite Hf in Hnone. discriminate Hnone. now apply in_rev in Hin.
Qed.

(** X10.  Insert, then look up.  When a backend that is not in the client
    set connects and reports its tools, [connectToServer] returns with the
    backend in the client set, and for every reported tool the name
    [<id>_<tool name>] leads to an entry of this backend: the one holding
    the last tool reported under that name (the first with that name in the
    reversed report), whatever the name led to before.  When the reported
    names are distinct that is the tool itself.  Names that are not of this
    form keep the entry they had. *)
Theorem connectToServer_registers env id cfg s reported :
  JSMap.has (clients s) id = false ->
  backend_connects env id cfg reported ->
  let o := connectToServer env id cfg s in
  result o = Normal tt /\
  JSMap.has (clients (state o)) id = true /\
  (forall t, In t reported ->
     exists last,
       find (fun t' => String.eqb (Tool.name t') (Tool.name t))
            (rev reported) = Some last /\
       JSMap.get (toolMap (state o)) (id ++ "_" ++ Tool.name t)
       = Some {| serverId := id; tool := last |}) /\
  (NoDup (map Tool.name reported) ->
   forall t, In t reported ->
     JSMap.get (toolMap (state o)) (id ++ "_" ++ Tool.name t)
     = Some {| serverId := id; tool := t |}) /\
  (forall k,
     (forall t, In t reported -> k <> id ++ "_" ++ Tool.name t) ->
     JSMap.get (toolMap (state o)) k = JSMap.get (toolMap s) k).
Proof.
  intros Habsent Hconn o. subst o.
  destruct (connectToServer_connected s Habsent Hconn) as (t0 & _ & Hr & Hs).
  rewrite Hr, Hs. cbn [toolMap clients set_toolMap set_clients].
  assert (Hlookup : forall t, In t reported ->
    exists last,
      find (fun t' => String.eqb (Tool.name t') (Tool.name t))
           (rev reported) = Some last /\
      JSMap.get (register_all id reported (toolMap s))
                (id ++ "_" ++ Tool.name t)
      = Some {| serverId := id; tool := last |}).
  { intros t Hin. rewrite register_all_last.
    destruct (find_rev_In
                (fun t' => String.eqb (Tool.name t') (Tool.name t))
                reported t Hin (String.eqb_refl _)) as [last Hlast].
    exists last. rewrite Hlast. now split. }
  split; [reflexivity |]. split; [apply has_set_same |].
  split; [exact Hlookup |]. split.
  - intros Hnd t Hin. destruct (Hlookup t Hin) as (last & Hfind & Hget).
    rewrite Hget. repeat f_equal.
    destruct (find_some _ _ Hfind) as [Hin' Hname].
    apply String.eqb_eq in Hname. apply in_rev in Hin'.
    exact (NoDup_map_eq Tool.name reported last t Hnd Hin' Hin Hname).
  - intros k Hk. now apply register_all_other.
Qed.

(** [kubernetes_get] is connected and its tool [pods] is registered under
    [kubernetes_get_pods]; then [kubernetes] connects and reports
    [get_pods] twice.  The name [kubernetes_get_pods] now leads to the second
    of the two, under [kubernetes]. *)
Lemma connectToServer_registers_witness :
  let s := Scenario.one_twin in
  let reported := [Scenario.get_pods_old; Scenario.get_pods_new] in
  let o := connectToServer Scenario.twins "kubernetes"
             Scenario.kubernetes_config s in
  JSMap.has (clients s) "kubernetes" = false /\
  backend_connects Scenario.twins "kubernetes" Scenario.kubernetes_config
    reported /\
  JSMap.get (toolMap s) "kubernetes_get_pods"
  = Some {| serverId := "kubernetes_get"; tool := Scenario.pods |} /\
  result o = Normal tt /\
  JSMap.has (clients (state o)) "kubernetes" = true /\
  (forall t, In t reported ->
     exists last,
       find (fun t' => String.eqb (Tool.name t') (Tool.name t))
            (rev reported) = Some last /\
       JSMap.get (toolMap (state o)) ("kubernetes" ++ "_" ++ Tool.name t)
       = Some {| serverId := "kubernetes"; tool := last |}) /\
  (NoDup (map Tool.name reported) ->
   forall t, In t reported ->
     JSMap.get (toolMap (state o)) ("kubernetes" ++ "_" ++ Tool.name t)
     = Some {| serverId := "kubernetes"; tool := t |}) /\
  (forall k,
     (forall t, In t reported ->
                k <> "kubernetes" ++ "_" ++ Tool.name t) ->
     JSMap.get (toolMap (state o)) k = JSMap.get (toolMap s) k).
Proof.
  assert (Hc : backend_connects Scenario.twins "kubernetes"
                 Scenario.kubernetes_config
                 [Scenario.get_pods_old; Scenario.get_pods_new]).
  { exists (StdioClientTransport "npx" (Some ["mcp-server-kubernetes"])).
    repeat split. }
  split; [reflexivity |]. split; [exact Hc |]. split; [reflexivity |].
  exact (@connectToServer_registers Scenario.twins "kubernetes"
           Scenario.kubernetes_config Scenario.one_twin
           [Scenario.get_pods_old; Scenario.get_pods_new]
           eq_refl Hc).
Defined.

(** The registry before and after: one entry, replaced in place. *)
Example connect_replaces_entry :
  toolMap Scenario.one_twin
  = [ ("kubernetes_get_pods",
       {| serverId := "kubernetes_get"; tool := Scenario.pods |}) ] /\
  toolMap (state (connectToServer Scenario.twins "kubernetes"
                    Scenario.kubernetes_config Scenario.one_twin))
  = [ ("kubernetes_get_pods",
       {| serverId := "kubernetes"; tool := Scenario.get_pods_new |}) ].
Proof. split; reflexivity. Qed.

(* ------------------------------------------------------------------ *)
(** ** Further properties: what an activation registers *)

Section ActivationFacts.
Variable env : Env.
Variable failed : string -> string.

(** One turn of the loop over the backends. *)
Let turn : string * BackendConfig -> M unit :=
  fun '(id, cfg) =>
    try_catch (connectToServer env id cfg)
              (fun error => logger_error (failed id) (Some error)).

Lemma turn_returns id cfg s :
  returns (turn (id, cfg)) s tt (state (connectToServer env id cfg s)).
Proof. exact (guarded_connect env (failed id) id cfg s). Qed.

Lemma connect_all_as_loop s :
  state (connect_all env failed s)
  = state (for_of (mcpServers (config s)) turn s).
Proof.
  unfold connect_all.
  match goal with
  | |- context [bind (gets ?g) ?f s] =>
      destruct (bind_after f (returns_gets g s)) as [_ ->]
  end.
  reflexivity.
Qed.

Lemma connect_exit_has_other id cfg s r s' id' :
  connect_exit env id cfg s r s' ->
  id' <> id ->
  JSMap.has (clients s') id' = JSMap.has (clients s) id'.
Proof.
  intros Hexit Hne.
  assert (Hset : forall v,
    JSMap.has (JSMap.set (clients s) id v) id' = JSMap.has (clients s) id').
  { intro v. rewrite JSMapFacts.has_set.
    destruct (String.eqb id id') eqn:E; [| reflexivity].
    apply String.eqb_eq in E. now elim Hne. }
  destruct Hexit; try reflexivity; simpl; apply Hset.
Qed.

(** A name in the registry and a backend in the client set stay there
    for the rest of the loop. *)
Lemma loop_keeps l s k id :
  JSMap.get (toolMap s) k <> None ->
  JSMap.has (clients s) id = true ->
  JSMap.get (toolMap (state (for_of l turn s))) k <> None /\
  JSMap.has (clients (state (for_of l turn s))) id = true.
Proof.
  intros Hk Hid.
  apply (for_of_invariant
           (fun s0 => JSMap.get (toolMap s0) k <> None /\
                      JSMap.has (clients s0) id = true) l turn);
    [| now split].
  intros [id0 cfg0] s0 _ [Hk0 Hid0].
  destruct (turn_returns id0 cfg0 s0) as [Hr Hs].
  split; [exact Hr |]. rewrite Hs.
  pose proof (connectToServer_exits env id0 cfg0 s0) as Hexit.
  split.
  - exact (connect_exit_keeps_names Hexit k Hk0).
  - unfold JSMap.has in *.
    destruct (JSMap.get (clients s0) id) as [c |] eqn:Hget; [| discriminate].
    now rewrite (connect_exit_keeps_clients Hexit id Hget).
Qed.

(** Every backend of the list that connects has its tools registered by
    the end of the loop, when the ids of the list are distinct and none of
    them is in the client set at the start. *)
Lemma loop_registers l :
  NoDup (map fst l) ->
  forall s,
    (forall id, In id (map fst l) -> JSMap.has (clients s) id = false) ->
    forall id cfg reported t,
      In (id, cfg) l ->
      backend_connects env id cfg reported ->
      In t reported ->
      JSMap.get (toolMap (state (for_of l turn s)))
                (id ++ "_" ++ Tool.name t) <> None /\
      JSMap.has (clients (state (for_of l turn s))) id = true.
Proof.
  induction l as [| [id0 cfg0] l IH]; intros Hnd s Habsent id cfg reported t
                                              Hin Hconn Ht;
    [contradiction |].
  simpl in Hnd. inversion Hnd as [| ? ? Hnot Hrest]; subst.
  cbn [for_of].
  destruct (bind_after (fun _ => for_of l turn) (turn_returns id0 cfg0 s))
    as [_ ->].
  pose proof (connectToServer_exits env id0 cfg0 s) as Hexit.
  destruct Hin as [Heq | Hin].
  - injection Heq as -> ->.
    assert (Hid : JSMap.has (clients s) id = false)
      by (apply Habsent; now left).
    destruct (connectToServer_connected s Hid Hconn) as (t0 & _ & _ & Hs).
    apply loop_keeps.
    + rewrite Hs. cbn [toolMap set_toolMap].
      destruct (@register_all_lookup id reported t reported (toolMap s)
                  (incl_refl _) (or_introl Ht)) as (t' & Hget & _).
      rewrite Hget. discriminate.
    + rewrite Hs. cbn [clients set_toolMap set_clients]. apply has_set_same.
  - apply (IH Hrest) with (cfg := cfg) (reported := reported);
      try assumption.
    intros id' Hid'.
    rewrite (connect_exit_has_other Hexit).
    + apply Habsent. now right.
    + intros ->. exact (Hnot Hid').
Qed.
(** What one first connection leaves in the two maps. *)
Lemma connect_exit_maps id cfg s r s' :
  connect_exit env id cfg s r s' ->
  JSMap.has (clients s) id = false ->
  toolMap s'
  = match reported_by env id cfg with
    | Some reported => register_all id reported (toolMap s)
    | None => toolMap s
    end /\
  clients s'
  = match client_for env id cfg with
    | Some client => JSMap.set (clients s) id client
    | None => clients s
    end.
Proof.
  intros Hexit Habsent. unfold reported_by, client_for.
  destruct Hexit as [Hhas | e _ Ht | t e _ Ht Hc | t e _ Ht Hc Hl
                     | t reported _ Ht Hc Hl].
  - congruence.
  - now rewrite Ht.
  - now rewrite Ht, Hc.
  - now rewrite Ht, Hc, Hl.
  - now rewrite Ht, Hc, Hl.
Qed.

(** The two maps at the end of the loop, when the ids of the list are
    distinct and none of them is in the client set at the start. *)
Lemma loop_maps l :
  NoDup (map fst l) ->
  forall s,
    (forall id, In id (map fst l) -> JSMap.has (clients s) id = false) ->
    toolMap (state (for_of l turn s))
    = fold_left
        (fun m '(id, cfg) =>
           match reported_by env id cfg with
           | Some reported => register_all id reported m
           | None => m
           end) l (toolMap s) /\
    clients (state (for_of l turn s))
    = fold_left
        (fun m '(id, cfg) =>
           match client_for env id cfg with
           | Some client => JSMap.set m id client
           | None => m
           end) l (clients s).
Proof.
  induction l as [| [id0 cfg0] l IH]; intros Hnd s Habsent;
    [now split |].
  simpl in Hnd. inversion Hnd as [| ? ? Hnot Hrest]; subst.
  cbn [for_of fold_left].
  destruct (bind_after (fun _ => for_of l turn) (turn_returns id0 cfg0 s))
    as [_ ->].
  pose proof (connectToServer_exits env id0 cfg0 s) as Hexit.
  destruct (connect_exit_maps Hexit (Habsent id0 (or_introl eq_refl)))
    as [Htools Hclients].
  rewrite <- Htools, <- Hclients.
  apply (IH Hrest).
  intros id' Hid'.
  rewrite (connect_exit_has_other Hexit).
  - apply Habsent. now right.
  - intros ->. exact (Hnot Hid').
Qed.
End ActivationFacts.

(* ------------------------------------------------------------------ *)
(** ** Profile switches: backends that fail *)

(** The tools a backend reports are what [backend_connects] names. *)
Lemma reported_by_connects env id cfg reported :
  reported_by env id cfg = Some reported <->
  backend_connects env id cfg reported.
Proof.
  unfold reported_by, backend_connects. split.
  - destruct (make_transport env cfg) as [t |] eqn:Ht; [| discriminate].
    destruct (Client_connect env (new_Client id) t) as [[] |] eqn:Hc;
      [| discriminate].
    destruct (Client_listTools env (connected (new_Client id) t))
      as [[ts] |] eqn:Hl; [| discriminate].
    simpl. intros [= <-]. exists t. now repeat split.
  - intros (t & -> & -> & ->). reflexivity.
Qed.

(** C3.  Once the profile has loaded, the activation completes whatever the
    backends do, and a backend that fails does not stop the ones after it.
    Every entry of the registry it leaves was reported by a backend of the
    profile that connected, and is stored under [<backendId>_<name>]; if no
    backend connects, the registry is empty.  When the profile names each
    backend once, every backend that connects is in the client set and
    each tool it reported has an entry under [<backendId>_<name>], wherever
    the failing backends stand in the profile; that entry is the tool
    itself, under its backend, when no other reported tool of the profile
    has the same qualified name. *)
Theorem switchProfile_partial_failure env p s c :
  config_on_disk env p = Normal c ->
  let o := switchProfile env p s in
  result o = Normal tt /\
  from_connected env c (state o) /\
  ((forall id cfg reported,
      In (id, cfg) (mcpServers c) -> ~ backend_connects env id cfg reported) ->
   toolMap (state o) = [] /\ result o = Normal tt) /\
  (NoDup (map fst (mcpServers c)) ->
   forall id cfg reported t,
     In (id, cfg) (mcpServers c) ->
     backend_connects env id cfg reported ->
     In t reported ->
     JSMap.has (clients (state o)) id = true /\
     exists info,
       JSMap.get (toolMap (state o)) (id ++ "_" ++ Tool.name t) = Some info /\
       ((forall id' cfg' reported' t',
           In (id', cfg') (mcpServers c) ->
           backend_connects env id' cfg' reported' ->
           In t' reported' ->
           id' ++ "_" ++ Tool.name t' = id ++ "_" ++ Tool.name t ->
           id' = id /\ t' = t) ->
        info = {| serverId := id; tool := t |})).
Proof.
  intros Hload o. subst o.
  pose proof (switchProfile_from_connected env p s Hload) as Hfrom.
  assert (Hres : result (switchProfile env p s) = Normal tt).
  { rewrite (proj1 (switchProfile_loaded env p s Hload)).
    apply connect_all_returns. }
  split; [exact Hres |]. split; [exact Hfrom |]. split.
  - intro Hnone. split; [| exact Hres].
    apply JSMapFacts.all_None_empty. intro k.
    destruct (JSMap.get _ k) as [info |] eqn:Hget; [| reflexivity].
    destruct (Hfrom k info Hget) as (cfg & reported & Hin & Hconn & _).
    elim (Hnone _ _ _ Hin Hconn).
  - intros Hnd id cfg reported t Hin Hconn Ht.
    assert (Hreg :
      JSMap.get (toolMap (state (switchProfile env p s)))
                (id ++ "_" ++ Tool.name t) <> None /\
      JSMap.has (clients (state (switchProfile env p s))) id = true).
    { rewrite (proj2 (switchProfile_loaded env p s Hload)).
      rewrite connect_all_as_loop. cbn [config fresh_profile].
      exact (@loop_registers env (switch_failed_message p) (mcpServers c)
               Hnd (fresh_profile c p) (fun _ _ => eq_refl)
               id cfg reported t Hin Hconn Ht). }
    destruct Hreg as [Hk Hid]. split; [exact Hid |].
    destruct (JSMap.get (toolMap (state (switchProfile env p s)))
                        (id ++ "_" ++ Tool.name t)) as [info |] eqn:Hget;
      [| now elim Hk].
    exists info. split; [reflexivity |]. intro Hone.
    destruct (Hfrom _ _ Hget) as (cfg' & reported' & Hin' & Hconn' & Ht' & Hkey).
    destruct (Hone _ _ _ _ Hin' Hconn' Ht' (eq_sym Hkey)) as [Hi Ht0].
    destruct info as [i0 t0]. simpl in Hi, Ht0. now subst.
Qed.

(** The profile lists [docker], which refuses the connection, before
    [kubernetes]: [kubernetes] is connected all the same and its tool is
    registered as it was reported. *)
Lemma switchProfile_partial_failure_witness :
  config_on_disk Scenario.docker_first "dev"
  = Normal Scenario.docker_first_config /\
  ~ backend_connects Scenario.docker_first "docker" Scenario.docker_config
      [Sample.list_containers] /\
  let o := switchProfile Scenario.docker_first "dev" Sample.dev_state in
  result o = Normal tt /\
  from_connected Scenario.docker_first Scenario.docker_first_config
    (state o) /\
  JSMap.has (clients (state o)) "kubernetes" = true /\
  JSMap.has (clients (state o)) "docker" = false /\
  exists info,
    JSMap.get (toolMap (state o)) "kubernetes_get_pods" = Some info /\
    info = {| serverId := "kubernetes"; tool := Sample.get_pods |}.
Proof.
  split; [reflexivity |]. split.
  { intros (t & Hm & Hc & _). injection Hm as <-. discriminate Hc. }
  pose proof (switchProfile_partial_failure Scenario.docker_first "dev"
                Sample.dev_state (c := Scenario.docker_first_config)
                eq_refl) as (Hres & Hfrom & _ & Hreg).
  assert (Hnd : NoDup (map fst (mcpServers Scenario.docker_first_config))).
  { simpl. constructor.
    - intros [H | []]. discriminate H.
    - constructor; [intros [] | constructor]. }
  assert (Hc : backend_connects Scenario.docker_first "kubernetes"
                 Scenario.kubernetes_config [Sample.get_pods]).
  { exists (StdioClientTransport "npx" (Some ["mcp-server-kubernetes"])).
    repeat split. }
  destruct (Hreg Hnd "kubernetes" Scenario.kubernetes_config
              [Sample.get_pods] Sample.get_pods
              (or_intror (or_introl eq_refl)) Hc (or_introl eq_refl))
    as (Hid & info & Hget & Hexact).
  split; [exact Hres |]. split; [exact Hfrom |]. split; [exact Hid |].
  split; [reflexivity |].
  exists info. split; [exact Hget |].
  apply Hexact.
  intros id' cfg' reported' t' Hin' (tr & Hm & Hcn & Hl) Ht' _.
  destruct Hin' as [Heq | [Heq | []]]; injection Heq as <- <-.
  - injection Hm as <-. discriminate Hcn.
  - injection Hm as <-. injection Hl as <-.
    destruct Ht' as [<- | []]. now split.
Defined.

(** The same switch, step by step: the refusal of [docker] is logged and
    the connection of [kubernetes] follows it. *)
Example switch_docker_first :
  let o := switchProfile Scenario.docker_first "dev" initial_state in
  result o = Normal tt /\
  JSMap.keys (toolMap (state o)) = ["kubernetes_get_pods"] /\
  JSMap.keys (clients (state o)) = ["kubernetes"] /\
  events o
  = [ ReadFile "/srv/config.dev.json";
      Connect (new_Client "docker")
              (StdioClientTransport "docker" (Some ["mcp"]));
      LogError "Failed to connect to server docker in profile dev:"
               (Some (new_Error "spawn docker ENOENT"));
      Connect (new_Client "kubernetes")
              (StdioClientTransport "npx" (Some ["mcp-server-kubernetes"]));
      ListTools (connected (new_Client "kubernetes")
                   (StdioClientTransport "npx"
                      (Some ["mcp-server-kubernetes"])));
      LogInfo "Connected to kubernetes with tools:" ["get_pods"] ].
Proof. repeat split. Qed.

(** X11.  After a switch to a profile that loads and names each backend
    once, the registry is what storing the reports of the profile's
    backends one after the other gives, starting from the empty map: in the
    order of the profile, each backend that connects and lists storing its
    tools in the order reported under [<id>_<tool name>], a later tool
    replacing an earlier one of the same qualified name, a backend that
    fails storing nothing.  The client set is built the same way from the
    backends whose connection is accepted, whether or not they then list
    their tools. *)
Theorem switchProfile_registry env p s c :
  config_on_disk env p = Normal c ->
  NoDup (map fst (mcpServers c)) ->
  let s' := state (switchProfile env p s) in
  toolMap s'
  = fold_left
      (fun m '(id, cfg) =>
         match reported_by env id cfg with
         | Some reported =>
             fold_left
               (fun m t =>
                  JSMap.set m (id ++ "_" ++ Tool.name t)
                            {| serverId := id; tool := t |})
               reported m
         | None => m
         end)
      (mcpServers c) [] /\
  clients s'
  = fold_left
      (fun m '(id, cfg) =>
         match client_for env id cfg with
         | Some client => JSMap.set m id client
         | None => m
         end)
      (mcpServers c) [].
Proof.
  intros Hload Hnd s'. subst s'.
  rewrite (proj2 (switchProfile_loaded env p s Hload)).
  rewrite connect_all_as_loop. cbn [config fresh_profile].
  exact (@loop_maps env (switch_failed_message p) (mcpServers c) Hnd
           (fresh_profile c p) (fun _ _ => eq_refl)).
Qed.

(** Two backends whose qualified names meet: [kubernetes_get] reports
    [pods], [kubernetes] reports [get_pods] twice.  Both are in the client
    set and the registry has the one entry [kubernetes_get_pods], owned by
    [kubernetes] and holding the tool it reported last. *)
Lemma switchProfile_registry_witness :
  let s' := state (switchProfile Scenario.twins "dev" Scenario.serving) in
  config_on_disk Scenario.twins "dev" = Normal Scenario.twins_config /\
  NoDup (map fst (mcpServers Scenario.twins_config)) /\
  toolMap s'
  = [ ("kubernetes_get_pods",
       {| serverId := "kubernetes"; tool := Scenario.get_pods_new |}) ] /\
  JSMap.keys (clients s') = ["kubernetes_get"; "kubernetes"].
Proof.
  assert (Hnd : NoDup (map fst (mcpServers Scenario.twins_config))).
  { simpl. constructor.
    - intros [H | []]. discriminate H.
    - constructor; [intros [] | constructor]. }
  split; [reflexivity |]. split; [exact Hnd |].
  destruct (@switchProfile_registry Scenario.twins "dev" Scenario.serving
              Scenario.twins_config eq_refl Hnd) as [Htools Hclients].
  split.
  - rewrite Htools. reflexivity.
  - rewrite Hclients. reflexivity.
Defined.

(** In the sample deployment: [docker] adds nothing to either map. *)
Example switch_to_dev_maps :
  let s' := state (switchProfile Sample.env "dev" Scenario.serving) in
  toolMap s'
  = [ ("kubernetes_get_pods",
       {| serverId := "kubernetes"; tool := Sample.get_pods |}) ] /\
  JSMap.keys (clients s') = ["kubernetes"] /\
  reported_by Sample.env "docker" Scenario.docker_config = None /\
  client_for Sample.env "docker" Scenario.docker_config = None.
Proof. repeat split. Qed.

(* ------------------------------------------------------------------ *)
(** ** Further properties: listing and invoking together *)



(** X13.  In a reachable state the listing names each tool once: no two
    listed entries share a name. *)
Theorem listed_names_distinct s listing :
  reachable s ->
  result (handleListTools s) = Normal listing ->
  NoDup (map Tool.name (tools listing)).
Proof.
  intros Hreach Hlist. injection Hlist as <-. simpl.
  destruct (reachable_registry_ok Hreach) as [Hnd Hreg].
  assert (Hkeys :
    map Tool.name (map (decorate (currentProfile s))
                       (JSMap.values (toolMap s)))
    = JSMap.keys (toolMap s)).
  { unfold JSMap.values, JSMap.keys. rewrite !map_map.
    apply map_ext_in. intros [k info] Hin.
    pose proof (@In_get _ _ _ _ Hnd Hin) as Hget.
    destruct (Hreg k info Hget) as [Hk _]. simpl. now rewrite Hk. }
  rewrite Hkeys. exact Hnd.
Qed.

(** Profile [dev] with both backends connected, then [start] on [ops]
    without a teardown: three tools of three backends are listed. *)
Lemma listed_names_distinct_witness :
  let s := state (start Scenario.all_up "ops" "stdio" (Num 3000) "localhost"
                    Scenario.dev_all_up) in
  let listed :=
    [ Tool.mk "kubernetes_get_pods"
        (Some "[ops/kubernetes] List pods") (JObject []);
      Tool.mk "docker_list_containers" (Some "[ops/docker] ") (JObject []);
      Tool.mk "files_read_file"
        (Some "[ops/files] Read a file") (JObject []) ] in
  reachable s /\
  result (handleListTools s) = Normal {| tools := listed |} /\
  NoDup (map Tool.name listed).
Proof.
  assert (Hreach :
    reachable (state (start Scenario.all_up "ops" "stdio" (Num 3000)
                        "localhost" Scenario.dev_all_up)))
    by apply reach_start, reach_switchProfile, reach_new.
  split; [exact Hreach |]. split; [reflexivity |].
  exact (@listed_names_distinct _ {| tools := _ |} Hreach eq_refl).
Defined.

(** X14.  [handleCallTool] never throws and never changes the state,
    whatever the request, the state and the answer of the backend; it makes
    at most one call, and none at all when the name is not in the registry
    or its backend is not in the client set. *)
Theorem handleCallTool_total env s request :
  let o := handleCallTool env request s in
  (exists r, result o = Normal r) /\
  state o = s /\
  (events o = [] \/
   exists client name arguments, events o = [CallTool client name arguments])
  /\
  (JSMap.get (toolMap s) (params_name (params request)) = None ->
   events o = []) /\
  (forall info,
     JSMap.get (toolMap s) (params_name (params request)) = Some info ->
     JSMap.get (clients s) (serverId info) = None ->
     events o = []).
Proof.
  intro o. subst o.
  destruct (JSMap.get (toolMap s) (params_name (params request)))
    as [info |] eqn:Hget.
  - destruct (JSMap.get (clients s) (serverId info)) as [client |] eqn:Hcl.
    + rewrite (handleCallTool_forwarded env s request Hget Hcl).
      cbn [result state events].
      split; [destruct (Client_callTool env client _ _); eexists; reflexivity |].
      split; [reflexivity |].
      split; [right; do 3 eexists; reflexivity |].
      split; [discriminate |].
      intros info' [= <-] Hnone. rewrite Hcl in Hnone. discriminate.
    + rewrite (handleCallTool_not_connected env s request Hget Hcl).
      cbn [result state events].
      split; [eexists; reflexivity |]. split; [reflexivity |].
      split; [now left |]. split; reflexivity.
  - rewrite (handleCallTool_not_found env s request Hget).
    cbn [result state events].
    split; [eexists; reflexivity |]. split; [reflexivity |].
    split; [now left |]. split; [reflexivity | discriminate].
Qed.

(* ------------------------------------------------------------------ *)
(** ** Further properties: caller sessions *)

Module JSObjectFacts.
Section Facts.
Variable V : Type.
Implicit Types (o : JSObject.t V) (k : string).

Lemma own_delete_same o k : JSObject.own (JSObject.delete o k) k = None.
Proof.
  induction o as [| [k0 v0] o IH]; simpl; [reflexivity |].
  destruct (String.eqb k0 k) eqn:E; [exact IH |].
  simpl. rewrite E. exact IH.
Qed.

Lemma own_delete_other o k k' :
  k' <> k -> JSObject.own (JSObject.delete o k) k' = JSObject.own o k'.
Proof.
  intro Hne. induction o as [| [k0 v0] o IH]; simpl; [reflexivity |].
  destruct (String.eqb k0 k) eqn:E; simpl.
  - apply String.eqb_eq in E. subst k0.
    destruct (String.eqb k k') eqn:E'; [| exact IH].
    apply String.eqb_eq in E'. now elim Hne.
  - destruct (String.eqb k0 k'); [reflexivity | exact IH].
Qed.

Lemma delete_absent o k : JSObject.own o k = None -> JSObject.delete o k = o.
Proof.
  induction o as [| [k0 v0] o IH]; simpl; [reflexivity |].
  destruct (String.eqb k0 k); [discriminate |].
  intro H. now rewrite IH.
Qed.

Lemma delete_delete o k :
  JSObject.delete (JSObject.delete o k) k = JSObject.delete o k.
Proof. apply delete_absent, own_delete_same. Qed.
End Facts.
End JSObjectFacts.

(** However a session ends, the state afterwards is the one before
    without that session, and nothing is thrown. *)
Lemma session_ends_returns env how t s :
  returns (session_ends env how t) s tt
    (set_transports (JSObject.delete (transports s) (sessionId t)) s).
Proof.
  destruct how as [| err |]; unfold session_ends.
  - now split.
  - now split.
  - unfold request_closed, returns, bind, try_catch, call, logger_info,
      logger_error, emit, drop_session, modify. simpl.
    rewrite JSObjectFacts.delete_delete.
    destruct (SSEServerTransport_close env t) as [[] |]; now split.
Qed.

(** A posted message whose session id has no own entry in the session map
    does not reach any transport. *)
Lemma post_messages_unrouted env req s :
  JSObject.own (transports s) (query_sessionId req) = None ->
  (forall t r, ~ In (HandlePostMessage t r) (events (post_messages env req s)))
  /\
  exists response,
    result (post_messages env req s) = Normal response /\
    (status response = 400 \/ status response = 500) /\
    (~ In (query_sessionId req) Object_prototype_keys ->
     status response = 400).
Proof.
  intro Hown. unfold post_messages, bind at 1. simpl.
  unfold JSObject.get. rewrite Hown.
  destruct (existsb (String.eqb (query_sessionId req)) Object_prototype_keys)
    eqn:E; simpl.
  - split.
    + intros t r [H | []]. discriminate H.
    + eexists. split; [reflexivity |]. split; [now right |].
      intro Hnot. exfalso. apply Hnot.
      apply existsb_exists in E. destruct E as (k & Hk & Heq).
      apply String.eqb_eq in Heq. now subst k.
  - split.
    + intros t r [H | []]. discriminate H.
    + eexists. split; [reflexivity |]. split; [now left | reflexivity].
Qed.

(** X15.  A message posted with the id of a registered session is handed
    to that session's transport, once, and to no other; what the transport
    answers is the response.  If the transport throws, the error is logged
    and the response is 500 "Internal server error".  The state is
    unchanged either way. *)
Theorem post_messages_routes env req s t :
  JSObject.own (transports s) (query_sessionId req) = Some t ->
  let o := post_messages env req s in
  state o = s /\
  match SSEServerTransport_handlePostMessage env t req with
  | Normal response =>
      result o = Normal response /\
      events o = [HandlePostMessage t req]
  | Throw e =>
      result o
      = Normal {| status := 500; json := json_error "Internal server error" |}
      /\
      events o = [HandlePostMessage t req;
                  LogError "Error handling message:" (Some e)]
  end.
Proof.
  intros Hown o. subst o.
  split; [apply post_messages_state |].
  unfold post_messages, bind at 1. simpl.
  unfold JSObject.get. rewrite Hown. simpl.
  unfold try_catch, call. simpl.
  destruct (SSEServerTransport_handlePostMessage env t req); now split.
Qed.

Lemma post_messages_routes_witness :
  let req := Scenario.post "77d1-b" in
  let o := post_messages Sample.env req Scenario.serving in
  JSObject.own (transports Scenario.serving) (query_sessionId req)
  = Some Scenario.session_b /\
  state o = Scenario.serving /\
  result o = Normal {| status := 202; json := JString "Accepted" |} /\
  events o = [HandlePostMessage Scenario.session_b req].
Proof.
  split; [reflexivity |].
  exact (post_messages_routes Sample.env (Scenario.post "77d1-b")
           Scenario.serving (t := Scenario.session_b) eq_refl).
Defined.

(** X16.  The handler of posted messages never throws and never changes
    the state.  When the session id has no entry of its own in the session
    map, no transport is called and the response is 400 or 500: 400
    whenever the id is not the name of a member of [Object.prototype]. *)
Theorem post_messages_total env req s :
  let o := post_messages env req s in
  (exists response, result o = Normal response) /\
  state o = s /\
  (JSObject.own (transports s) (query_sessionId req) = None ->
   (forall t r, ~ In (HandlePostMessage t r) (events o)) /\
   exists response,
     result o = Normal response /\
     (status response = 400 \/ status response = 500) /\
     (~ In (query_sessionId req) Object_prototype_keys ->
      status response = 400)).
Proof.
  intro o. subst o.
  split; [| split; [apply post_messages_state |
                    apply post_messages_unrouted]].
  destruct (JSObject.own (transports s) (query_sessionId req)) as [t |] eqn:H.
  - unfold post_messages, bind at 1. simpl.
    unfold JSObject.get. rewrite H. simpl. unfold try_catch, call. simpl.
    destruct (SSEServerTransport_handlePostMessage env t req);
      eexists; reflexivity.
  - destruct (post_messages_unrouted env req s H) as (_ & r & Hr & _).
    now exists r.
Qed.

Lemma post_messages_total_witness :
  let req := Scenario.post "stale" in
  let o := post_messages Sample.env req Scenario.serving in
  JSObject.own (transports Scenario.serving) (query_sessionId req) = None /\
  ~ In (query_sessionId req) Object_prototype_keys /\
  (exists response, result o = Normal response) /\
  state o = Scenario.serving /\
  (JSObject.own (transports Scenario.serving) (query_sessionId req) = None ->
   (forall t r, ~ In (HandlePostMessage t r) (events o)) /\
   exists response,
     result o = Normal response /\
     (status response = 400 \/ status response = 500) /\
     (~ In (query_sessionId req) Object_prototype_keys ->
      status response = 400)).
Proof.
  split; [reflexivity |]. split.
  - simpl. intuition discriminate.
  - exact (post_messages_total Sample.env (Scenario.post "stale")
             Scenario.serving).
Defined.

(** X17.  However a session ends (the transport closes, the transport
    fails, the caller disconnects), its callback returns and leaves the
    session map without that session and with every other session as it
    was; the backends, the registry, the configuration and the profile are
    not touched.  What it does outside is one log line when the transport
    closes or fails; when the caller disconnects, one log line, then
    exactly one [close] of that transport, then one more log line if and
    only if that close fails, carrying its error. *)
Theorem session_end_drops env how t s :
  let o := session_ends env how t s in
  result o = Normal tt /\
  JSObject.own (transports (state o)) (sessionId t) = None /\
  (forall k, k <> sessionId t ->
     JSObject.own (transports (state o)) k = JSObject.own (transports s) k) /\
  clients (state o) = clients s /\
  toolMap (state o) = toolMap s /\
  config (state o) = config s /\
  currentProfile (state o) = currentProfile s /\
  events o
  = match how with
    | Closed =>
        [LogInfo ("SSE connection closed (session " ++ sessionId t ++ ")") []]
    | Failed err =>
        [LogError ("SSE error (session " ++ sessionId t ++ "):") (Some err)]
    | Disconnected =>
        LogInfo ("Client disconnected (session " ++ sessionId t ++ ")") []
        :: CloseSession t
        :: match SSEServerTransport_close env t with
           | Normal _ => []
           | Throw e => [LogError "Error closing transport:" (Some e)]
           end
    end /\
  (forall t', In (CloseSession t') (events o) ->
              how = Disconnected /\ t' = t).
Proof.
  intro o. subst o.
  destruct (session_ends_returns env how t s) as [Hr Hs]. rewrite Hr, Hs.
  cbn [transports clients toolMap config currentProfile set_transports].
  split; [reflexivity |].
  split; [apply JSObjectFacts.own_delete_same |].
  split; [intros k Hk; now apply JSObjectFacts.own_delete_other |].
  do 4 (split; [reflexivity |]).
  assert (Hev :
    events (session_ends env how t s)
    = match how with
      | Closed =>
          [LogInfo ("SSE connection closed (session " ++ sessionId t ++ ")")
                   []]
      | Failed err =>
          [LogError ("SSE error (session " ++ sessionId t ++ "):")
                    (Some err)]
      | Disconnected =>
          LogInfo ("Client disconnected (session " ++ sessionId t ++ ")") []
          :: CloseSession t
          :: match SSEServerTransport_close env t with
             | Normal _ => []
             | Throw e => [LogError "Error closing transport:" (Some e)]
             end
      end).
  { destruct how as [| err |]; [reflexivity | reflexivity |].
    unfold session_ends, request_closed, bind, try_catch, call, logger_info,
      logger_error, emit, drop_session, modify.
    cbn [result state events app].
    now destruct (SSEServerTransport_close env t) as [[] |]. }
  rewrite Hev. split; [reflexivity |].
  destruct how as [| err |].
  - intros t' [H | []]. discriminate H.
  - intros t' [H | []]. discriminate H.
  - intros t' [H | [H | H]]; [discriminate H | |].
    + injection H as <-. now split.
    + destruct (SSEServerTransport_close env t); [destruct H |].
      destruct H as [H | []]. discriminate H.
Qed.

(** A caller disconnects while the close of its transport fails: the
    session is dropped, the transport is closed once and the failure is
    logged. *)
Example disconnect_with_failing_close :
  let o := session_ends Scenario.stuck Disconnected Scenario.session_a
             Scenario.serving in
  result o = Normal tt /\
  transports (state o) = [ ("77d1-b", Scenario.session_b) ] /\
  events o
  = [ LogInfo "Client disconnected (session 5f0c-a)" [];
      CloseSession Scenario.session_a;
      LogError "Error closing transport:" (Some (new_Error "write EPIPE")) ].
Proof. repeat split. Qed.

(** X18.  The first end of a session wins.  Whatever ended the session
    first, a later callback for the same session leaves the state as the
    first one left it, and all three callbacks lead to the same state.  A
    message posted afterwards with that session id reaches no transport and
    is answered 400, unless the id is the name of a member of
    [Object.prototype]. *)
Theorem session_end_first_wins env env' how how' t s :
  let s1 := state (session_ends env how t s) in
  state (session_ends env' how' t s1) = s1 /\
  state (session_ends env' how' t s) = s1 /\
  (forall env'' req,
     query_sessionId req = sessionId t ->
     (forall t' r,
        ~ In (HandlePostMessage t' r) (events (post_messages env'' req s1))) /\
     (~ In (sessionId t) Object_prototype_keys ->
      exists response,
        result (post_messages env'' req s1) = Normal response /\
        status response = 400)).
Proof.
  intro s1. subst s1.
  rewrite (proj2 (session_ends_returns env how t s)).
  rewrite (proj2 (session_ends_returns env' how' t s)).
  rewrite (proj2 (session_ends_returns env' how' t _)).
  cbn [transports set_transports].
  rewrite JSObjectFacts.delete_delete.
  split; [reflexivity |]. split; [reflexivity |].
  intros env'' req Hid.
  assert (Hown :
    JSObject.own
      (transports
         (set_transports (JSObject.delete (transports s) (sessionId t)) s))
      (query_sessionId req) = None).
  { rewrite Hid. apply JSObjectFacts.own_delete_same. }
  destruct (post_messages_unrouted env'' req _ Hown)
    as (Hnone & r & Hr & _ & H400).
  split; [exact Hnone |].
  intro Hnot. exists r. split; [exact Hr |]. apply H400. now rewrite Hid.
Qed.

Lemma session_end_first_wins_witness :
  let t := Scenario.session_a in
  let s1 := state (session_ends Sample.env (Failed (new_Error "write EPIPE"))
                     t Scenario.serving) in
  ~ In (sessionId t) Object_prototype_keys /\
  state (session_ends Scenario.stuck Disconnected t s1) = s1 /\
  state (session_ends Scenario.stuck Disconnected t Scenario.serving) = s1 /\
  (forall env'' req,
     query_sessionId req = sessionId t ->
     (forall t' r,
        ~ In (HandlePostMessage t' r) (events (post_messages env'' req s1))) /\
     (~ In (sessionId t) Object_prototype_keys ->
      exists response,
        result (post_messages env'' req s1) = Normal response /\
        status response = 400)).
Proof.
  split.
  - simpl. intuition discriminate.
  - exact (session_end_first_wins Sample.env Scenario.stuck
             (Failed (new_Error "write EPIPE")) Disconnected
             Scenario.session_a Scenario.serving).
Defined.

(* ------------------------------------------------------------------ *)
(** ** Further properties: the client set after a switch *)

Lemma connect_exit_clients_from env c id cfg s r s' :
  In (id, cfg) (mcpServers c) ->
  clients_from env c s ->
  connect_exit env id cfg s r s' ->
  clients_from env c s'.
Proof.
  intros Hin Hfrom Hexit.
  assert (Hset : forall t,
    make_transport env cfg = Normal t ->
    Client_connect env (new_Client id) t = Normal tt ->
    forall id' client,
      JSMap.get (JSMap.set (clients s) id (connected (new_Client id) t)) id'
      = Some client ->
      exists cfg' t',
        In (id', cfg') (mcpServers c) /\
        make_transport env cfg' = Normal t' /\
        Client_connect env (new_Client id') t' = Normal tt /\
        client = connected (new_Client id') t').
  { intros t Ht Hc id' client. rewrite JSMapFacts.get_set.
    destruct (String.eqb id id') eqn:E.
    - apply String.eqb_eq in E. subst id'. intros [= <-].
      exists cfg, t. now repeat split.
    - apply Hfrom. }
  destruct Hexit as [| | | t e _ Ht Hc _ | t reported _ Ht Hc _];
    try assumption.
  - intros id' client. simpl. now apply Hset.
  - intros id' client. simpl. now apply Hset.
Qed.

(** X19.  After a switch to a profile that loads, every client of the
    client set belongs to a backend of that profile whose connection
    succeeded: it is stored under the backend's id, is named
    [proxy-<id>], version 1.0.0, and holds the transport built from the
    backend's configuration. *)
Theorem switchProfile_clients_from_profile env p s c id client :
  config_on_disk env p = Normal c ->
  JSMap.get (clients (state (switchProfile env p s))) id = Some client ->
  exists cfg t,
    In (id, cfg) (mcpServers c) /\
    make_transport env cfg = Normal t /\
    Client_connect env (new_Client id) t = Normal tt /\
    Client.name client = "proxy-" ++ id /\
    Client.version client = "1.0.0" /\
    Client.transport client = Some t.
Proof.
  intros Hload Hget.
  rewrite (proj2 (switchProfile_loaded env p s Hload)) in Hget.
  destruct (connect_all_invariant (env := env)
              (fun s0 => config s0 = c /\ clients_from env c s0)
              (switch_failed_message p) (fresh_profile c p))
    as [_ [_ Hfrom]].
  - intros id0 cfg0 s0 r s' Hin [Hcfg Hfrom] Hexit. split.
    + destruct Hexit; assumption.
    + exact (connect_exit_clients_from Hin Hfrom Hexit).
  - split; [reflexivity |]. intros ? ? H. discriminate H.
  - destruct (Hfrom id client Hget) as (cfg & t & Hin & Ht & Hc & ->).
    exists cfg, t. now repeat split.
Qed.

Lemma switchProfile_clients_from_profile_witness :
  let client :=
    Client.mk "proxy-files" "1.0.0"
      (Some (SSEClientTransport "http://localhost:9000/sse")) in
  config_on_disk Sample.env "ops" = Normal Sample.ops_config /\
  JSMap.get (clients (state (switchProfile Sample.env "ops" Sample.dev_state)))
            "files" = Some client /\
  exists cfg t,
    In ("files", cfg) (mcpServers Sample.ops_config) /\
    make_transport Sample.env cfg = Normal t /\
    Client_connect Sample.env (new_Client "files") t = Normal tt /\
    Client.name client = "proxy-" ++ "files" /\
    Client.version client = "1.0.0" /\
    Client.transport client = Some t.
Proof.
  split; [reflexivity |]. split; [reflexivity |].
  exact (@switchProfile_clients_from_profile Sample.env "ops"
           Sample.dev_state Sample.ops_config "files"
           (Client.mk "proxy-files" "1.0.0"
              (Some (SSEClientTransport "http://localhost:9000/sse")))
           eq_refl eq_refl).
Defined.

(* ------------------------------------------------------------------ *)
(** ** Further properties: the logger *)

(** X20.  What [getLogger] gives.  Every line a logger writes carries the
    tag and then the arguments it was given.  Error lines never go to
    standard output, and a logger for the [stdio] transport writes nothing
    there at all, so the stream that carries the protocol stays clean.
    Level [none] writes nothing; any other level writes one line per call,
    with [info] on standard output exactly when the transport is not
    [stdio]. *)
Theorem getLogger_streams logLevel outputTransport args :
  let logger := getLogger logLevel outputTransport in
  (forall line,
     In line (Logger.info logger args ++ Logger.error logger args)%list ->
     line_args line = ArgText "[mpc-server-proxy]" :: args) /\
  (forall line, In line (Logger.error logger args) -> stream line = Stderr) /\
  (outputTransport = "stdio" ->
   forall line, In line (Logger.info logger args) -> stream line = Stderr) /\
  (logLevel = "none" ->
   Logger.info logger args = [] /\ Logger.error logger args = []) /\
  (logLevel <> "none" ->
   length (Logger.error logger args) = 1 /\
   length (Logger.info logger args) = 1 /\
   (outputTransport <> "stdio" ->
    forall line, In line (Logger.info logger args) -> stream line = Stdout)).
Proof.
  intro logger. subst logger. unfold getLogger.
  destruct (String.eqb logLevel "none") eqn:El;
    [apply String.eqb_eq in El
    | apply String.eqb_neq in El;
      destruct (String.eqb outputTransport "stdio") eqn:Et;
      [apply String.eqb_eq in Et | apply String.eqb_neq in Et]];
    simpl; repeat split; intros;
    repeat match goal with
           | H : _ \/ _ |- _ => destruct H as [<- | H]
           | H : False |- _ => destruct H
           end;
    try reflexivity; try contradiction.
Qed.

Lemma getLogger_streams_witness :
  let logger := getLogger "info" "stdio" in
  let args := [ArgText "Connected to kubernetes with tools:";
               ArgList ["get_pods"]] in
  "info" <> "none" /\
  (forall line,
     In line (Logger.info logger args ++ Logger.error logger args)%list ->
     line_args line = ArgText "[mpc-server-proxy]" :: args) /\
  (forall line, In line (Logger.error logger args) -> stream line = Stderr) /\
  ("stdio" = "stdio" ->
   forall line, In line (Logger.info logger args) -> stream line = Stderr) /\
  ("info" = "none" ->
   Logger.info logger args = [] /\ Logger.error logger args = []) /\
  ("info" <> "none" ->
   length (Logger.error logger args) = 1 /\
   length (Logger.info logger args) = 1 /\
   ("stdio" <> "stdio" ->
    forall line, In line (Logger.info logger args) -> stream line = Stdout)).
Proof.
  split; [discriminate |].
  exact (getLogger_streams "info" "stdio"
           [ArgText "Connected to kubernetes with tools:";
            ArgList ["get_pods"]]).
Defined.

(* ------------------------------------------------------------------ *)
(** ** Further properties: the calls of an activation *)

Lemma register_tools_events id reported s :
  events (for_of reported (register_tool id) s) = [].
Proof.
  revert s. induction reported as [| t ts IH]; intro s; [reflexivity |].
  cbn [for_of]. unfold register_tool at 1. rewrite events_bind_modify.
  apply IH.
Qed.

Section AttemptFacts.
Variable env : Env.
Variable failed : string -> string.

Let turn : string * BackendConfig -> M unit :=
  fun '(id, cfg) =>
    try_catch (connectToServer env id cfg)
              (fun error => logger_error (failed id) (Some error)).

(** The calls of [connectToServer] for a backend that connects. *)
Lemma connectToServer_connected_events id cfg s t reported :
  JSMap.has (clients s) id = false ->
  make_transport env cfg = Normal t ->
  Client_connect env (new_Client id) t = Normal tt ->
  Client_listTools env (connected (new_Client id) t)
  = Normal {| tools := reported |} ->
  result (connectToServer env id cfg s) = Normal tt /\
  events (connectToServer env id cfg s)
  = [Connect (new_Client id) t;
     ListTools (connected (new_Client id) t);
     LogInfo ("Connected to " ++ id ++ " with tools:")
             (map Tool.name reported)].
Proof.
  intros Habsent Ht Hc Hl. unfold connectToServer, bind at 1. simpl.
  rewrite Habsent.
  unfold bind at 1, lift. simpl. rewrite Ht. simpl.
  unfold bind at 1, call. simpl. rewrite Hc. simpl.
  unfold bind at 1. simpl. unfold bind at 1. simpl. rewrite Hl. simpl.
  match goal with
  | |- context [for_of reported (register_tool id) ?s1] =>
      rewrite (register_tools_events id reported s1);
      rewrite (proj1 (register_tools_returns id reported s1))
  end.
  now split.
Qed.

(** On a proxy where the backend is not connected yet, the calls of one
    turn of the loop do not depend on the rest of the state. *)
Lemma turn_calls id cfg s :
  JSMap.has (clients s) id = false ->
  events (turn (id, cfg) s) = attempt_calls env failed id cfg.
Proof.
  intro Habsent. unfold attempt_calls, turn, try_catch.
  assert (H0 : JSMap.has (clients initial_state) id = false) by reflexivity.
  destruct (make_transport env cfg) as [t | e] eqn:Ht.
  2:{ rewrite (connectToServer_no_transport env id cfg s Habsent Ht).
      rewrite (connectToServer_no_transport env id cfg initial_state H0 Ht).
      reflexivity. }
  destruct (Client_connect env (new_Client id) t) as [[] | e] eqn:Hc.
  2:{ rewrite (connectToServer_refused env id cfg s Habsent Ht Hc).
      rewrite (connectToServer_refused env id cfg initial_state H0 Ht Hc).
      reflexivity. }
  destruct (Client_listTools env (connected (new_Client id) t))
    as [[reported] | e] eqn:Hl.
  2:{ rewrite (connectToServer_listing_failed env id cfg s Habsent Ht Hc Hl).
      rewrite (connectToServer_listing_failed env id cfg initial_state
                 H0 Ht Hc Hl).
      reflexivity. }
  destruct (connectToServer_connected_events id cfg s Habsent Ht Hc Hl)
    as [Hr He].
  destruct (connectToServer_connected_events id cfg initial_state H0 Ht Hc Hl)
    as [Hr0 He0].
  rewrite Hr, Hr0, He, He0. reflexivity.
Qed.

Lemma loop_calls l :
  NoDup (map fst l) ->
  forall s,
    (forall id, In id (map fst l) -> JSMap.has (clients s) id = false) ->
    events (for_of l turn s)
    = flat_map (fun '(id, cfg) => attempt_calls env failed id cfg) l.
Proof.
  induction l as [| [id cfg] l IH]; intros Hnd s Habsent; [reflexivity |].
  simpl in Hnd. inversion Hnd as [| ? ? Hnot Hrest]; subst.
  cbn [for_of flat_map].
  destruct (guarded_connect env (failed id) id cfg s) as [Hr Hs].
  fold (turn (id, cfg)) in Hr, Hs.
  rewrite (events_bind _ _ _ Hr), Hs.
  rewrite turn_calls by (apply Habsent; now left).
  f_equal. apply (IH Hrest).
  intros id' Hid'.
  rewrite (connect_exit_has_other (connectToServer_exits env id cfg s)).
  - apply Habsent. now right.
  - intros ->. exact (Hnot Hid').
Qed.
End AttemptFacts.

Lemma readConfig_events_loaded env p c s :
  config_on_disk env p = Normal c ->
  events (readConfig env p s)
  = [ReadFile (path_join env (cwd env) ("config." ++ p ++ ".json"))].
Proof.
  unfold config_on_disk, readConfig, try_catch, bind, call, lift. simpl.
  intro H. destruct (fs_readFile env _) as [data |]; [| discriminate]. simpl.
  rewrite H. reflexivity.
Qed.

(** X21.  The backends of a profile are attempted one after another, in
    the order of the configuration, each once and independently of the
    others.  When the profile loads and names each backend once, the calls
    of a switch are: those of the teardown, the read of the profile's
    file, and then for each backend in turn exactly the calls that
    connecting it alone on a new proxy makes. *)
Theorem switchProfile_calls env p s c :
  config_on_disk env p = Normal c ->
  NoDup (map fst (mcpServers c)) ->
  events (switchProfile env p s)
  = (events (cleanup env s)
     ++ ReadFile (path_join env (cwd env) ("config." ++ p ++ ".json"))
     :: flat_map
          (fun '(id, cfg) =>
             attempt_calls env (switch_failed_message p) id cfg)
          (mcpServers c))%list.
Proof.
  intros Hload Hnd. unfold switchProfile.
  rewrite (events_bind _ _ _ (proj1 (cleanup_returns env s))). f_equal.
  rewrite events_bind_modify, events_bind_modify.
  rewrite (wiped (proj2 (cleanup_spec env s))).
  match goal with
  | |- events (bind (readConfig env p) ?f ?s1) = _ =>
      rewrite (events_bind _ f s1 (proj1 (readConfig_returns env p s1 Hload)));
      rewrite (proj2 (readConfig_returns env p s1 Hload));
      rewrite (readConfig_events_loaded env p s1 Hload)
  end.
  cbn [app]. f_equal.
  rewrite events_bind_modify. unfold connect_all.
  rewrite events_bind_gets.
  apply (@loop_calls env (switch_failed_message p) (mcpServers c) Hnd).
  intros id _. reflexivity.
Qed.

Lemma switchProfile_calls_witness :
  config_on_disk Sample.env "dev" = Normal Sample.dev_config /\
  NoDup (map fst (mcpServers Sample.dev_config)) /\
  events (switchProfile Sample.env "dev" Scenario.serving)
  = (events (cleanup Sample.env Scenario.serving)
     ++ ReadFile
          (path_join Sample.env (cwd Sample.env) ("config." ++ "dev" ++ ".json"))
     :: flat_map
          (fun '(id, cfg) =>
             attempt_calls Sample.env (switch_failed_message "dev") id cfg)
          (mcpServers Sample.dev_config))%list.
Proof.
  assert (Hnd : NoDup (map fst (mcpServers Sample.dev_config))).
  { simpl. constructor.
    - intros [H | []]. discriminate H.
    - constructor; [intros [] | constructor]. }
  split; [reflexivity |]. split; [exact Hnd |].
  exact (@switchProfile_calls Sample.env "dev" Scenario.serving
           Sample.dev_config eq_refl Hnd).
Defined.

(* ------------------------------------------------------------------ *)
(** ** Further properties: the invariant of the two maps *)

(** X22.  Whatever sequence of starts, switches, teardowns, requests,
    session events and lost backend links the proxy has gone through, the
    registry has one entry per name, every entry is stored under
    [<serverId>_<tool name>], and the backend of every entry is in the
    client set. *)
Theorem registry_invariant s :
  reachable s ->
  NoDup (JSMap.keys (toolMap s)) /\
  (forall k info,
     JSMap.get (toolMap s) k = Some info ->
     k = serverId info ++ "_" ++ Tool.name (tool info) /\
     exists client, JSMap.get (clients s) (serverId info) = Some client).
Proof.
  intro Hreach. destruct (reachable_registry_ok Hreach) as [Hnd Hreg].
  split; [exact Hnd |]. intros k info Hget.
  destruct (Hreg k info Hget) as [Hk Hhas]. split; [exact Hk |].
  unfold JSMap.has in Hhas.
  destruct (JSMap.get (clients s) (serverId info)) as [client |];
    [now exists client | discriminate].
Qed.

Lemma registry_invariant_witness :
  let s := state (start Sample.env "ops" "sse" (Num 8080) "localhost"
                    Sample.kubernetes_down) in
  reachable s /\
  NoDup (JSMap.keys (toolMap s)) /\
  (forall k info,
     JSMap.get (toolMap s) k = Some info ->
     k = serverId info ++ "_" ++ Tool.name (tool info) /\
     exists client, JSMap.get (clients s) (serverId info) = Some client).
Proof.
  assert (Hreach :
    reachable (state (start Sample.env "ops" "sse" (Num 8080) "localhost"
                        Sample.kubernetes_down)))
    by apply reach_start, reach_link_closed, reach_switchProfile, reach_new.
  split; [exact Hreach |].
  exact (registry_invariant Hreach).
Defined.
